(** * MultiSessionVotingSystem: a shallow embedding of the voting ledger

    The contract keeps a table of voting sessions, each with its own
    candidates, time window and per-voter vote record, under a single owner.
    Solidity's [uint256] and [address] are modelled as [N]; the arithmetic of
    the contract is checked (pragma ^0.8.0), so an increment at [2^256 - 1]
    aborts the call.  Mappings are finite maps read with the zero value as
    default.  A call runs in an environment (caller, block timestamp) over the
    contract storage and the event log; a failed [require] aborts the whole
    call, and the storage of an aborted call is the one it started from.
    The module [Traced] runs the mutating functions once more with the
    working storage of a failing call kept, to show what a revert undoes. *)

From stdpp Require Import gmap strings list fin_maps.
From Stdlib Require Import NArith.

Local Open Scope N_scope.

(** ** Data model *)

Abbreviation address := N (only parsing).
Abbreviation uint256 := N (only parsing).

Definition max_uint256 : N := 2 ^ 256 - 1.

Record Candidate := mkCandidate {
  cand_id : uint256;
  cand_name : string;
  voteCount : uint256;
  cand_isActive : bool
}.

Record VotingSession := mkSession {
  sessionId : uint256;
  sessionName : string;
  startTime : uint256;
  endTime : uint256;
  isActive : bool;
  isCreated : bool;
  candidateCount : uint256;
  totalVotes : uint256;
  candidates : gmap N Candidate;
  hasVoted : gmap N bool;
  voterChoice : gmap N N
}.

Inductive Event :=
| SessionCreated (sid : uint256) (name : string) (st et : uint256)
| SessionStarted (sid : uint256)
| SessionEnded (sid : uint256)
| CandidateAdded (sid cid : uint256) (name : string)
| CandidateUpdated (sid cid : uint256) (name : string)
| CandidateRemoved (sid cid : uint256)
| VoteCast (sid : uint256) (voter : address) (cid : uint256)
| VoterRegistered (voter : address).

(** Contract storage together with the log of emitted events. *)
Record State := mkState {
  votingSessions : gmap N VotingSession;
  registeredVoters : gmap N bool;
  sessionCount : uint256;
  owner : address;
  events : list Event
}.

(** What a call sees of its transaction. *)
Record Env := mkEnv {
  msg_sender : address;
  block_timestamp : uint256
}.

(** The zero values a mapping yields at a key never written. *)
Definition zeroCandidate : Candidate := mkCandidate 0 "" 0 false.

Definition zeroSession : VotingSession :=
  mkSession 0 "" 0 0 false false 0 0 ∅ ∅ ∅.

Definition session_at (s : State) (sid : N) : VotingSession :=
  default zeroSession (votingSessions s !! sid).

Definition candidate_at (v : VotingSession) (cid : N) : Candidate :=
  default zeroCandidate (candidates v !! cid).

Definition voted (v : VotingSession) (a : N) : bool :=
  default false (hasVoted v !! a).

Definition choice (v : VotingSession) (a : N) : N :=
  default 0 (voterChoice v !! a).

Definition registered (s : State) (a : N) : bool :=
  default false (registeredVoters s !! a).

(** Field assignments. *)
Definition set_isActive (b : bool) (v : VotingSession) : VotingSession :=
  mkSession (sessionId v) (sessionName v) (startTime v) (endTime v) b
    (isCreated v) (candidateCount v) (totalVotes v)
    (candidates v) (hasVoted v) (voterChoice v).

Definition set_candidateCount (n : N) (v : VotingSession) : VotingSession :=
  mkSession (sessionId v) (sessionName v) (startTime v) (endTime v)
    (isActive v) (isCreated v) n (totalVotes v)
    (candidates v) (hasVoted v) (voterChoice v).

Definition set_totalVotes (n : N) (v : VotingSession) : VotingSession :=
  mkSession (sessionId v) (sessionName v) (startTime v) (endTime v)
    (isActive v) (isCreated v) (candidateCount v) n
    (candidates v) (hasVoted v) (voterChoice v).

Definition set_candidate (cid : N) (c : Candidate) (v : VotingSession)
  : VotingSession :=
  mkSession (sessionId v) (sessionName v) (startTime v) (endTime v)
    (isActive v) (isCreated v) (candidateCount v) (totalVotes v)
    (<[cid := c]> (candidates v)) (hasVoted v) (voterChoice v).

Definition set_hasVoted (a : N) (b : bool) (v : VotingSession)
  : VotingSession :=
  mkSession (sessionId v) (sessionName v) (startTime v) (endTime v)
    (isActive v) (isCreated v) (candidateCount v) (totalVotes v)
    (candidates v) (<[a := b]> (hasVoted v)) (voterChoice v).

Definition set_voterChoice (a cid : N) (v : VotingSession) : VotingSession :=
  mkSession (sessionId v) (sessionName v) (startTime v) (endTime v)
    (isActive v) (isCreated v) (candidateCount v) (totalVotes v)
    (candidates v) (hasVoted v) (<[a := cid]> (voterChoice v)).

(** The eight scalar assignments at the head of [createSession]; the three
    mappings of the storage slot are not touched by them. *)
Definition init_session (sid : N) (name : string) (st et : N)
    (v : VotingSession) : VotingSession :=
  mkSession sid name st et false true 0 0
    (candidates v) (hasVoted v) (voterChoice v).

Definition set_cand_name (name : string) (c : Candidate) : Candidate :=
  mkCandidate (cand_id c) name (voteCount c) (cand_isActive c).

Definition set_cand_isActive (b : bool) (c : Candidate) : Candidate :=
  mkCandidate (cand_id c) (cand_name c) (voteCount c) b.

Definition set_voteCount (n : N) (c : Candidate) : Candidate :=
  mkCandidate (cand_id c) (cand_name c) n (cand_isActive c).

Definition put_session (sid : N) (v : VotingSession) (s : State) : State :=
  mkState (<[sid := v]> (votingSessions s)) (registeredVoters s)
    (sessionCount s) (owner s) (events s).

Definition put_registered (a : N) (b : bool) (s : State) : State :=
  mkState (votingSessions s) (<[a := b]> (registeredVoters s))
    (sessionCount s) (owner s) (events s).

Definition put_sessionCount (n : N) (s : State) : State :=
  mkState (votingSessions s) (registeredVoters s) n (owner s) (events s).

Definition log_event (e : Event) (s : State) : State :=
  mkState (votingSessions s) (registeredVoters s) (sessionCount s) (owner s)
    (events s ++ [e]).

(** ** Failures *)

(** One constructor per [require] of the contract, plus the arithmetic panic
    of a checked increment. *)
Inductive Failure :=
| OnlyOwner
| SessionDoesNotExist
| SessionNotFound
| CannotModifyActiveSession
| InvalidTimeRange
| NoCandidates
| EmptySessionName
| EmptyCandidateName
| InvalidCandidateID
| CandidateNotActive_update
| CandidateAlreadyInactive
| SessionAlreadyActive
| StartTimeNotReached
| EndTimePassed
| SessionNotActive_end
| InvalidVoterAddress
| VoterAlreadyRegistered
| AlreadyRegistered
| NotRegistered
| SessionNotActive_vote
| AlreadyVoted
| InvalidCandidate
| CandidateNotActive_vote
| VoterHasNotVoted
| ArithmeticPanic.

(** The message each failure carries in the contract. *)
Definition revert_reason (f : Failure) : string :=
  match f with
  | OnlyOwner => "Only owner can perform this action"
  | SessionDoesNotExist => "Session does not exist"
  | SessionNotFound => "Session not found"
  | CannotModifyActiveSession => "Cannot modify active session"
  | InvalidTimeRange => "Invalid time range"
  | NoCandidates => "At least one candidate required"
  | EmptySessionName => "Session name cannot be empty"
  | EmptyCandidateName => "Candidate name cannot be empty"
  | InvalidCandidateID => "Invalid candidate ID"
  | CandidateNotActive_update => "Candidate not active"
  | CandidateAlreadyInactive => "Candidate already inactive"
  | SessionAlreadyActive => "Session already active"
  | StartTimeNotReached => "Session start time not reached"
  | EndTimePassed => "Session end time passed"
  | SessionNotActive_end => "Session not active"
  | InvalidVoterAddress => "Invalid voter address"
  | VoterAlreadyRegistered => "Voter already registered"
  | AlreadyRegistered => "Already registered"
  | NotRegistered => "Not registered to vote"
  | SessionNotActive_vote => "Session not active"
  | AlreadyVoted => "Already voted in this session"
  | InvalidCandidate => "Invalid candidate"
  | CandidateNotActive_vote => "Candidate not active"
  | VoterHasNotVoted => "Voter has not voted in this session"
  | ArithmeticPanic => "panic: arithmetic overflow"
  end.

Inductive ErrorKind := AuthError | ValidationError | StateError.

(** Modelled from the spec: the contract only carries revert messages; the
    three error kinds are the taxonomy of the specification (privilege or
    registration missing; malformed input such as empty strings, ids out of
    range and bad time windows; operation invalid for the lifecycle state).
    An arithmetic panic belongs to none of them. *)
Definition error_kind (f : Failure) : option ErrorKind :=
  match f with
  | OnlyOwner | NotRegistered => Some AuthError
  | SessionDoesNotExist | SessionNotFound
  | InvalidTimeRange | NoCandidates | EmptySessionName | EmptyCandidateName
  | InvalidCandidateID | InvalidVoterAddress
  | InvalidCandidate | CandidateNotActive_vote => Some ValidationError
  | CannotModifyActiveSession | CandidateNotActive_update
  | CandidateAlreadyInactive | SessionAlreadyActive | StartTimeNotReached
  | EndTimePassed | SessionNotActive_end | VoterAlreadyRegistered
  | AlreadyRegistered | SessionNotActive_vote | AlreadyVoted
  | VoterHasNotVoted => Some StateError
  | ArithmeticPanic => None
  end.

(** ** The call monad *)

Inductive result (A : Type) :=
| Ok (a : A)
| Err (f : Failure).
Arguments Ok {A} a.
Arguments Err {A} f.

Definition M (A : Type) : Type := Env → State → result (A * State).

#[global] Instance M_ret : MRet M := λ A a _ s, Ok (a, s).

#[global] Instance M_bind : MBind M := λ A B k m env s,
  match m env s with
  | Ok (a, s') => k a env s'
  | Err f => Err f
  end.

Definition throw {A} (f : Failure) : M A := λ _ _, Err f.

Definition require (b : bool) (f : Failure) : M unit :=
  if b then mret tt else throw f.

Definition gets {A} (f : State → A) : M A := λ _ s, Ok (f s, s).

Definition modify (f : State → State) : M unit := λ _ s, Ok (tt, f s).

Definition sender : M N := λ env s, Ok (msg_sender env, s).

Definition timestamp : M N := λ env s, Ok (block_timestamp env, s).

Definition emit (e : Event) : M unit := modify (log_event e).

(** [x++] on a [uint256] under checked arithmetic. *)
Definition checked_incr (x : N) : M N :=
  if x <? max_uint256 then mret (x + 1) else throw ArithmeticPanic.

(** Assignment through a storage reference [votingSessions[sid]]. *)
Definition upd_session (sid : N) (f : VotingSession → VotingSession)
  : M unit :=
  modify (λ s, put_session sid (f (session_at s sid)) s).

(** [for (uint256 i = 1; i <= n; i++) body]: the body runs at each [i] of
    [ids], then [i] is incremented. *)
Fixpoint for_ids {A} (ids : list N) (body : N → A → M A) (acc : A) : M A :=
  match ids with
  | [] => mret acc
  | i :: rest =>
      acc' ← body i acc;
      _ ← checked_incr i;
      for_ids rest body acc'
  end.

(** The ids [1], ..., [n] in ascending order. *)
Definition ids_upto (n : N) : list N := N.of_nat <$> seq 1 (N.to_nat n).

Definition for_1_to {A} (n : N) (body : N → A → M A) (acc : A) : M A :=
  for_ids (ids_upto n) body acc.

(** ** Modifiers and views *)

Definition onlyOwner : M unit :=
  caller ← sender;
  o ← gets owner;
  require (caller =? o) OnlyOwner.

Definition sessionExists (sid : N) : M unit :=
  n ← gets sessionCount;
  require ((0 <? sid) && (sid <=? n)) SessionDoesNotExist;;
  v ← gets (λ s, session_at s sid);
  require (isCreated v) SessionNotFound.

Definition isSessionActive (sid : N) : M bool :=
  n ← gets sessionCount;
  if (sid =? 0) || (n <? sid) then mret false else
  v ← gets (λ s, session_at s sid);
  if negb (isCreated v) || negb (isActive v) then mret false else
  now ← timestamp;
  mret ((startTime v <=? now) && (now <=? endTime v)).

Definition sessionNotActive (sid : N) : M unit :=
  act ← isSessionActive sid;
  require (negb act) CannotModifyActiveSession.

(** ** Owner functions *)

Definition addCandidateToSession (sid : N) (name : string) : M unit :=
  onlyOwner;; sessionExists sid;; sessionNotActive sid;;
  require (0 <? N.of_nat (String.length name)) EmptyCandidateName;;
  cc ← gets (λ s, candidateCount (session_at s sid));
  cc' ← checked_incr cc;
  upd_session sid (set_candidateCount cc');;
  upd_session sid (set_candidate cc' (mkCandidate cc' name 0 true));;
  emit (CandidateAdded sid cc' name).

Fixpoint add_candidates (sid : N) (names : list string) : M unit :=
  match names with
  | [] => mret tt
  | name :: rest => addCandidateToSession sid name;; add_candidates sid rest
  end.

Definition createSession (name : string) (st et : N) (names : list string)
  : M N :=
  onlyOwner;;
  require (st <? et) InvalidTimeRange;;
  require (0 <? N.of_nat (length names)) NoCandidates;;
  require (0 <? N.of_nat (String.length name)) EmptySessionName;;
  n ← gets sessionCount;
  n' ← checked_incr n;
  modify (put_sessionCount n');;
  upd_session n' (init_session n' name st et);;
  add_candidates n' names;;
  emit (SessionCreated n' name st et);;
  mret n'.

Definition updateCandidate (sid cid : N) (newName : string) : M unit :=
  onlyOwner;; sessionExists sid;; sessionNotActive sid;;
  require (0 <? N.of_nat (String.length newName)) EmptyCandidateName;;
  v ← gets (λ s, session_at s sid);
  require ((0 <? cid) && (cid <=? candidateCount v)) InvalidCandidateID;;
  require (cand_isActive (candidate_at v cid)) CandidateNotActive_update;;
  upd_session sid
    (λ v, set_candidate cid (set_cand_name newName (candidate_at v cid)) v);;
  emit (CandidateUpdated sid cid newName).

Definition removeCandidateFromSession (sid cid : N) : M unit :=
  onlyOwner;; sessionExists sid;; sessionNotActive sid;;
  v ← gets (λ s, session_at s sid);
  require ((0 <? cid) && (cid <=? candidateCount v)) InvalidCandidateID;;
  require (cand_isActive (candidate_at v cid)) CandidateAlreadyInactive;;
  upd_session sid
    (λ v, set_candidate cid (set_cand_isActive false (candidate_at v cid)) v);;
  emit (CandidateRemoved sid cid).

Definition startSession (sid : N) : M unit :=
  onlyOwner;; sessionExists sid;;
  v ← gets (λ s, session_at s sid);
  now ← timestamp;
  require (negb (isActive v)) SessionAlreadyActive;;
  require (startTime v <=? now) StartTimeNotReached;;
  require (now <? endTime v) EndTimePassed;;
  upd_session sid (set_isActive true);;
  emit (SessionStarted sid).

Definition endSession (sid : N) : M unit :=
  onlyOwner;; sessionExists sid;;
  v ← gets (λ s, session_at s sid);
  require (isActive v) SessionNotActive_end;;
  upd_session sid (set_isActive false);;
  emit (SessionEnded sid).

Definition registerVoter (a : N) : M unit :=
  onlyOwner;;
  require (negb (a =? 0)) InvalidVoterAddress;;
  r ← gets (λ s, registered s a);
  require (negb r) VoterAlreadyRegistered;;
  modify (put_registered a true);;
  emit (VoterRegistered a).

Fixpoint register_each (voters : list N) : M unit :=
  match voters with
  | [] => mret tt
  | a :: rest =>
      r ← gets (λ s, registered s a);
      (if negb r && negb (a =? 0)
       then modify (put_registered a true);; emit (VoterRegistered a)
       else mret tt);;
      register_each rest
  end.

Definition registerMultipleVoters (voters : list N) : M unit :=
  onlyOwner;; register_each voters.

(** ** Voter functions *)

Definition registerSelf : M unit :=
  caller ← sender;
  r ← gets (λ s, registered s caller);
  require (negb r) AlreadyRegistered;;
  modify (put_registered caller true);;
  emit (VoterRegistered caller).

Definition vote (sid cid : N) : M unit :=
  sessionExists sid;;
  caller ← sender;
  r ← gets (λ s, registered s caller);
  require r NotRegistered;;
  act ← isSessionActive sid;
  require act SessionNotActive_vote;;
  v ← gets (λ s, session_at s sid);
  require (negb (voted v caller)) AlreadyVoted;;
  require ((0 <? cid) && (cid <=? candidateCount v)) InvalidCandidate;;
  require (cand_isActive (candidate_at v cid)) CandidateNotActive_vote;;
  upd_session sid (set_hasVoted caller true);;
  upd_session sid (set_voterChoice caller cid);;
  vc ← gets (λ s, voteCount (candidate_at (session_at s sid) cid));
  vc' ← checked_incr vc;
  upd_session sid
    (λ v, set_candidate cid (set_voteCount vc' (candidate_at v cid)) v);;
  tv ← gets (λ s, totalVotes (session_at s sid));
  tv' ← checked_incr tv;
  upd_session sid (set_totalVotes tv');;
  emit (VoteCast sid caller cid).

(** ** Tally *)

(** One iteration of the winner scan over the running [maxVotes],
    [winnerId] and [tieCount]. *)
Definition scan_body (v : VotingSession) (i : N) (acc : N * N * N)
  : M (N * N * N) :=
  let '(maxVotes, winnerId, tieCount) := acc in
  if cand_isActive (candidate_at v i) then
    if maxVotes <? voteCount (candidate_at v i) then
      mret (voteCount (candidate_at v i), i, 1)
    else if (voteCount (candidate_at v i) =? maxVotes) && (0 <? maxVotes) then
      t ← checked_incr tieCount;
      mret (maxVotes, winnerId, t)
    else mret acc
  else mret acc.

Definition getSessionWinner (sid : N) : M (string * N * bool) :=
  sessionExists sid;;
  v ← gets (λ s, session_at s sid);
  if totalVotes v =? 0 then mret ("No votes cast"%string, 0, false) else
  r ← for_1_to (candidateCount v) (scan_body v) (0, 0, 0);
  let '(maxVotes, winnerId, tieCount) := r in
  if 0 <? winnerId then
    mret (cand_name (candidate_at v winnerId), maxVotes, 1 <? tieCount)
  else mret ("No winner"%string, 0, false).

Definition hasVotedInSession (a sid : N) : M bool :=
  sessionExists sid;;
  gets (λ s, voted (session_at s sid) a).

Definition getVoterChoice (a sid : N) : M N :=
  sessionExists sid;;
  b ← gets (λ s, voted (session_at s sid) a);
  require b VoterHasNotVoted;;
  gets (λ s, choice (session_at s sid) a).

Definition isRegisteredVoter (a : N) : M bool :=
  gets (λ s, registered s a).

(** ** Transactions *)

(** The state the contract is deployed with. *)
Definition constructor (deployer : N) : State :=
  mkState ∅ {[ deployer := true ]} 0 deployer [].

Inductive Call :=
| CreateSession (name : string) (st et : N) (names : list string)
| AddCandidateToSession (sid : N) (name : string)
| UpdateCandidate (sid cid : N) (newName : string)
| RemoveCandidateFromSession (sid cid : N)
| StartSession (sid : N)
| EndSession (sid : N)
| RegisterVoter (a : N)
| RegisterMultipleVoters (voters : list N)
| RegisterSelf
| Vote (sid cid : N).

Definition dispatch (c : Call) : M unit :=
  match c with
  | CreateSession name st et names => createSession name st et names;; mret tt
  | AddCandidateToSession sid name => addCandidateToSession sid name
  | UpdateCandidate sid cid newName => updateCandidate sid cid newName
  | RemoveCandidateFromSession sid cid => removeCandidateFromSession sid cid
  | StartSession sid => startSession sid
  | EndSession sid => endSession sid
  | RegisterVoter a => registerVoter a
  | RegisterMultipleVoters voters => registerMultipleVoters voters
  | RegisterSelf => registerSelf
  | Vote sid cid => vote sid cid
  end.

(** A transaction either commits the state its call ends in, or reverts to
    the state it started from. *)
Definition transact (env : Env) (c : Call) (s : State) : State :=
  match dispatch c env s with
  | Ok (_, s') => s'
  | Err _ => s
  end.

Definition outcome (env : Env) (c : Call) (s : State) : option Failure :=
  match dispatch c env s with
  | Ok _ => None
  | Err f => Some f
  end.

Inductive reachable : State → Prop :=
| reachable_deploy deployer : reachable (constructor deployer)
| reachable_step env c s : reachable s → reachable (transact env c s).

(** The state after a sequence of transactions, oldest first. *)
Definition run (txs : list (Env * Call)) (s : State) : State :=
  foldl (λ s tx, transact tx.1 tx.2 s) s txs.

(** ** Effects of the calls *)

(** Whether a session counts as active at the time of the call. *)
Definition session_active (env : Env) (s : State) (sid : N) : bool :=
  negb (sid =? 0) && (sid <=? sessionCount s)
  && isCreated (session_at s sid) && isActive (session_at s sid)
  && (startTime (session_at s sid) <=? block_timestamp env)
  && (block_timestamp env <=? endTime (session_at s sid)).

Definition session_exists (s : State) (sid : N) : bool :=
  (0 <? sid) && (sid <=? sessionCount s) && isCreated (session_at s sid).

Ltac run_unfold :=
  cbv beta iota delta
    [mbind mret M_bind M_ret require throw gets modify sender timestamp emit
     upd_session checked_incr onlyOwner sessionExists isSessionActive
     sessionNotActive].

Ltac split_if :=
  match goal with
  | |- context [if ?b then _ else _] => destruct b eqn:?; cbv beta iota
  end.

(** The session record a successful [vote] leaves behind. *)
Definition vote_session (caller cid : N) (v : VotingSession) : VotingSession :=
  mkSession (sessionId v) (sessionName v) (startTime v) (endTime v)
    (isActive v) (isCreated v) (candidateCount v) (totalVotes v + 1)
    (<[cid := set_voteCount (voteCount (candidate_at v cid) + 1)
                (candidate_at v cid)]> (candidates v))
    (<[caller := true]> (hasVoted v))
    (<[caller := cid]> (voterChoice v)).

(** The guards shared by the three candidate-editing calls, in the order the
    modifiers run. *)
Definition edit_guard (env : Env) (s : State) (sid : N) : option Failure :=
  if negb (msg_sender env =? owner s) then Some OnlyOwner
  else if negb ((0 <? sid) && (sid <=? sessionCount s)) then
    Some SessionDoesNotExist
  else if negb (isCreated (session_at s sid)) then Some SessionNotFound
  else if session_active env s sid then Some CannotModifyActiveSession
  else None.

Definition nonempty (name : string) : bool :=
  0 <? N.of_nat (String.length name).

Definition add_candidate_session (name : string) (v : VotingSession)
  : VotingSession :=
  mkSession (sessionId v) (sessionName v) (startTime v) (endTime v)
    (isActive v) (isCreated v) (candidateCount v + 1) (totalVotes v)
    (<[candidateCount v + 1 :=
         mkCandidate (candidateCount v + 1) name 0 true]> (candidates v))
    (hasVoted v) (voterChoice v).

Definition add_candidate_state (sid : N) (name : string) (s : State) : State :=
  log_event (CandidateAdded sid (candidateCount (session_at s sid) + 1) name)
    (put_session sid (add_candidate_session name (session_at s sid)) s).

Definition rename_state (sid cid : N) (newName : string) (s : State)
  : State :=
  let v := session_at s sid in
  log_event (CandidateUpdated sid cid newName)
    (put_session sid
       (set_candidate cid (set_cand_name newName (candidate_at v cid)) v) s).

Definition deactivate_state (sid cid : N) (s : State) : State :=
  let v := session_at s sid in
  log_event (CandidateRemoved sid cid)
    (put_session sid
       (set_candidate cid (set_cand_isActive false (candidate_at v cid)) v) s).

Definition register_state (a : N) (s : State) : State :=
  log_event (VoterRegistered a) (put_registered a true s).

(** The state a batch registration ends in: entries already registered, or
    null, are skipped. *)
Fixpoint register_all (voters : list N) (s : State) : State :=
  match voters with
  | [] => s
  | a :: rest =>
      register_all rest
        (if negb (registered s a) && negb (a =? 0) then register_state a s
         else s)
  end.

(** A successful [add_candidates] is the iteration of single additions. *)
Definition add_names (sid : N) (names : list string) (s : State) : State :=
  foldl (λ s name, add_candidate_state sid name s) s names.

Definition create_base (name : string) (st et : N) (s : State) : State :=
  let n := sessionCount s + 1 in
  put_session n (init_session n name st et (session_at s n))
    (put_sessionCount n s).

(** ** Tally functions *)

(** Sum of the vote counts of the candidates [1 .. candidateCount], active
    or not. *)
Definition sum_over (f : N → N) (ids : list N) : N :=
  foldr (λ i acc, f i + acc) 0 ids.

Definition sum_votes (v : VotingSession) : N :=
  sum_over (λ i, voteCount (candidate_at v i)) (ids_upto (candidateCount v)).

(** Number of voters whose [hasVoted] entry is set. *)
Definition voters_count (v : VotingSession) : N :=
  N.of_nat (size (filter (λ p, p.2 = true) (hasVoted v))).

(** ** Invariant *)

Definition is_vote_of (sid a : N) (e : Event) : bool :=
  match e with
  | VoteCast sid' a' _ => (sid' =? sid) && (a' =? a)
  | _ => false
  end.

(** How many [VoteCast] events the log holds for a voter in a session. *)
Definition votes_logged (sid a : N) (evs : list Event) : nat :=
  length (List.filter (is_vote_of sid a) evs).

Record invariant (s : State) : Prop := {
  inv_fresh : ∀ sid, sessionCount s < sid → votingSessions s !! sid = None;
  inv_sum : ∀ sid,
    totalVotes (session_at s sid) = sum_votes (session_at s sid);
  inv_count : ∀ sid,
    totalVotes (session_at s sid) = voters_count (session_at s sid);
  inv_voter : ∀ sid a,
    voted (session_at s sid) a = true →
    session_exists s sid = true ∧ registered s a = true;
  inv_log : ∀ sid a,
    votes_logged sid a (events s)
    = if voted (session_at s sid) a then 1%nat else 0%nat
}.

(** ** The winner scan without its overflow checks *)

Definition votes_of (v : VotingSession) (i : N) : N :=
  voteCount (candidate_at v i).

(** The active candidates among the ids [l], in the order of [l]. *)
Definition active_ids (v : VotingSession) (l : list N) : list N :=
  filter (λ i, cand_isActive (candidate_at v i) = true) l.

Definition maxl (f : N → N) (a : list N) : N := foldr N.max 0 (f <$> a).

(** The largest vote count among the active candidates of [l]. *)
Definition max_votes (v : VotingSession) (l : list N) : N :=
  maxl (votes_of v) (active_ids v l).

(** The active candidates of [l] whose vote count is that maximum. *)
Definition leaders (v : VotingSession) (l : list N) : list N :=
  filter (λ i, votes_of v i = max_votes v l) (active_ids v l).

(** The scan of [getSessionWinner] without its overflow checks. *)
Definition scan_step (v : VotingSession) (acc : N * N * N) (i : N)
  : N * N * N :=
  let '(maxVotes, winnerId, tieCount) := acc in
  if cand_isActive (candidate_at v i) then
    if maxVotes <? votes_of v i then (votes_of v i, i, 1)
    else if (votes_of v i =? maxVotes) && (0 <? maxVotes) then
      (maxVotes, winnerId, tieCount + 1)
    else acc
  else acc.

Definition scan_result (v : VotingSession) (l : list N) : N * N * N :=
  if max_votes v l =? 0 then (0, 0, 0)
  else (max_votes v l, default 0 (head (leaders v l)),
        N.of_nat (length (leaders v l))).

(** What [getSessionWinner] answers for a session. *)
Definition winner_of (v : VotingSession) : string * N * bool :=
  if totalVotes v =? 0 then ("No votes cast"%string, 0, false)
  else
    let '(m, w, t) := scan_result v (ids_upto (candidateCount v)) in
    if 0 <? w then (cand_name (candidate_at v w), m, 1 <? t)
    else ("No winner"%string, 0, false).

(** ** Permanence *)

(** Vote records, existing sessions, deactivated candidates and
    registrations are permanent. *)
Record evolves (s s' : State) : Prop := {
  ev_voted : ∀ sid a,
    voted (session_at s sid) a = true →
    voted (session_at s' sid) a = true
    ∧ choice (session_at s' sid) a = choice (session_at s sid) a;
  ev_exists : ∀ sid,
    session_exists s sid = true →
    session_exists s' sid = true
    ∧ candidateCount (session_at s sid) ≤ candidateCount (session_at s' sid);
  ev_frozen : ∀ sid cid,
    session_exists s sid = true →
    cid ≤ candidateCount (session_at s sid) →
    cand_isActive (candidate_at (session_at s sid) cid) = false →
    candidate_at (session_at s' sid) cid
    = candidate_at (session_at s sid) cid;
  ev_registered : ∀ a, registered s a = true → registered s' a = true
}.

(** ** Example runs *)

(** The end-to-end run of the specification: the owner (address 1) creates
    "Election" with window [100, 3700], starts it at 100, voter 7 registers
    and votes for Bob (id 2). *)
Definition scenario : list (Env * Call) :=
  [ (mkEnv 1 10, CreateSession "Election" 100 3700 ["Alice"; "Bob"]);
    (mkEnv 1 100, StartSession 1);
    (mkEnv 7 120, RegisterSelf);
    (mkEnv 7 130, Vote 1 2) ].

Definition after_vote : State := run scenario (constructor 1).

(** A session created but never started. *)
Definition after_create : State := run (take 1 scenario) (constructor 1).

(** Voter 7 votes for Alice (id 1); the owner then ends the session and
    deactivates Alice. *)
Definition before_removal : State :=
  run [ (mkEnv 1 10, CreateSession "Election" 100 3700 ["Alice"; "Bob"]);
        (mkEnv 1 100, StartSession 1);
        (mkEnv 7 120, RegisterSelf);
        (mkEnv 7 130, Vote 1 1);
        (mkEnv 1 200, EndSession 1) ]
      (constructor 1).

Definition after_removal : State :=
  run [(mkEnv 1 210, RemoveCandidateFromSession 1 1)] before_removal.

(** The session is started at 100 and never ended; at 5000 its window
    [100, 3700] has lapsed while its active flag is still set. *)
Definition lapsed_env : Env := mkEnv 7 5000.

(** An unregistered caller (address 9) votes in the created, never
    started session. *)
Definition stranger_env : Env := mkEnv 9 50.

(** ** Candidate edits *)

(** The session a candidate-editing call is about. *)
Definition edit_target (c : Call) : option N :=
  match c with
  | AddCandidateToSession sid _ => Some sid
  | UpdateCandidate sid _ _ => Some sid
  | RemoveCandidateFromSession sid _ => Some sid
  | _ => None
  end.

(** While voter 7 is in the started session at time 150, address 7, which
    is not the owner, tries to add a candidate. *)
Definition intruder_env : Env := mkEnv 7 150.

(** After the removal of Alice at 210 the session, ended at 200, is not
    active; voter 8 registers and names Alice. *)
Definition late_voter : list (Env * Call) := [(mkEnv 8 220, RegisterSelf)].

(** ** The described winner *)

(** [w] is the lowest id among the active candidates that hold the maximum
    vote count of the active candidates. *)
Definition lowest_leader (v : VotingSession) (w : N) : Prop :=
  w ∈ leaders v (ids_upto (candidateCount v))
  ∧ ∀ j, j ∈ leaders v (ids_upto (candidateCount v)) → w ≤ j.

(** At least two active candidates share a positive maximum. *)
Definition tied (v : VotingSession) : bool :=
  bool_decide (0 < max_votes v (ids_upto (candidateCount v))
               ∧ (2 ≤ length (leaders v (ids_upto (candidateCount v))))%nat).

(** The answer described for a session with votes: the name of the lowest
    leader, the maximum, and the tie flag. *)
Definition named_winner (v : VotingSession) (r : string * N * bool) : Prop :=
  ∃ w, lowest_leader v w
       ∧ r = (cand_name (candidate_at v w),
              max_votes v (ids_upto (candidateCount v)), tied v).

(** ** Listing views *)

(** [x - 1] on a [uint256] under checked arithmetic. *)
Definition checked_decr (x : N) : M N :=
  if 0 <? x then mret (x - 1) else throw ArithmeticPanic.

(** [arr[i] = x] on a memory array of fixed length: an index out of range
    aborts the call with a panic. *)
Definition array_store {A} (arr : list A) (i : N) (x : A) : M (list A) :=
  if i <? N.of_nat (length arr) then mret (<[N.to_nat i := x]> arr)
  else throw ArithmeticPanic.

Definition getSession (sid : N) : M (string * N * N * bool * N * N) :=
  sessionExists sid;;
  v ← gets (λ s, session_at s sid);
  mret (sessionName v, startTime v, endTime v, isActive v,
        candidateCount v, totalVotes v).

Definition getSessionCandidates (sid : N) : M (list Candidate) :=
  sessionExists sid;;
  v ← gets (λ s, session_at s sid);
  activeCount ←
    for_1_to (candidateCount v)
      (λ i activeCount,
         if cand_isActive (candidate_at v i) then checked_incr activeCount
         else mret activeCount)
      0;
  r ← for_1_to (candidateCount v)
        (λ i (acc : list Candidate * N),
           if cand_isActive (candidate_at v i) then
             arr ← array_store acc.1 acc.2 (candidate_at v i);
             index ← checked_incr acc.2;
             mret (arr, index)
           else mret acc)
        (replicate (N.to_nat activeCount) zeroCandidate, 0);
  mret r.1.

Definition getAllActiveSessions : M (list N) :=
  n ← gets sessionCount;
  activeCount ←
    for_1_to n
      (λ i activeCount,
         b ← isSessionActive i;
         if (b : bool) then checked_incr activeCount else mret activeCount)
      0;
  r ← for_1_to n
        (λ i (acc : list N * N),
           b ← isSessionActive i;
           if (b : bool) then
             arr ← array_store acc.1 acc.2 i;
             index ← checked_incr acc.2;
             mret (arr, index)
           else mret acc)
        (replicate (N.to_nat activeCount) 0, 0);
  mret r.1.

Definition getAllSessions : M (list N) :=
  n ← gets sessionCount;
  for_1_to n
    (λ i allSessions, j ← checked_decr i; array_store allSessions j i)
    (replicate (N.to_nat n) 0).

(** The two passes of a filtered listing, without their checks: counting
    the ids that satisfy [P], then storing [g i] for each of them at the
    next free index. *)
Definition count_step (P : N → bool) (c : N) (i : N) : N :=
  if P i then c + 1 else c.

Definition fill_step {A} (P : N → bool) (g : N → A) (acc : list A * N)
    (i : N) : list A * N :=
  if P i then (<[N.to_nat acc.2 := g i]> acc.1, acc.2 + 1) else acc.

(** ** Well-formed sessions *)

Definition is_created_event (e : Event) : bool :=
  match e with
  | SessionCreated _ _ _ _ => true
  | _ => false
  end.

(** What [createSession] establishes for the session stored under [sid]
    and the later calls keep. *)
Definition session_wf (sid : N) (v : VotingSession) : Prop :=
  isCreated v = true ∧ sessionId v = sid ∧ startTime v < endTime v
  ∧ nonempty (sessionName v) = true ∧ 1 ≤ candidateCount v
  ∧ (∀ cid, 1 ≤ cid → cid ≤ candidateCount v →
       cand_id (candidate_at v cid) = cid
       ∧ nonempty (cand_name (candidate_at v cid)) = true)
  ∧ (∀ a, voted v a = true →
       1 ≤ choice v a ∧ choice v a ≤ candidateCount v).

Record wellformed (s : State) : Prop := {
  wf_sessions : ∀ sid,
    1 ≤ sid → sid ≤ sessionCount s → session_wf sid (session_at s sid);
  wf_owner : registered s (owner s) = true;
  wf_log :
    N.of_nat (length (List.filter is_created_event (events s)))
    = sessionCount s
}.

(** ** Calls reserved to the owner *)

(** The calls whose function carries the [onlyOwner] modifier. *)
Definition owner_call (c : Call) : bool :=
  match c with
  | RegisterSelf | Vote _ _ => false
  | _ => true
  end.

(** ** Execution with the working storage kept *)

(** The call monad [M] drops the storage of a call at its first failure.
    The monad [T] runs the same statements and keeps, beside the result, the
    working storage and log at the moment the call stopped: after a failed
    [require] or checked increment this is what the call had written so
    far.  The functions below are the mutating functions of the contract and
    their modifiers, statement by statement, in this monad. *)
Module Traced.

Definition T (A : Type) : Type := Env → State → result A * State.

#[global] Instance T_ret : MRet T := λ A a _ s, (Ok a, s).

#[global] Instance T_bind : MBind T := λ A B k m env s,
  match m env s with
  | (Ok a, s') => k a env s'
  | (Err f, s') => (Err f, s')
  end.

Definition throw {A} (f : Failure) : T A := λ _ s, (Err f, s).

Definition require (b : bool) (f : Failure) : T unit :=
  if b then mret tt else throw f.

Definition gets {A} (f : State → A) : T A := λ _ s, (Ok (f s), s).

Definition modify (f : State → State) : T unit := λ _ s, (Ok tt, f s).

Definition sender : T N := λ env s, (Ok (msg_sender env), s).

Definition timestamp : T N := λ env s, (Ok (block_timestamp env), s).

Definition emit (e : Event) : T unit := modify (log_event e).

Definition checked_incr (x : N) : T N :=
  if x <? max_uint256 then mret (x + 1) else throw ArithmeticPanic.

Definition upd_session (sid : N) (f : VotingSession → VotingSession)
  : T unit :=
  modify (λ s, put_session sid (f (session_at s sid)) s).

Definition onlyOwner : T unit :=
  caller ← sender;
  o ← gets owner;
  require (caller =? o) OnlyOwner.

Definition sessionExists (sid : N) : T unit :=
  n ← gets sessionCount;
  require ((0 <? sid) && (sid <=? n)) SessionDoesNotExist;;
  v ← gets (λ s, session_at s sid);
  require (isCreated v) SessionNotFound.

Definition isSessionActive (sid : N) : T bool :=
  n ← gets sessionCount;
  if (sid =? 0) || (n <? sid) then mret false else
  v ← gets (λ s, session_at s sid);
  if negb (isCreated v) || negb (isActive v) then mret false else
  now ← timestamp;
  mret ((startTime v <=? now) && (now <=? endTime v)).

Definition sessionNotActive (sid : N) : T unit :=
  act ← isSessionActive sid;
  require (negb act) CannotModifyActiveSession.

Definition addCandidateToSession (sid : N) (name : string) : T unit :=
  onlyOwner;; sessionExists sid;; sessionNotActive sid;;
  require (0 <? N.of_nat (String.length name)) EmptyCandidateName;;
  cc ← gets (λ s, candidateCount (session_at s sid));
  cc' ← checked_incr cc;
  upd_session sid (set_candidateCount cc');;
  upd_session sid (set_candidate cc' (mkCandidate cc' name 0 true));;
  emit (CandidateAdded sid cc' name).

Fixpoint add_candidates (sid : N) (names : list string) : T unit :=
  match names with
  | [] => mret tt
  | name :: rest => addCandidateToSession sid name;; add_candidates sid rest
  end.

Definition createSession (name : string) (st et : N) (names : list string)
  : T N :=
  onlyOwner;;
  require (st <? et) InvalidTimeRange;;
  require (0 <? N.of_nat (length names)) NoCandidates;;
  require (0 <? N.of_nat (String.length name)) EmptySessionName;;
  n ← gets sessionCount;
  n' ← checked_incr n;
  modify (put_sessionCount n');;
  upd_session n' (init_session n' name st et);;
  add_candidates n' names;;
  emit (SessionCreated n' name st et);;
  mret n'.

Definition updateCandidate (sid cid : N) (newName : string) : T unit :=
  onlyOwner;; sessionExists sid;; sessionNotActive sid;;
  require (0 <? N.of_nat (String.length newName)) EmptyCandidateName;;
  v ← gets (λ s, session_at s sid);
  require ((0 <? cid) && (cid <=? candidateCount v)) InvalidCandidateID;;
  require (cand_isActive (candidate_at v cid)) CandidateNotActive_update;;
  upd_session sid
    (λ v, set_candidate cid (set_cand_name newName (candidate_at v cid)) v);;
  emit (CandidateUpdated sid cid newName).

Definition removeCandidateFromSession (sid cid : N) : T unit :=
  onlyOwner;; sessionExists sid;; sessionNotActive sid;;
  v ← gets (λ s, session_at s sid);
  require ((0 <? cid) && (cid <=? candidateCount v)) InvalidCandidateID;;
  require (cand_isActive (candidate_at v cid)) CandidateAlreadyInactive;;
  upd_session sid
    (λ v, set_candidate cid (set_cand_isActive false (candidate_at v cid)) v);;
  emit (CandidateRemoved sid cid).

Definition startSession (sid : N) : T unit :=
  onlyOwner;; sessionExists sid;;
  v ← gets (λ s, session_at s sid);
  now ← timestamp;
  require (negb (isActive v)) SessionAlreadyActive;;
  require (startTime v <=? now) StartTimeNotReached;;
  require (now <? endTime v) EndTimePassed;;
  upd_session sid (set_isActive true);;
  emit (SessionStarted sid).

Definition endSession (sid : N) : T unit :=
  onlyOwner;; sessionExists sid;;
  v ← gets (λ s, session_at s sid);
  require (isActive v) SessionNotActive_end;;
  upd_session sid (set_isActive false);;
  emit (SessionEnded sid).

Definition registerVoter (a : N) : T unit :=
  onlyOwner;;
  require (negb (a =? 0)) InvalidVoterAddress;;
  r ← gets (λ s, registered s a);
  require (negb r) VoterAlreadyRegistered;;
  modify (put_registered a true);;
  emit (VoterRegistered a).

Fixpoint register_each (voters : list N) : T unit :=
  match voters with
  | [] => mret tt
  | a :: rest =>
      r ← gets (λ s, registered s a);
      (if negb r && negb (a =? 0)
       then modify (put_registered a true);; emit (VoterRegistered a)
       else mret tt);;
      register_each rest
  end.

Definition registerMultipleVoters (voters : list N) : T unit :=
  onlyOwner;; register_each voters.

Definition registerSelf : T unit :=
  caller ← sender;
  r ← gets (λ s, registered s caller);
  require (negb r) AlreadyRegistered;;
  modify (put_registered caller true);;
  emit (VoterRegistered caller).

Definition vote (sid cid : N) : T unit :=
  sessionExists sid;;
  caller ← sender;
  r ← gets (λ s, registered s caller);
  require r NotRegistered;;
  act ← isSessionActive sid;
  require act SessionNotActive_vote;;
  v ← gets (λ s, session_at s sid);
  require (negb (voted v caller)) AlreadyVoted;;
  require ((0 <? cid) && (cid <=? candidateCount v)) InvalidCandidate;;
  require (cand_isActive (candidate_at v cid)) CandidateNotActive_vote;;
  upd_session sid (set_hasVoted caller true);;
  upd_session sid (set_voterChoice caller cid);;
  vc ← gets (λ s, voteCount (candidate_at (session_at s sid) cid));
  vc' ← checked_incr vc;
  upd_session sid
    (λ v, set_candidate cid (set_voteCount vc' (candidate_at v cid)) v);;
  tv ← gets (λ s, totalVotes (session_at s sid));
  tv' ← checked_incr tv;
  upd_session sid (set_totalVotes tv');;
  emit (VoteCast sid caller cid).

Definition dispatch (c : Call) : T unit :=
  match c with
  | CreateSession name st et names => createSession name st et names;; mret tt
  | AddCandidateToSession sid name => addCandidateToSession sid name
  | UpdateCandidate sid cid newName => updateCandidate sid cid newName
  | RemoveCandidateFromSession sid cid => removeCandidateFromSession sid cid
  | StartSession sid => startSession sid
  | EndSession sid => endSession sid
  | RegisterVoter a => registerVoter a
  | RegisterMultipleVoters voters => registerMultipleVoters voters
  | RegisterSelf => registerSelf
  | Vote sid cid => vote sid cid
  end.

(** A transaction commits the working storage of a call that returns; the
    working storage of a call that fails is discarded by the revert, and
    the storage is the one the call started from. *)
Definition transact (env : Env) (c : Call) (s : State) : State :=
  match dispatch c env s with
  | (Ok _, w) => w
  | (Err _, _) => s
  end.

End Traced.

(** Forgetting the working storage of a failed call. *)
Definition erase {A} (t : Traced.T A) : M A := λ env s,
  match t env s with
  | (Ok a, w) => Ok (a, w)
  | (Err f, _) => Err f
  end.

Definition agrees {A} (t : Traced.T A) (m : M A) : Prop :=
  ∀ env s, erase t env s = m env s.

(** The failures a call can raise after it has written to storage: an empty
    candidate name or a counter overflow inside the loop of [createSession],
    and an overflow of a vote counter in [vote].  Every other failure is
    raised before the first write of its call. *)
Definition fails_after_write (c : Call) (f : Failure) : bool :=
  match c, f with
  | CreateSession _ _ _ _, EmptyCandidateName
  | CreateSession _ _ _ _, ArithmeticPanic
  | Vote _ _, ArithmeticPanic => true
  | _, _ => false
  end.

(** The events logged for the candidates [names] of a session that had [cc]
    candidates. *)
Definition added_events (sid cc : N) (names : list string) : list Event :=
  imap (λ i name, CandidateAdded sid (cc + N.of_nat i + 1) name) names.

Ltac traced_unfold :=
  cbv beta iota delta
    [mbind mret Traced.T_bind Traced.T_ret Traced.require Traced.throw
     Traced.gets Traced.modify Traced.sender Traced.timestamp Traced.emit
     Traced.upd_session Traced.checked_incr Traced.onlyOwner
     Traced.sessionExists Traced.isSessionActive Traced.sessionNotActive].

(** Both executions of a loop-free function, case by case. *)
Ltac agree_cases :=
  intros ? ?; unfold erase; traced_unfold; run_unfold;
  repeat split_if; done.

(** A failing run of a loop-free function, case by case. *)
Ltac traced_cases :=
  traced_unfold;
  repeat (match goal with
          | |- context [if ?b then _ else _] => destruct b
          end; cbv beta iota);
  try discriminate;
  try (intros [= <- <-]; intros; first [done | congruence]).

(** * Properties *)

(** ** Closed forms of the calls *)

Lemma session_at_put s sid v : session_at (put_session sid v s) sid = v.
Proof. unfold session_at, put_session; simpl. by rewrite lookup_insert_eq. Qed.

Lemma session_at_put_ne s sid sid' v :
  sid ≠ sid' → session_at (put_session sid v s) sid' = session_at s sid'.
Proof.
  intros Hne. unfold session_at, put_session; simpl.
  by rewrite lookup_insert_ne.
Qed.

Lemma put_put s sid v w :
  put_session sid w (put_session sid v s) = put_session sid w s.
Proof. unfold put_session; simpl. by rewrite insert_insert_eq. Qed.

(** Reading a candidate is not affected by the vote-record assignments. *)
Lemma candidate_at_frame a b c v cid :
  candidate_at (set_voterChoice a c (set_hasVoted a b v)) cid
  = candidate_at v cid.
Proof. done. Qed.

Lemma isSessionActive_run sid env s :
  isSessionActive sid env s = Ok (session_active env s sid, s).
Proof.
  unfold session_active. run_unfold.
  destruct (sid =? 0) eqn:E0; simpl; [done|].
  rewrite N.ltb_antisym.
  destruct (sid <=? sessionCount s) eqn:E1; simpl; [|done].
  destruct (isCreated (session_at s sid)); simpl; [|done].
  destruct (isActive (session_at s sid)); simpl; done.
Qed.

Lemma sessionExists_run sid env s :
  sessionExists sid env s =
    if (0 <? sid) && (sid <=? sessionCount s) then
      if isCreated (session_at s sid) then Ok (tt, s) else Err SessionNotFound
    else Err SessionDoesNotExist.
Proof. run_unfold. repeat split_if; done. Qed.

Lemma onlyOwner_run env s :
  onlyOwner env s =
    if msg_sender env =? owner s then Ok (tt, s) else Err OnlyOwner.
Proof. run_unfold. repeat split_if; done. Qed.

Lemma vote_run sid cid env s :
  vote sid cid env s =
    let v := session_at s sid in
    let caller := msg_sender env in
    if negb ((0 <? sid) && (sid <=? sessionCount s)) then
      Err SessionDoesNotExist
    else if negb (isCreated v) then Err SessionNotFound
    else if negb (registered s caller) then Err NotRegistered
    else if negb (session_active env s sid) then Err SessionNotActive_vote
    else if voted v caller then Err AlreadyVoted
    else if negb ((0 <? cid) && (cid <=? candidateCount v)) then
      Err InvalidCandidate
    else if negb (cand_isActive (candidate_at v cid)) then
      Err CandidateNotActive_vote
    else if negb (voteCount (candidate_at v cid) <? max_uint256) then
      Err ArithmeticPanic
    else if negb (totalVotes v <? max_uint256) then Err ArithmeticPanic
    else
      Ok (tt, log_event (VoteCast sid caller cid)
                (put_session sid (vote_session caller cid v) s)).
Proof.
  unfold vote.
  cbv beta iota delta [mbind M_bind]. rewrite sessionExists_run.
  destruct ((0 <? sid) && (sid <=? sessionCount s)); simpl; [|done].
  destruct (isCreated (session_at s sid)); simpl; [|done].
  destruct (registered s (msg_sender env)); simpl; [|done].
  rewrite isSessionActive_run.
  destruct (session_active env s sid); simpl; [|done].
  destruct (voted (session_at s sid) (msg_sender env)); simpl; [done|].
  destruct ((0 <? cid) && (cid <=? candidateCount (session_at s sid)));
    simpl; [|done].
  destruct (cand_isActive (candidate_at (session_at s sid) cid));
    simpl; [|done].
  rewrite !session_at_put, !put_put, !candidate_at_frame.
  unfold checked_incr at 1.
  destruct (voteCount (candidate_at (session_at s sid) cid) <? max_uint256);
    simpl; [|done].
  rewrite !session_at_put, !put_put. unfold checked_incr. simpl.
  destruct (totalVotes (session_at s sid) <? max_uint256); simpl; [|done].
  by rewrite !session_at_put, !put_put.
Qed.

Lemma edit_guard_run {A} sid (k : M A) env s :
  (onlyOwner;; sessionExists sid;; sessionNotActive sid;; k) env s =
    match edit_guard env s sid with
    | Some f => Err f
    | None => k env s
    end.
Proof.
  unfold edit_guard, sessionNotActive.
  cbv beta iota delta [mbind M_bind]. rewrite onlyOwner_run.
  destruct (msg_sender env =? owner s); simpl; [|done].
  rewrite sessionExists_run.
  destruct ((0 <? sid) && (sid <=? sessionCount s)); simpl; [|done].
  destruct (isCreated (session_at s sid)); simpl; [|done].
  rewrite isSessionActive_run.
  destruct (session_active env s sid); simpl; done.
Qed.

Lemma addCandidateToSession_run sid name env s :
  addCandidateToSession sid name env s =
    match edit_guard env s sid with
    | Some f => Err f
    | None =>
        if negb (nonempty name) then Err EmptyCandidateName
        else if negb (candidateCount (session_at s sid) <? max_uint256) then
          Err ArithmeticPanic
        else Ok (tt, add_candidate_state sid name s)
    end.
Proof.
  unfold addCandidateToSession. rewrite edit_guard_run.
  destruct (edit_guard env s sid); [done|].
  unfold nonempty. run_unfold.
  destruct (0 <? N.of_nat (String.length name)); simpl; [|done].
  destruct (candidateCount (session_at s sid) <? max_uint256); simpl; [|done].
  by rewrite !session_at_put, !put_put.
Qed.

Lemma updateCandidate_run sid cid newName env s :
  updateCandidate sid cid newName env s =
    let v := session_at s sid in
    match edit_guard env s sid with
    | Some f => Err f
    | None =>
        if negb (nonempty newName) then Err EmptyCandidateName
        else if negb ((0 <? cid) && (cid <=? candidateCount v)) then
          Err InvalidCandidateID
        else if negb (cand_isActive (candidate_at v cid)) then
          Err CandidateNotActive_update
        else Ok (tt, rename_state sid cid newName s)
    end.
Proof.
  unfold updateCandidate. rewrite edit_guard_run.
  destruct (edit_guard env s sid); [done|].
  unfold nonempty. run_unfold.
  destruct (0 <? N.of_nat (String.length newName)); simpl; [|done].
  destruct ((0 <? cid) && (cid <=? candidateCount (session_at s sid)));
    simpl; [|done].
  destruct (cand_isActive (candidate_at (session_at s sid) cid)); simpl; done.
Qed.

Lemma removeCandidateFromSession_run sid cid env s :
  removeCandidateFromSession sid cid env s =
    let v := session_at s sid in
    match edit_guard env s sid with
    | Some f => Err f
    | None =>
        if negb ((0 <? cid) && (cid <=? candidateCount v)) then
          Err InvalidCandidateID
        else if negb (cand_isActive (candidate_at v cid)) then
          Err CandidateAlreadyInactive
        else Ok (tt, deactivate_state sid cid s)
    end.
Proof.
  unfold removeCandidateFromSession. rewrite edit_guard_run.
  destruct (edit_guard env s sid); [done|].
  run_unfold.
  destruct ((0 <? cid) && (cid <=? candidateCount (session_at s sid)));
    simpl; [|done].
  destruct (cand_isActive (candidate_at (session_at s sid) cid)); simpl; done.
Qed.

Lemma startSession_run sid env s :
  startSession sid env s =
    let v := session_at s sid in
    let now := block_timestamp env in
    if negb (msg_sender env =? owner s) then Err OnlyOwner
    else if negb ((0 <? sid) && (sid <=? sessionCount s)) then
      Err SessionDoesNotExist
    else if negb (isCreated v) then Err SessionNotFound
    else if isActive v then Err SessionAlreadyActive
    else if negb (startTime v <=? now) then Err StartTimeNotReached
    else if negb (now <? endTime v) then Err EndTimePassed
    else Ok (tt, log_event (SessionStarted sid)
                   (put_session sid (set_isActive true v) s)).
Proof.
  unfold startSession.
  cbv beta iota delta [mbind M_bind]. rewrite onlyOwner_run.
  destruct (msg_sender env =? owner s); simpl; [|done].
  rewrite sessionExists_run.
  destruct ((0 <? sid) && (sid <=? sessionCount s)); simpl; [|done].
  destruct (isCreated (session_at s sid)); simpl; [|done].
  destruct (isActive (session_at s sid)); simpl; [done|].
  destruct (startTime (session_at s sid) <=? block_timestamp env);
    simpl; [|done].
  destruct (block_timestamp env <? endTime (session_at s sid)); simpl; done.
Qed.

Lemma endSession_run sid env s :
  endSession sid env s =
    let v := session_at s sid in
    if negb (msg_sender env =? owner s) then Err OnlyOwner
    else if negb ((0 <? sid) && (sid <=? sessionCount s)) then
      Err SessionDoesNotExist
    else if negb (isCreated v) then Err SessionNotFound
    else if negb (isActive v) then Err SessionNotActive_end
    else Ok (tt, log_event (SessionEnded sid)
                   (put_session sid (set_isActive false v) s)).
Proof.
  unfold endSession.
  cbv beta iota delta [mbind M_bind]. rewrite onlyOwner_run.
  destruct (msg_sender env =? owner s); simpl; [|done].
  rewrite sessionExists_run.
  destruct ((0 <? sid) && (sid <=? sessionCount s)); simpl; [|done].
  destruct (isCreated (session_at s sid)); simpl; [|done].
  destruct (isActive (session_at s sid)); simpl; done.
Qed.

Lemma registerVoter_run a env s :
  registerVoter a env s =
    if negb (msg_sender env =? owner s) then Err OnlyOwner
    else if a =? 0 then Err InvalidVoterAddress
    else if registered s a then Err VoterAlreadyRegistered
    else Ok (tt, register_state a s).
Proof.
  unfold registerVoter.
  cbv beta iota delta [mbind M_bind]. rewrite onlyOwner_run.
  destruct (msg_sender env =? owner s); simpl; [|done].
  destruct (a =? 0); simpl; [done|].
  destruct (registered s a); simpl; done.
Qed.

Lemma registerSelf_run env s :
  registerSelf env s =
    if registered s (msg_sender env) then Err AlreadyRegistered
    else Ok (tt, register_state (msg_sender env) s).
Proof.
  unfold registerSelf. run_unfold.
  destruct (registered s (msg_sender env)); simpl; done.
Qed.

Lemma register_each_run voters env s :
  register_each voters env s = Ok (tt, register_all voters s).
Proof.
  revert s. induction voters as [|a rest IH]; intros s; [done|].
  simpl. run_unfold.
  destruct (negb (registered s a) && negb (a =? 0)); simpl; apply IH.
Qed.

Lemma registerMultipleVoters_run voters env s :
  registerMultipleVoters voters env s =
    if negb (msg_sender env =? owner s) then Err OnlyOwner
    else Ok (tt, register_all voters s).
Proof.
  unfold registerMultipleVoters.
  cbv beta iota delta [mbind M_bind]. rewrite onlyOwner_run.
  destruct (msg_sender env =? owner s); simpl; [|done].
  apply register_each_run.
Qed.

Lemma add_candidates_Ok sid names env s u s' :
  add_candidates sid names env s = Ok (u, s') →
  forallb nonempty names = true ∧ s' = add_names sid names s.
Proof.
  revert s. induction names as [|name rest IH]; intros s; simpl.
  - intros [= <- <-]. done.
  - cbv beta iota delta [mbind M_bind].
    rewrite addCandidateToSession_run.
    destruct (edit_guard env s sid); [done|].
    destruct (nonempty name); simpl; [|done].
    destruct (candidateCount (session_at s sid) <? max_uint256);
      simpl; [|done].
    apply IH.
Qed.

Lemma createSession_run name st et names env s :
  createSession name st et names env s =
    if negb (msg_sender env =? owner s) then Err OnlyOwner
    else if negb (st <? et) then Err InvalidTimeRange
    else if negb (0 <? N.of_nat (length names)) then Err NoCandidates
    else if negb (nonempty name) then Err EmptySessionName
    else if negb (sessionCount s <? max_uint256) then Err ArithmeticPanic
    else
      match add_candidates (sessionCount s + 1) names env
              (create_base name st et s) with
      | Ok (_, s2) =>
          Ok (sessionCount s + 1,
              log_event (SessionCreated (sessionCount s + 1) name st et) s2)
      | Err f => Err f
      end.
Proof.
  unfold createSession, nonempty.
  cbv beta iota delta [mbind M_bind]. rewrite onlyOwner_run.
  destruct (msg_sender env =? owner s); simpl; [|done].
  destruct (st <? et); simpl; [|done].
  destruct (0 <? N.of_nat (length names)); simpl; [|done].
  destruct (0 <? N.of_nat (String.length name)); simpl; [|done].
  unfold checked_incr.
  destruct (sessionCount s <? max_uint256); simpl; [|done].
  run_unfold. fold (create_base name st et s).
  change (put_session (sessionCount s + 1)
            (init_session (sessionCount s + 1) name st et
               (session_at (put_sessionCount (sessionCount s + 1) s)
                  (sessionCount s + 1)))
            (put_sessionCount (sessionCount s + 1) s))
    with (create_base name st et s).
  destruct (add_candidates _ _ _ _) as [[[] s2]|f]; done.
Qed.

(** ** Tallies *)

Lemma ids_upto_succ n : ids_upto (n + 1) = ids_upto n ++ [n + 1].
Proof.
  unfold ids_upto.
  replace (N.to_nat (n + 1)) with (S (N.to_nat n)) by lia.
  rewrite seq_S, fmap_app. simpl. do 3 f_equal. lia.
Qed.

Lemma elem_of_ids_upto i n : i ∈ ids_upto n ↔ 1 ≤ i ∧ i ≤ n.
Proof.
  unfold ids_upto. rewrite list_elem_of_fmap. split.
  - intros (k & -> & Hk). apply elem_of_seq in Hk. lia.
  - intros [H1 H2]. exists (N.to_nat i). split; [lia|].
    apply elem_of_seq. lia.
Qed.

Lemma NoDup_ids_upto n : NoDup (ids_upto n).
Proof.
  unfold ids_upto. apply NoDup_fmap_2; [|apply NoDup_seq].
  intros x y H. lia.
Qed.

Lemma sum_over_app f l1 l2 :
  sum_over f (l1 ++ l2) = sum_over f l1 + sum_over f l2.
Proof.
  unfold sum_over. induction l1 as [|i l1 IH]; simpl; [done|].
  rewrite IH. lia.
Qed.

Lemma sum_over_ext f g l :
  (∀ i, i ∈ l → f i = g i) → sum_over f l = sum_over g l.
Proof.
  unfold sum_over. induction l as [|i l IH]; simpl; intros H; [done|].
  rewrite H by left. rewrite IH; [done|].
  intros k Hk. apply H. by right.
Qed.

Lemma sum_over_bump f g l cid :
  NoDup l → cid ∈ l → g cid = f cid + 1 →
  (∀ i, i ≠ cid → g i = f i) →
  sum_over g l = sum_over f l + 1.
Proof.
  intros Hnd Hin Hc Hother.
  induction l as [|i l IH]; [by apply elem_of_nil in Hin|].
  apply NoDup_cons in Hnd as [Hi Hnd].
  change (g i + sum_over g l = f i + sum_over f l + 1).
  destruct (decide (i = cid)) as [->|Hne].
  - rewrite Hc. rewrite (sum_over_ext g f l); [lia|].
    intros k Hk. apply Hother. intros ->. done.
  - apply elem_of_cons in Hin as [->|Hin]; [done|].
    rewrite Hother by done. rewrite IH by done. lia.
Qed.

(** ** The ledger invariant *)

Lemma votes_logged_snoc sid a evs e :
  votes_logged sid a (evs ++ [e])
  = (votes_logged sid a evs + if is_vote_of sid a e then 1 else 0)%nat.
Proof.
  unfold votes_logged. rewrite List.filter_app, length_app. simpl.
  by destruct (is_vote_of sid a e).
Qed.

Lemma session_exists_put s sid v' sid' :
  0 < sid → sid ≤ sessionCount s → isCreated v' = true →
  session_exists s sid' = true →
  session_exists (put_session sid v' s) sid' = true.
Proof.
  intros Hpos Hle Hcr. unfold session_exists.
  destruct (decide (sid = sid')) as [<-|Hne].
  - rewrite session_at_put. simpl. rewrite Hcr.
    intros _. rewrite !andb_true_r. apply andb_true_iff.
    split; [by apply N.ltb_lt | by apply N.leb_le].
  - by rewrite session_at_put_ne.
Qed.

Lemma inv_log_event s e :
  (∀ sid a, is_vote_of sid a e = false) →
  invariant s → invariant (log_event e s).
Proof.
  intros He [H1 H2 H3 H4 H5]. split; try done.
  intros sid a. simpl. rewrite votes_logged_snoc, He, Nat.add_0_r.
  apply H5.
Qed.

Lemma inv_put s sid v' :
  invariant s → 0 < sid → sid ≤ sessionCount s → isCreated v' = true →
  totalVotes v' = sum_votes v' → totalVotes v' = voters_count v' →
  (∀ a, voted v' a = voted (session_at s sid) a) →
  invariant (put_session sid v' s).
Proof.
  intros [H1 H2 H3 H4 H5] Hpos Hle Hcr Hsum Hcnt Hvoted. split.
  - intros sid' Hlt. simpl in *. rewrite lookup_insert_ne by lia. by apply H1.
  - intros sid'. destruct (decide (sid = sid')) as [<-|Hne].
    + by rewrite session_at_put.
    + by rewrite session_at_put_ne.
  - intros sid'. destruct (decide (sid = sid')) as [<-|Hne].
    + by rewrite session_at_put.
    + by rewrite session_at_put_ne.
  - intros sid' a. destruct (decide (sid = sid')) as [<-|Hne].
    + rewrite session_at_put, Hvoted. intros Hv.
      destruct (H4 _ _ Hv) as [_ Hr]. split; [|done].
      unfold session_exists. rewrite session_at_put, Hcr, andb_true_r.
      apply andb_true_iff. split; [by apply N.ltb_lt | by apply N.leb_le].
    + rewrite session_at_put_ne by done. intros Hv.
      destruct (H4 _ _ Hv) as [He Hr]. split; [|done].
      by apply session_exists_put.
  - intros sid' a. simpl. destruct (decide (sid = sid')) as [<-|Hne].
    + rewrite session_at_put, Hvoted. apply H5.
    + rewrite session_at_put_ne by done. apply H5.
Qed.

Lemma session_exists_range s sid :
  session_exists s sid = true →
  0 < sid ∧ sid ≤ sessionCount s ∧ isCreated (session_at s sid) = true.
Proof.
  unfold session_exists. rewrite !andb_true_iff, N.ltb_lt, N.leb_le. tauto.
Qed.

Lemma inv_register s a : invariant s → invariant (register_state a s).
Proof.
  intros [H1 H2 H3 H4 H5]. apply inv_log_event; [done|].
  split; try done.
  intros sid b Hv. destruct (H4 _ _ Hv) as [He Hr]. split; [done|].
  unfold registered, put_registered in *. simpl.
  destruct (decide (a = b)) as [<-|Hne].
  - by rewrite lookup_insert_eq.
  - by rewrite lookup_insert_ne.
Qed.

Lemma inv_register_all voters s :
  invariant s → invariant (register_all voters s).
Proof.
  revert s. induction voters as [|a rest IH]; intros s Hs; [done|].
  simpl. apply IH.
  destruct (negb (registered s a) && negb (a =? 0)); [|done].
  by apply inv_register.
Qed.

Lemma candidate_at_set_eq cid c v :
  candidate_at (set_candidate cid c v) cid = c.
Proof. unfold candidate_at; simpl. by rewrite lookup_insert_eq. Qed.

Lemma candidate_at_set_ne cid c v i :
  i ≠ cid → candidate_at (set_candidate cid c v) i = candidate_at v i.
Proof. intros H. unfold candidate_at; simpl. by rewrite lookup_insert_ne. Qed.

Lemma sum_votes_set_candidate cid c v :
  voteCount c = voteCount (candidate_at v cid) →
  sum_votes (set_candidate cid c v) = sum_votes v.
Proof.
  intros Hc. unfold sum_votes. simpl. apply sum_over_ext. intros i _.
  destruct (decide (i = cid)) as [->|Hne].
  - by rewrite candidate_at_set_eq.
  - by rewrite candidate_at_set_ne.
Qed.

Lemma sum_votes_add_candidate name v :
  sum_votes (add_candidate_session name v) = sum_votes v.
Proof.
  unfold sum_votes. simpl. rewrite ids_upto_succ, sum_over_app.
  unfold sum_over at 2. simpl. unfold candidate_at at 2. simpl.
  rewrite lookup_insert_eq. simpl. rewrite !N.add_0_r.
  apply sum_over_ext. intros i Hi. apply elem_of_ids_upto in Hi.
  unfold candidate_at. simpl. rewrite lookup_insert_ne by lia. done.
Qed.

Lemma sum_votes_vote caller cid v :
  1 ≤ cid → cid ≤ candidateCount v →
  sum_votes (vote_session caller cid v) = sum_votes v + 1.
Proof.
  intros H1 H2. unfold sum_votes. simpl.
  apply sum_over_bump with (cid := cid).
  - apply NoDup_ids_upto.
  - by apply elem_of_ids_upto.
  - unfold candidate_at at 1. simpl. by rewrite lookup_insert_eq.
  - intros i Hi. unfold candidate_at. simpl. by rewrite lookup_insert_ne.
Qed.

Lemma voters_count_vote caller cid v :
  voted v caller = false →
  voters_count (vote_session caller cid v) = voters_count v + 1.
Proof.
  intros Hv. unfold voters_count. simpl.
  rewrite map_filter_insert_True by done.
  rewrite map_size_insert_None; [lia|].
  apply map_lookup_filter_None. right. intros b Hb. simpl. intros ->.
  unfold voted in Hv. by rewrite Hb in Hv.
Qed.

Lemma voted_vote caller cid v a :
  voted (vote_session caller cid v) a
  = if decide (a = caller) then true else voted v a.
Proof.
  unfold voted. simpl. case_decide as Ha.
  - subst. by rewrite lookup_insert_eq.
  - by rewrite lookup_insert_ne.
Qed.

Lemma inv_vote s sid cid caller :
  invariant s → session_exists s sid = true → registered s caller = true →
  voted (session_at s sid) caller = false →
  1 ≤ cid → cid ≤ candidateCount (session_at s sid) →
  invariant (log_event (VoteCast sid caller cid)
               (put_session sid
                  (vote_session caller cid (session_at s sid)) s)).
Proof.
  intros [H1 H2 H3 H4 H5] He Hr Hv Hc1 Hc2.
  destruct (session_exists_range _ _ He) as (Hpos & Hle & Hcr).
  split.
  - intros sid' Hlt. simpl in *. rewrite lookup_insert_ne by lia. by apply H1.
  - intros sid'. change (session_at (log_event ?e ?t) sid')
      with (session_at t sid').
    destruct (decide (sid = sid')) as [<-|Hne].
    + rewrite session_at_put, sum_votes_vote by done.
      simpl. by rewrite H2.
    + by rewrite session_at_put_ne.
  - intros sid'. change (session_at (log_event ?e ?t) sid')
      with (session_at t sid').
    destruct (decide (sid = sid')) as [<-|Hne].
    + rewrite session_at_put, voters_count_vote by done.
      simpl. by rewrite H3.
    + by rewrite session_at_put_ne.
  - intros sid' a. change (session_at (log_event ?e ?t) sid')
      with (session_at t sid').
    change (registered (log_event ?e (put_session ?i ?w ?t)) a)
      with (registered t a).
    change (session_exists (log_event ?e ?t) sid')
      with (session_exists t sid').
    destruct (decide (sid = sid')) as [<-|Hne].
    + rewrite session_at_put, voted_vote. intros Hva. split.
      * by apply session_exists_put.
      * case_decide; [by subst | by apply (H4 sid)].
    + rewrite session_at_put_ne by done. intros Hva.
      destruct (H4 _ _ Hva). split; [|done]. by apply session_exists_put.
  - intros sid' a. change (session_at (log_event ?e ?t) sid')
      with (session_at t sid').
    simpl. rewrite votes_logged_snoc, H5. simpl.
    destruct (decide (sid = sid')) as [<-|Hne].
    + rewrite session_at_put, voted_vote, N.eqb_refl. simpl.
      case_decide as Ha.
      * subst. by rewrite N.eqb_refl, Hv.
      * replace (caller =? a) with false
          by (symmetry; apply N.eqb_neq; congruence).
        lia.
    + rewrite session_at_put_ne by done.
      replace (sid =? sid') with false by (symmetry; by apply N.eqb_neq).
      simpl. lia.
Qed.

Lemma inv_add_candidate s sid name :
  invariant s → session_exists s sid = true →
  invariant (add_candidate_state sid name s).
Proof.
  intros Hs He. destruct (session_exists_range _ _ He) as (Hpos & Hle & Hcr).
  apply inv_log_event; [done|]. apply inv_put; try done.
  - rewrite sum_votes_add_candidate. simpl. apply Hs.
  - change (voters_count (add_candidate_session name ?v))
      with (voters_count v). simpl. apply Hs.
Qed.

Lemma session_exists_add_candidate s sid name sid' :
  session_exists s sid = true → session_exists s sid' = true →
  session_exists (add_candidate_state sid name s) sid' = true.
Proof.
  intros He He'. destruct (session_exists_range _ _ He) as (Hpos & Hle & Hcr).
  change (session_exists (log_event ?e ?t) sid')
    with (session_exists t sid').
  by apply session_exists_put.
Qed.

Lemma inv_add_names names s sid :
  invariant s → session_exists s sid = true →
  invariant (add_names sid names s).
Proof.
  revert s. induction names as [|name rest IH]; intros s Hs He; [done|].
  simpl. apply IH.
  - by apply inv_add_candidate.
  - by apply session_exists_add_candidate.
Qed.

Lemma session_at_fresh s sid :
  invariant s → sessionCount s < sid → session_at s sid = zeroSession.
Proof. intros Hs Hlt. unfold session_at. by rewrite (inv_fresh s Hs). Qed.

Lemma inv_create_base name st et s :
  invariant s → invariant (create_base name st et s).
Proof.
  intros Hs. unfold create_base.
  assert (Hz : session_at s (sessionCount s + 1) = zeroSession)
    by (apply session_at_fresh; [done | lia]).
  rewrite Hz. apply inv_put; simpl; try done; try lia.
  - destruct Hs as [H1 H2 H3 H4 H5]. split; try done.
    + intros sid Hsid. simpl in *. apply H1. lia.
    + intros sid a Hv. destruct (H4 _ _ Hv) as [He Hr]. split; [|done].
      destruct (session_exists_range _ _ He) as (Hp & Hl & Hc).
      unfold session_exists in *. simpl.
      change (session_at (put_sessionCount ?n s) sid) with (session_at s sid).
      rewrite Hc, andb_true_r. apply andb_true_iff.
      split; [by apply N.ltb_lt | apply N.leb_le; lia].
  - intros a. change (session_at (put_sessionCount ?n s) ?i)
      with (session_at s i). by rewrite Hz.
Qed.

Lemma session_exists_create_base name st et s :
  session_exists (create_base name st et s) (sessionCount s + 1) = true.
Proof.
  unfold create_base, session_exists. rewrite session_at_put. simpl.
  rewrite andb_true_r. apply andb_true_iff.
  split; [apply N.ltb_lt | apply N.leb_le]; lia.
Qed.

Lemma edit_guard_None env s sid :
  edit_guard env s sid = None →
  msg_sender env = owner s ∧ session_exists s sid = true
  ∧ session_active env s sid = false.
Proof.
  unfold edit_guard, session_exists.
  destruct (msg_sender env =? owner s) eqn:Ho; simpl; [|done].
  destruct ((0 <? sid) && (sid <=? sessionCount s)); simpl; [|done].
  destruct (isCreated (session_at s sid)); simpl; [|done].
  destruct (session_active env s sid); [done|].
  intros _. by apply N.eqb_eq in Ho.
Qed.

Lemma inv_constructor deployer : invariant (constructor deployer).
Proof. split; done. Qed.

Lemma inv_transact env c s : invariant s → invariant (transact env c s).
Proof.
  intros Hs. unfold transact.
  destruct c as [name st et names|sid name|sid cid newName|sid cid|sid|sid
                |a|voters| |sid cid]; simpl.
  - cbv beta iota delta [mbind M_bind]. rewrite createSession_run.
    repeat (split_if; simpl; try done).
    destruct (add_candidates _ _ _ _) as [[[] s2]|f] eqn:Hadd; simpl; [|done].
    apply add_candidates_Ok in Hadd as [_ ->].
    apply inv_log_event; [done|]. apply inv_add_names.
    + by apply inv_create_base.
    + apply session_exists_create_base.
  - rewrite addCandidateToSession_run.
    destruct (edit_guard env s sid) eqn:Hg; [done|].
    apply edit_guard_None in Hg as (_ & He & _).
    repeat (split_if; simpl; try done). by apply inv_add_candidate.
  - rewrite updateCandidate_run. cbv zeta.
    destruct (edit_guard env s sid) eqn:Hg; [done|].
    apply edit_guard_None in Hg as (_ & He & _).
    destruct (session_exists_range _ _ He) as (Hpos & Hle & Hcr).
    repeat (split_if; simpl; try done).
    apply inv_log_event; [done|]. apply inv_put; try done.
    + rewrite sum_votes_set_candidate by done. apply Hs.
    + apply (inv_count s Hs sid).
  - rewrite removeCandidateFromSession_run. cbv zeta.
    destruct (edit_guard env s sid) eqn:Hg; [done|].
    apply edit_guard_None in Hg as (_ & He & _).
    destruct (session_exists_range _ _ He) as (Hpos & Hle & Hcr).
    repeat (split_if; simpl; try done).
    apply inv_log_event; [done|]. apply inv_put; try done.
    + rewrite sum_votes_set_candidate by done. apply Hs.
    + apply (inv_count s Hs sid).
  - rewrite startSession_run. cbv zeta.
    destruct (msg_sender env =? owner s); simpl; [|done].
    destruct ((0 <? sid) && (sid <=? sessionCount s)) eqn:Hr; simpl; [|done].
    destruct (isCreated (session_at s sid)) eqn:Hcr; simpl; [|done].
    apply andb_true_iff in Hr as [Hpos%N.ltb_lt Hle%N.leb_le].
    repeat (split_if; simpl; try done).
    apply inv_log_event; [done|]. apply inv_put; try done.
    + apply (inv_sum s Hs sid).
    + apply (inv_count s Hs sid).
  - rewrite endSession_run. cbv zeta.
    destruct (msg_sender env =? owner s); simpl; [|done].
    destruct ((0 <? sid) && (sid <=? sessionCount s)) eqn:Hr; simpl; [|done].
    destruct (isCreated (session_at s sid)) eqn:Hcr; simpl; [|done].
    apply andb_true_iff in Hr as [Hpos%N.ltb_lt Hle%N.leb_le].
    repeat (split_if; simpl; try done).
    apply inv_log_event; [done|]. apply inv_put; try done.
    + apply (inv_sum s Hs sid).
    + apply (inv_count s Hs sid).
  - rewrite registerVoter_run.
    repeat (split_if; simpl; try done). by apply inv_register.
  - rewrite registerMultipleVoters_run.
    repeat (split_if; simpl; try done). by apply inv_register_all.
  - rewrite registerSelf_run.
    repeat (split_if; simpl; try done). by apply inv_register.
  - rewrite vote_run. cbv zeta.
    destruct ((0 <? sid) && (sid <=? sessionCount s)) eqn:Hr; simpl; [|done].
    destruct (isCreated (session_at s sid)) eqn:Hcr; simpl; [|done].
    destruct (registered s (msg_sender env)) eqn:Hreg; simpl; [|done].
    destruct (session_active env s sid); simpl; [|done].
    destruct (voted (session_at s sid) (msg_sender env)) eqn:Hv;
      simpl; [done|].
    destruct ((0 <? cid) && (cid <=? candidateCount (session_at s sid)))
      eqn:Hc; simpl; [|done].
    apply andb_true_iff in Hc as [Hc1%N.ltb_lt Hc2%N.leb_le].
    repeat (split_if; simpl; try done).
    apply inv_vote; try done; [|lia].
    unfold session_exists. by rewrite Hr, Hcr.
Qed.

Lemma reachable_invariant s : reachable s → invariant s.
Proof.
  induction 1 as [deployer|env c s _ IH].
  - apply inv_constructor.
  - by apply inv_transact.
Qed.

(** ** The winner scan *)

Lemma maxl_snoc f a i : maxl f (a ++ [i]) = N.max (maxl f a) (f i).
Proof.
  unfold maxl. induction a as [|j a IH]; csimpl; [lia|]. rewrite IH. lia.
Qed.

Lemma maxl_ge f a j : j ∈ a → f j ≤ maxl f a.
Proof.
  unfold maxl. induction a as [|k a IH]; csimpl.
  - intros H. by apply elem_of_nil in H.
  - intros [->|H]%elem_of_cons; [lia|]. specialize (IH H). lia.
Qed.

Lemma maxl_attained f a : 0 < maxl f a → ∃ j, j ∈ a ∧ f j = maxl f a.
Proof.
  unfold maxl. induction a as [|k a IH]; csimpl; [lia|]. intros Hpos.
  destruct (decide (foldr N.max 0 (f <$> a) ≤ f k)) as [Hle|Hgt].
  - exists k. split; [left | lia].
  - destruct IH as (j & Hj & Hfj); [lia|].
    exists j. split; [by right | lia].
Qed.

Lemma filter_above_empty (f : N → N) (a : list N) x :
  (∀ j, j ∈ a → f j < x) → filter (λ j, f j = x) a = [].
Proof.
  induction a as [|k a IH]; intros H; [done|].
  rewrite filter_cons_False.
  - apply IH. intros j Hj. apply H. by right.
  - specialize (H k ltac:(left)). lia.
Qed.

Lemma leaders_nonempty v l : 0 < max_votes v l → leaders v l ≠ [].
Proof.
  intros Hpos. destruct (maxl_attained _ _ Hpos) as (j & Hj & Hfj).
  intros Hnil. by apply filter_nil_not_elem_of with (x := j) in Hnil.
Qed.

Lemma active_ids_snoc v l i :
  active_ids v (l ++ [i])
  = active_ids v l ++ (if cand_isActive (candidate_at v i) then [i] else []).
Proof.
  unfold active_ids. rewrite filter_app. f_equal.
  destruct (cand_isActive (candidate_at v i)) eqn:Hi.
  - by rewrite filter_cons_True.
  - rewrite filter_cons_False; [done|]. by rewrite Hi.
Qed.

Lemma scan_closed v l :
  foldl (scan_step v) (0, 0, 0) l = scan_result v l.
Proof.
  induction l as [|i l IH] using rev_ind; [done|].
  rewrite foldl_snoc, IH. clear IH.
  unfold scan_result, scan_step, leaders, max_votes.
  rewrite active_ids_snoc.
  destruct (cand_isActive (candidate_at v i)) eqn:Hact;
    [|rewrite app_nil_r; by destruct (_ =? 0)].
  rewrite maxl_snoc, filter_app.
  set (a := active_ids v l). set (m := maxl (votes_of v) a).
  assert (Hle : ∀ j, j ∈ a → votes_of v j ≤ m) by (intros; by apply maxl_ge).
  assert (Hne : 0 < m → filter (λ j, votes_of v j = m) a ≠ [])
    by apply leaders_nonempty.
  destruct (decide (m < votes_of v i)) as [Hlt|Hge].
  - (* strictly more votes: a new leader *)
    replace (N.max m (votes_of v i)) with (votes_of v i) by lia.
    assert (Hempty : filter (λ j, votes_of v j = votes_of v i) a = []).
    { apply filter_above_empty. intros j Hj. specialize (Hle j Hj). lia. }
    rewrite Hempty, filter_cons_True by done. simpl.
    replace (votes_of v i =? 0) with false by (symmetry; apply N.eqb_neq; lia).
    destruct (m =? 0) eqn:Hm0.
    + apply N.eqb_eq in Hm0.
      replace (0 <? votes_of v i) with true
        by (symmetry; apply N.ltb_lt; lia). done.
    + replace (m <? votes_of v i) with true
        by (symmetry; by apply N.ltb_lt). done.
  - replace (N.max m (votes_of v i)) with m by lia.
    destruct (decide (votes_of v i = m)) as [Heq|Hneq].
    + (* as many votes as the leader *)
      rewrite filter_cons_True by done.
      destruct (m =? 0) eqn:Hm0.
      * apply N.eqb_eq in Hm0. rewrite Heq, Hm0. done.
      * apply N.eqb_neq in Hm0.
        replace (m <? votes_of v i) with false
          by (symmetry; apply N.ltb_ge; lia).
        rewrite Heq, N.eqb_refl.
        replace (0 <? m) with true by (symmetry; apply N.ltb_lt; lia).
        simpl. rewrite length_app. simpl.
        destruct (filter (λ j, votes_of v j = m) a) as [|w rest] eqn:Hf.
        { exfalso. apply Hne; [lia | done]. }
        simpl. do 2 f_equal. lia.
    + rewrite filter_cons_False, app_nil_r by done.
      destruct (m =? 0) eqn:Hm0.
      * apply N.eqb_eq in Hm0. lia.
      * replace (m <? votes_of v i) with false
          by (symmetry; apply N.ltb_ge; lia).
        replace (votes_of v i =? m) with false
          by (symmetry; by apply N.eqb_neq). done.
Qed.

Lemma scan_body_run v i acc env s :
  acc.2 < max_uint256 →
  scan_body v i acc env s = Ok (scan_step v acc i, s).
Proof.
  destruct acc as [[m w] t]. simpl. intros Ht.
  unfold scan_body, scan_step, votes_of.
  destruct (cand_isActive (candidate_at v i)); [|done].
  destruct (m <? voteCount (candidate_at v i)); [done|].
  destruct ((voteCount (candidate_at v i) =? m) && (0 <? m)); [|done].
  run_unfold. apply N.ltb_lt in Ht. by rewrite Ht.
Qed.

Lemma scan_step_tie v acc i : (scan_step v acc i).2 ≤ acc.2 + 1.
Proof.
  destruct acc as [[m w] t]. unfold scan_step. simpl.
  repeat (split_if; simpl); lia.
Qed.

Lemma for_ids_scan v ids acc env s :
  (∀ i, i ∈ ids → i < max_uint256) →
  acc.2 + N.of_nat (length ids) ≤ max_uint256 →
  for_ids ids (scan_body v) acc env s
  = Ok (foldl (scan_step v) acc ids, s).
Proof.
  revert acc. induction ids as [|i rest IH]; intros acc Hids Hlen; [done|].
  simpl in *. cbv beta iota delta [mbind M_bind].
  rewrite scan_body_run by lia.
  unfold checked_incr.
  replace (i <? max_uint256) with true
    by (symmetry; apply N.ltb_lt, Hids; left).
  simpl. apply IH.
  - intros k Hk. apply Hids. by right.
  - pose proof (scan_step_tie v acc i). lia.
Qed.

Lemma getSessionWinner_run sid env s :
  session_exists s sid = true →
  candidateCount (session_at s sid) < max_uint256 →
  getSessionWinner sid env s = Ok (winner_of (session_at s sid), s).
Proof.
  intros He Hcc. destruct (session_exists_range _ _ He) as (Hpos & Hle & Hcr).
  unfold getSessionWinner, winner_of.
  cbv beta iota delta [mbind M_bind]. rewrite sessionExists_run.
  replace ((0 <? sid) && (sid <=? sessionCount s)) with true
    by (symmetry; apply andb_true_iff;
        split; [by apply N.ltb_lt | by apply N.leb_le]).
  rewrite Hcr. simpl.
  destruct (totalVotes (session_at s sid) =? 0); [done|].
  unfold for_1_to. rewrite for_ids_scan, scan_closed.
  - destruct (scan_result _ _) as [[m w] t]. by destruct (0 <? w).
  - intros i Hi%elem_of_ids_upto. lia.
  - unfold ids_upto. rewrite length_fmap, length_seq. simpl. lia.
Qed.

(** ** What no transaction undoes *)

Lemma evolves_refl s : evolves s s.
Proof. split; try done; intros sid He; (split; [done | lia]). Qed.

Lemma evolves_trans s1 s2 s3 : evolves s1 s2 → evolves s2 s3 → evolves s1 s3.
Proof.
  intros [A1 A2 A3 A4] [B1 B2 B3 B4]. split.
  - intros sid a Hv. destruct (A1 _ _ Hv) as [Hv2 Hc2].
    destruct (B1 _ _ Hv2) as [Hv3 Hc3]. split; [done | congruence].
  - intros sid He. destruct (A2 _ He) as [He2 Hc2].
    destruct (B2 _ He2) as [He3 Hc3]. split; [done | lia].
  - intros sid cid He Hc Hi. destruct (A2 _ He) as [He2 Hc2].
    rewrite <- (A3 _ _ He Hc Hi). apply B3; [done | lia |].
    by rewrite (A3 _ _ He Hc Hi).
  - intros a Hr. by apply B4, A4.
Qed.

Lemma evolves_log e s : evolves s (log_event e s).
Proof. split; try done; intros sid He; (split; [done | lia]). Qed.

Lemma evolves_put s sid v' :
  (∀ a, voted (session_at s sid) a = true →
        voted v' a = true ∧ choice v' a = choice (session_at s sid) a) →
  (session_exists s sid = true →
   isCreated v' = true
   ∧ candidateCount (session_at s sid) ≤ candidateCount v'
   ∧ ∀ cid, cid ≤ candidateCount (session_at s sid) →
       cand_isActive (candidate_at (session_at s sid) cid) = false →
       candidate_at v' cid = candidate_at (session_at s sid) cid) →
  evolves s (put_session sid v' s).
Proof.
  intros Hvoted Hex. split.
  - intros sid' a. destruct (decide (sid = sid')) as [<-|Hne].
    + rewrite session_at_put. apply Hvoted.
    + by rewrite session_at_put_ne.
  - intros sid' He. destruct (decide (sid = sid')) as [<-|Hne].
    + destruct (Hex He) as (Hcr & Hcc & _).
      destruct (session_exists_range _ _ He) as (Hpos & Hle & _).
      rewrite session_at_put. split; [|done].
      by apply session_exists_put.
    + rewrite session_at_put_ne by done. split; [|lia].
      unfold session_exists in *. by rewrite session_at_put_ne.
  - intros sid' cid He Hc Hi. destruct (decide (sid = sid')) as [<-|Hne].
    + destruct (Hex He) as (_ & _ & Hfr). rewrite session_at_put.
      by apply Hfr.
    + by rewrite session_at_put_ne.
  - done.
Qed.

Lemma evolves_register a s : evolves s (register_state a s).
Proof.
  split; try done.
  intros b Hr. unfold registered, register_state in *. simpl.
  destruct (decide (a = b)) as [<-|Hne].
  - by rewrite lookup_insert_eq.
  - by rewrite lookup_insert_ne.
Qed.

Lemma evolves_register_all voters s : evolves s (register_all voters s).
Proof.
  revert s. induction voters as [|a rest IH]; intros s.
  - apply evolves_refl.
  - simpl. eapply evolves_trans; [|apply IH].
    destruct (negb (registered s a) && negb (a =? 0)).
    + apply evolves_register.
    + apply evolves_refl.
Qed.

Lemma evolves_add_candidate sid name s :
  evolves s (add_candidate_state sid name s).
Proof.
  eapply evolves_trans; [|apply evolves_log].
  apply evolves_put; [done|]. intros He.
  destruct (session_exists_range _ _ He) as (_ & _ & Hcr).
  split; [done|]. simpl.
  split; [lia|]. intros cid Hc _. unfold candidate_at. simpl.
  by rewrite lookup_insert_ne by lia.
Qed.

Lemma evolves_add_names sid names s : evolves s (add_names sid names s).
Proof.
  revert s. induction names as [|name rest IH]; intros s.
  - apply evolves_refl.
  - simpl. eapply evolves_trans; [apply evolves_add_candidate | apply IH].
Qed.

Lemma evolves_create_base name st et s :
  evolves s (create_base name st et s).
Proof.
  unfold create_base. set (n := sessionCount s + 1).
  assert (Hother : ∀ sid, session_exists s sid = true →
            sid ≠ n ∧ session_at (put_session n
                        (init_session n name st et (session_at s n))
                        (put_sessionCount n s)) sid = session_at s sid).
  { intros sid He. destruct (session_exists_range _ _ He) as (Hp & Hl & Hc).
    assert (n ≠ sid) by (unfold n; lia).
    split; [done|]. by rewrite session_at_put_ne. }
  split.
  - intros sid a. destruct (decide (n = sid)) as [<-|Hne].
    + by rewrite session_at_put.
    + by rewrite session_at_put_ne.
  - intros sid He. destruct (Hother _ He) as [Hne Heq].
    destruct (session_exists_range _ _ He) as (Hp & Hl & Hc).
    rewrite Heq. split; [|lia]. unfold session_exists. rewrite Heq, Hc.
    simpl. rewrite andb_true_r. apply andb_true_iff.
    split; [by apply N.ltb_lt | apply N.leb_le; unfold n; lia].
  - intros sid cid He _ _. destruct (Hother _ He) as [_ Heq]. by rewrite Heq.
  - done.
Qed.

Lemma evolves_transact env c s : evolves s (transact env c s).
Proof.
  unfold transact.
  destruct (dispatch c env s) as [[[] s']|f] eqn:Hrun; [|apply evolves_refl].
  destruct c as [name st et names|sid name|sid cid newName|sid cid|sid|sid
                |a|voters| |sid cid]; simpl in Hrun.
  - cbv beta iota delta [mbind M_bind] in Hrun.
    rewrite createSession_run in Hrun.
    repeat (destruct (negb _) in Hrun; [done|]).
    destruct (add_candidates _ _ _ _) as [[[] s2]|f] eqn:Hadd; [|done].
    apply add_candidates_Ok in Hadd as [_ ->]. simpl in Hrun.
    injection Hrun as <-.
    eapply evolves_trans; [apply evolves_create_base|].
    eapply evolves_trans; [apply evolves_add_names | apply evolves_log].
  - rewrite addCandidateToSession_run in Hrun.
    destruct (edit_guard env s sid); [done|].
    repeat (destruct (negb _) in Hrun; [done|]). injection Hrun as <-.
    apply evolves_add_candidate.
  - rewrite updateCandidate_run in Hrun. cbv zeta in Hrun.
    destruct (edit_guard env s sid); [done|].
    destruct (negb (nonempty newName)); [done|].
    destruct (negb _); [done|].
    destruct (cand_isActive (candidate_at (session_at s sid) cid)) eqn:Hact;
      [|done].
    injection Hrun as <-.
    eapply evolves_trans; [|apply evolves_log].
    apply evolves_put; [done|]. intros He.
    destruct (session_exists_range _ _ He) as (_ & _ & Hcr).
    split; [done|]. split; [simpl; lia|]. intros k _ Hk.
    apply candidate_at_set_ne. intros ->. congruence.
  - rewrite removeCandidateFromSession_run in Hrun. cbv zeta in Hrun.
    destruct (edit_guard env s sid); [done|].
    destruct (negb _); [done|].
    destruct (cand_isActive (candidate_at (session_at s sid) cid)) eqn:Hact;
      [|done].
    injection Hrun as <-.
    eapply evolves_trans; [|apply evolves_log].
    apply evolves_put; [done|]. intros He.
    destruct (session_exists_range _ _ He) as (_ & _ & Hcr).
    split; [done|]. split; [simpl; lia|]. intros k _ Hk.
    apply candidate_at_set_ne. intros ->. congruence.
  - rewrite startSession_run in Hrun. cbv zeta in Hrun.
    repeat (destruct (negb _) in Hrun; [done|]).
    destruct (isActive (session_at s sid)); [done|].
    repeat (destruct (negb _) in Hrun; [done|]). injection Hrun as <-.
    eapply evolves_trans; [|apply evolves_log].
    apply evolves_put; [done|]. intros He.
    destruct (session_exists_range _ _ He) as (_ & _ & Hcr).
    split; [done|]. split; [simpl; lia | done].
  - rewrite endSession_run in Hrun. cbv zeta in Hrun.
    repeat (destruct (negb _) in Hrun; [done|]). injection Hrun as <-.
    eapply evolves_trans; [|apply evolves_log].
    apply evolves_put; [done|]. intros He.
    destruct (session_exists_range _ _ He) as (_ & _ & Hcr).
    split; [done|]. split; [simpl; lia | done].
  - rewrite registerVoter_run in Hrun.
    destruct (negb _); [done|]. destruct (a =? 0); [done|].
    destruct (registered s a); [done|]. injection Hrun as <-.
    apply evolves_register.
  - rewrite registerMultipleVoters_run in Hrun.
    destruct (negb _); [done|]. injection Hrun as <-.
    apply evolves_register_all.
  - rewrite registerSelf_run in Hrun.
    destruct (registered s (msg_sender env)); [done|]. injection Hrun as <-.
    apply evolves_register.
  - rewrite vote_run in Hrun. cbv zeta in Hrun.
    repeat (destruct (negb _) in Hrun; [done|]).
    destruct (voted (session_at s sid) (msg_sender env)) eqn:Hv; [done|].
    destruct (negb _); [done|].
    destruct (cand_isActive (candidate_at (session_at s sid) cid)) eqn:Hact;
      [|done].
    simpl in Hrun.
    repeat (destruct (negb _) in Hrun; [done|]). injection Hrun as <-.
    eapply evolves_trans; [|apply evolves_log].
    apply evolves_put.
    + intros a Ha. rewrite voted_vote. unfold choice. simpl.
      assert (a ≠ msg_sender env) by (intros ->; congruence).
      rewrite decide_False by done. rewrite lookup_insert_ne by done. done.
    + intros He. destruct (session_exists_range _ _ He) as (_ & _ & Hcr).
      split; [done|]. split; [simpl; lia|]. intros k _ Hk.
      unfold candidate_at at 1. simpl. rewrite lookup_insert_ne; [done|].
      intros ->. congruence.
Qed.

Lemma evolves_run txs s : evolves s (run txs s).
Proof.
  revert s. induction txs as [|[env c] txs IH]; intros s.
  - apply evolves_refl.
  - simpl. eapply evolves_trans; [apply evolves_transact | apply IH].
Qed.

Lemma reachable_run txs s : reachable s → reachable (run txs s).
Proof.
  revert s. induction txs as [|[env c] txs IH]; intros s Hs; [done|].
  simpl. apply IH. by constructor.
Qed.

(** ** Scenarios *)

Example scenario_winner :
  getSessionWinner 1 (mkEnv 9 200) after_vote
  = Ok (("Bob"%string, 1, false), after_vote).
Proof. vm_compute. reflexivity. Qed.

Example scenario_second_vote :
  outcome (mkEnv 7 140) (Vote 1 1) after_vote = Some AlreadyVoted.
Proof. vm_compute. reflexivity. Qed.

Example scenario_early_start :
  outcome (mkEnv 1 50) (StartSession 1) after_create
  = Some StartTimeNotReached.
Proof. vm_compute. reflexivity. Qed.

Example scenario_events :
  events after_vote
  = [CandidateAdded 1 1 "Alice"; CandidateAdded 1 2 "Bob";
     SessionCreated 1 "Election" 100 3700; SessionStarted 1;
     VoterRegistered 7; VoteCast 1 7 2].
Proof. vm_compute. reflexivity. Qed.

(** ** Tally consistency *)

(** C1: in every state reached by committed operations, each created
    session's [totalVotes] equals the sum of [voteCount] over all its
    candidates, active or deactivated, and both equal the number of voters
    whose [hasVoted] entry is set. *)
Theorem tally_invariant s sid :
  reachable s → session_exists s sid = true →
  totalVotes (session_at s sid) = sum_votes (session_at s sid)
  ∧ sum_votes (session_at s sid) = voters_count (session_at s sid).
Proof.
  intros Hs _. apply reachable_invariant in Hs.
  rewrite <- (inv_sum s Hs sid). split; [done|]. apply (inv_count s Hs).
Qed.

Lemma tally_invariant_witness :
  session_exists after_removal 1 = true
  ∧ totalVotes (session_at after_removal 1)
    = sum_votes (session_at after_removal 1)
  ∧ sum_votes (session_at after_removal 1)
    = voters_count (session_at after_removal 1).
Proof.
  split; [vm_compute; reflexivity|].
  apply (tally_invariant after_removal 1).
  - do 2 apply reachable_run. apply reachable_deploy.
  - vm_compute; reflexivity.
Defined.

(** ** One vote per voter and session *)

(** C2: once [hasVoted] is set for a voter in a session of a reachable
    state, then after any further transactions it is still set and the
    recorded choice is the same, every vote call of that voter for that
    session fails with a [StateError], and the log holds exactly one
    [VoteCast] for the pair. *)
Theorem vote_record_write_once s sid a txs :
  reachable s → voted (session_at s sid) a = true →
  voted (session_at (run txs s) sid) a = true
  ∧ choice (session_at (run txs s) sid) a = choice (session_at s sid) a
  ∧ (∀ now cid, ∃ f,
       vote sid cid (mkEnv a now) (run txs s) = Err f
       ∧ error_kind f = Some StateError
       ∧ transact (mkEnv a now) (Vote sid cid) (run txs s) = run txs s)
  ∧ votes_logged sid a (events (run txs s)) = 1%nat.
Proof.
  intros Hs Hv.
  destruct (ev_voted _ _ (evolves_run txs s) _ _ Hv) as [Hv' Hc'].
  pose proof (reachable_invariant _ (reachable_run txs _ Hs)) as Hinv.
  destruct (inv_voter _ Hinv _ _ Hv') as [He Hr].
  destruct (session_exists_range _ _ He) as (Hpos & Hle & Hcr).
  repeat split; try done.
  - intros now cid.
    assert (Hrun : ∃ f, vote sid cid (mkEnv a now) (run txs s) = Err f
                        ∧ error_kind f = Some StateError).
    { rewrite vote_run. cbv zeta. simpl.
      replace ((0 <? sid) && (sid <=? sessionCount (run txs s))) with true
        by (symmetry; apply andb_true_iff;
            split; [by apply N.ltb_lt | by apply N.leb_le]).
      rewrite Hcr, Hr, Hv'. simpl.
      destruct (session_active _ _ _); simpl; eauto. }
    destruct Hrun as (f & Hf & Hk). exists f. repeat split; try done.
    unfold transact. simpl. by rewrite Hf.
  - rewrite (inv_log _ Hinv). by rewrite Hv'.
Qed.

Lemma vote_record_write_once_witness :
  voted (session_at after_vote 1) 7 = true
  ∧ voted (session_at (run [(mkEnv 1 200, EndSession 1)] after_vote) 1) 7
    = true
  ∧ choice (session_at (run [(mkEnv 1 200, EndSession 1)] after_vote) 1) 7
    = 2.
Proof.
  split; [vm_compute; reflexivity|].
  destruct (vote_record_write_once after_vote 1 7
              [(mkEnv 1 200, EndSession 1)]) as (Hv & Hc & _).
  - apply reachable_run, reachable_deploy.
  - vm_compute; reflexivity.
  - split; [exact Hv|]. rewrite Hc. vm_compute; reflexivity.
Defined.

(** ** Session creation *)

Lemma session_at_add_candidate sid name s :
  session_at (add_candidate_state sid name s) sid
  = add_candidate_session name (session_at s sid).
Proof. unfold add_candidate_state. apply session_at_put. Qed.

Lemma add_names_spec sid names s :
  let v := session_at s sid in
  let v' := session_at (add_names sid names s) sid in
  candidateCount v' = candidateCount v + N.of_nat (length names)
  ∧ (sessionId v', sessionName v', startTime v', endTime v')
    = (sessionId v, sessionName v, startTime v, endTime v)
  ∧ (isActive v', isCreated v', totalVotes v')
    = (isActive v, isCreated v, totalVotes v)
  ∧ sessionCount (add_names sid names s) = sessionCount s
  ∧ owner (add_names sid names s) = owner s
  ∧ (∀ j, j ≤ candidateCount v → candidate_at v' j = candidate_at v j)
  ∧ (∀ i name, names !! i = Some name →
       candidate_at v' (candidateCount v + N.of_nat i + 1)
       = mkCandidate (candidateCount v + N.of_nat i + 1) name 0 true).
Proof.
  revert s. induction names as [|name rest IH]; intros s; simpl.
  - repeat split; try done; lia.
  - destruct (IH (add_candidate_state sid name s))
      as (Hcc & Hid & Hfl & Hsc & Hown & Hold & Hnew).
    rewrite session_at_add_candidate in *. simpl in *.
    repeat split; try done.
    + lia.
    + intros j Hj. rewrite Hold by lia. unfold candidate_at. simpl.
      by rewrite lookup_insert_ne by lia.
    + intros [|i] nm Hnm; simpl in Hnm.
      * injection Hnm as <-. rewrite N.add_0_r, Hold by lia.
        unfold candidate_at. simpl. by rewrite lookup_insert_eq.
      * specialize (Hnew i nm Hnm).
        replace (candidateCount (session_at s sid) + N.of_nat (S i) + 1)
          with (candidateCount (session_at s sid) + 1 + N.of_nat i + 1)
          by lia.
        done.
Qed.

Lemma add_candidates_run sid names env s :
  msg_sender env = owner s → session_exists s sid = true →
  isActive (session_at s sid) = false →
  candidateCount (session_at s sid) + N.of_nat (length names) ≤ max_uint256 →
  add_candidates sid names env s =
    if forallb nonempty names then Ok (tt, add_names sid names s)
    else Err EmptyCandidateName.
Proof.
  revert s. induction names as [|name rest IH]; intros s Ho He Hact Hlen;
    [done|].
  destruct (session_exists_range _ _ He) as (Hpos & Hle & Hcr).
  simpl in *. cbv beta iota delta [mbind M_bind].
  rewrite addCandidateToSession_run.
  assert (Hg : edit_guard env s sid = None).
  { unfold edit_guard, session_active. rewrite Ho, N.eqb_refl. simpl.
    replace ((0 <? sid) && (sid <=? sessionCount s)) with true
      by (symmetry; apply andb_true_iff;
          split; [by apply N.ltb_lt | by apply N.leb_le]).
    rewrite Hcr, Hact. simpl. by rewrite !andb_false_r. }
  rewrite Hg. destruct (nonempty name); simpl; [|done].
  replace (candidateCount (session_at s sid) <? max_uint256) with true
    by (symmetry; apply N.ltb_lt; lia).
  simpl. apply IH.
  - done.
  - by apply session_exists_add_candidate.
  - by rewrite session_at_add_candidate.
  - rewrite session_at_add_candidate. simpl. lia.
Qed.

Lemma session_at_create_base name st et s :
  session_at (create_base name st et s) (sessionCount s + 1)
  = init_session (sessionCount s + 1) name st et
      (session_at s (sessionCount s + 1)).
Proof. unfold create_base. by rewrite session_at_put. Qed.

(** C6: called by the owner, [createSession] fails with a
    [ValidationError] and leaves the state (so [sessionCount]) as it was
    when the name is empty, [startTime >= endTime] or no candidate is given;
    it succeeds when the inputs are valid and the counters have room; and
    whenever it succeeds it returns [sessionCount + 1], which is the new
    [sessionCount], and the session stored there is inactive, created, with
    no votes, and holds the supplied candidates in input order under the
    ids 1, 2, ..., each with no votes and active. *)
Theorem createSession_spec env s name st et names :
  msg_sender env = owner s →
  (nonempty name = false ∨ et ≤ st ∨ names = [] →
   ∃ f, createSession name st et names env s = Err f
        ∧ error_kind f = Some ValidationError
        ∧ transact env (CreateSession name st et names) s = s)
  ∧ (nonempty name = true → st < et → names ≠ [] →
     forallb nonempty names = true →
     sessionCount s < max_uint256 →
     N.of_nat (length names) ≤ max_uint256 →
     ∃ s', createSession name st et names env s
           = Ok (sessionCount s + 1, s'))
  ∧ (∀ id s',
       createSession name st et names env s = Ok (id, s') →
       let v := session_at s' id in
       id = sessionCount s + 1 ∧ sessionCount s' = id
       ∧ sessionId v = id ∧ sessionName v = name
       ∧ startTime v = st ∧ endTime v = et
       ∧ isActive v = false ∧ isCreated v = true ∧ totalVotes v = 0
       ∧ candidateCount v = N.of_nat (length names)
       ∧ ∀ i nm, names !! i = Some nm →
           candidate_at v (N.of_nat i + 1)
           = mkCandidate (N.of_nat i + 1) nm 0 true).
Proof.
  intros Ho. split; [|split].
  - intros Hbad.
    assert (Hrun : ∃ f, createSession name st et names env s = Err f
                        ∧ error_kind f = Some ValidationError).
    { rewrite createSession_run, Ho, N.eqb_refl. simpl.
      destruct (st <? et) eqn:Ht; simpl; [|eauto].
      destruct names as [|nm rest]; simpl; [eauto|].
      destruct (nonempty name) eqn:Hn; simpl; [|eauto].
      apply N.ltb_lt in Ht. destruct Hbad as [?|[?|?]]; [done | lia | done]. }
    destruct Hrun as (f & Hf & Hk). exists f. repeat split; try done.
    unfold transact. simpl. cbv beta iota delta [mbind M_bind].
    by rewrite Hf.
  - intros Hn Ht Hne Hall Hsc Hlen.
    rewrite createSession_run, Ho, N.eqb_refl, Hn. simpl.
    replace (st <? et) with true by (symmetry; by apply N.ltb_lt).
    replace (sessionCount s <? max_uint256) with true
      by (symmetry; by apply N.ltb_lt).
    replace (0 <? N.of_nat (length names)) with true
      by (symmetry; apply N.ltb_lt; destruct names; [done | simpl; lia]).
    simpl. rewrite add_candidates_run, Hall; eauto.
    + apply session_exists_create_base.
    + by rewrite session_at_create_base.
    + rewrite session_at_create_base. simpl. lia.
  - intros id s' Hrun. rewrite createSession_run in Hrun.
    repeat (destruct (negb _) in Hrun; [done|]).
    destruct (add_candidates _ _ _ _) as [[[] s2]|f] eqn:Hadd; [|done].
    apply add_candidates_Ok in Hadd as [_ ->]. injection Hrun as <- <-.
    change (session_at (log_event ?e ?t) ?i) with (session_at t i).
    change (sessionCount (log_event ?e ?t)) with (sessionCount t).
    destruct (add_names_spec (sessionCount s + 1) names
                (create_base name st et s))
      as (Hcc & Hid & Hfl & Hsc & _ & _ & Hnew).
    rewrite session_at_create_base in *. simpl in *.
    injection Hid as -> -> -> ->. injection Hfl as -> -> ->.
    rewrite Hsc, Hcc. repeat split; done.
Qed.

Lemma createSession_spec_witness :
  msg_sender (mkEnv 1 10) = owner (constructor 1)
  ∧ ∃ s', createSession "Election" 100 3700 ["Alice"; "Bob"] (mkEnv 1 10)
            (constructor 1) = Ok (1, s').
Proof.
  split; [reflexivity|].
  destruct (createSession_spec (mkEnv 1 10) (constructor 1) "Election"
              100 3700 ["Alice"; "Bob"]) as (_ & Hok & _).
  - reflexivity.
  - apply Hok; vm_compute; congruence.
Defined.

(** ** Atomicity *)

(** *** The traced execution agrees with the call monad *)

Lemma agrees_bind {A B} (t : Traced.T A) (m : M A)
    (k : A → Traced.T B) (k' : A → M B) :
  agrees t m → (∀ a, agrees (k a) (k' a)) → agrees (t ≫= k) (m ≫= k').
Proof.
  intros Hm Hk env s. specialize (Hm env s). unfold erase in *.
  cbv beta iota delta [mbind Traced.T_bind M_bind].
  destruct (t env s) as [[a|f] w]; rewrite <- Hm; [apply Hk | done].
Qed.

Lemma agrees_addCandidateToSession sid name :
  agrees (Traced.addCandidateToSession sid name)
         (addCandidateToSession sid name).
Proof.
  unfold Traced.addCandidateToSession, addCandidateToSession. agree_cases.
Qed.

Lemma agrees_add_candidates sid names :
  agrees (Traced.add_candidates sid names) (add_candidates sid names).
Proof.
  induction names as [|name rest IH]; simpl; [done|].
  apply agrees_bind; [apply agrees_addCandidateToSession | by intros _].
Qed.

Lemma agrees_register_each voters :
  agrees (Traced.register_each voters) (register_each voters).
Proof.
  induction voters as [|a rest IH]; simpl; [done|].
  apply agrees_bind; [done|]. intros r.
  apply agrees_bind; [|by intros _].
  destruct (negb r && negb (a =? 0)); done.
Qed.

Lemma agrees_createSession name st et names :
  agrees (Traced.createSession name st et names)
         (createSession name st et names).
Proof.
  unfold Traced.createSession, createSession.
  repeat (apply agrees_bind; [agree_cases|intros ?]).
  apply agrees_bind; [apply agrees_add_candidates|intros _]. agree_cases.
Qed.

Lemma agrees_dispatch c : agrees (Traced.dispatch c) (dispatch c).
Proof.
  destruct c; simpl.
  - apply agrees_bind; [apply agrees_createSession | done].
  - apply agrees_addCandidateToSession.
  - unfold Traced.updateCandidate, updateCandidate. agree_cases.
  - unfold Traced.removeCandidateFromSession, removeCandidateFromSession.
    agree_cases.
  - unfold Traced.startSession, startSession. agree_cases.
  - unfold Traced.endSession, endSession. agree_cases.
  - unfold Traced.registerVoter, registerVoter. agree_cases.
  - apply agrees_bind; [agree_cases | intros _; apply agrees_register_each].
  - unfold Traced.registerSelf, registerSelf. agree_cases.
  - unfold Traced.vote, vote. agree_cases.
Qed.

(** *** What a failing call had written *)

Lemma traced_register_each_Ok voters env s :
  ∃ w, Traced.register_each voters env s = (Ok tt, w).
Proof.
  revert s. induction voters as [|a rest IH]; intros s; simpl.
  - by eexists.
  - traced_unfold. destruct (negb _ && negb _); cbv beta iota; apply IH.
Qed.

Lemma traced_isSessionActive_run sid env s :
  Traced.isSessionActive sid env s = (Ok (session_active env s sid), s).
Proof.
  unfold session_active. traced_unfold.
  destruct (sid =? 0) eqn:E0; simpl; [done|].
  rewrite N.ltb_antisym.
  destruct (sid <=? sessionCount s) eqn:E1; simpl; [|done].
  destruct (isCreated (session_at s sid)); simpl; [|done].
  destruct (isActive (session_at s sid)); simpl; done.
Qed.

Lemma traced_sessionExists_run sid env s :
  Traced.sessionExists sid env s =
    if (0 <? sid) && (sid <=? sessionCount s) then
      if isCreated (session_at s sid) then (Ok tt, s)
      else (Err SessionNotFound, s)
    else (Err SessionDoesNotExist, s).
Proof.
  traced_unfold.
  destruct ((0 <? sid) && (sid <=? sessionCount s)); cbv beta iota; [|done].
  by destruct (isCreated (session_at s sid)).
Qed.

Lemma traced_onlyOwner_run env s :
  Traced.onlyOwner env s =
    if msg_sender env =? owner s then (Ok tt, s) else (Err OnlyOwner, s).
Proof. traced_unfold. by destruct (msg_sender env =? owner s). Qed.

Lemma traced_edit_guard_run {A} sid (k : Traced.T A) env s :
  (Traced.onlyOwner;; Traced.sessionExists sid;;
   Traced.sessionNotActive sid;; k) env s =
    match edit_guard env s sid with
    | Some f => (Err f, s)
    | None => k env s
    end.
Proof.
  unfold edit_guard, Traced.sessionNotActive.
  cbv beta iota delta [mbind Traced.T_bind]. rewrite traced_onlyOwner_run.
  destruct (msg_sender env =? owner s); simpl; [|done].
  rewrite traced_sessionExists_run.
  destruct ((0 <? sid) && (sid <=? sessionCount s)); simpl; [|done].
  destruct (isCreated (session_at s sid)); simpl; [|done].
  rewrite traced_isSessionActive_run.
  destruct (session_active env s sid); simpl; done.
Qed.

Lemma traced_addCandidateToSession_run sid name env s :
  Traced.addCandidateToSession sid name env s =
    match edit_guard env s sid with
    | Some f => (Err f, s)
    | None =>
        if negb (nonempty name) then (Err EmptyCandidateName, s)
        else if negb (candidateCount (session_at s sid) <? max_uint256) then
          (Err ArithmeticPanic, s)
        else (Ok tt, add_candidate_state sid name s)
    end.
Proof.
  unfold Traced.addCandidateToSession. rewrite traced_edit_guard_run.
  destruct (edit_guard env s sid); [done|].
  unfold nonempty. traced_unfold.
  destruct (0 <? N.of_nat (String.length name)); simpl; [|done].
  destruct (candidateCount (session_at s sid) <? max_uint256); simpl; [|done].
  by rewrite !session_at_put, !put_put.
Qed.

Lemma nonempty_false name : nonempty name = false → name = ""%string.
Proof. by destruct name. Qed.

Lemma loop_guard env s sid :
  msg_sender env = owner s → session_exists s sid = true →
  isActive (session_at s sid) = false → edit_guard env s sid = None.
Proof.
  intros Ho He Hact.
  destruct (session_exists_range _ _ He) as (Hpos & Hle & Hcr).
  unfold edit_guard, session_active. rewrite Ho, N.eqb_refl. simpl.
  replace ((0 <? sid) && (sid <=? sessionCount s)) with true
    by (symmetry; apply andb_true_iff;
        split; [by apply N.ltb_lt | by apply N.leb_le]).
  rewrite Hcr, Hact. simpl. by rewrite !andb_false_r.
Qed.

(** A failure inside the loop of [createSession] is an empty name or an
    overflow of the candidate counter; at an empty name the candidates
    before it are in the working storage. *)
Lemma traced_add_candidates_Err sid names env s f w :
  msg_sender env = owner s → session_exists s sid = true →
  isActive (session_at s sid) = false →
  Traced.add_candidates sid names env s = (Err f, w) →
  (f = EmptyCandidateName ∨ f = ArithmeticPanic)
  ∧ (f = EmptyCandidateName →
     ∃ good rest, names = good ++ ""%string :: rest
                  ∧ forallb nonempty good = true
                  ∧ w = add_names sid good s).
Proof.
  revert s. induction names as [|name rest IH]; intros s Ho He Hact; simpl.
  { traced_unfold. done. }
  cbv beta iota delta [mbind Traced.T_bind].
  rewrite traced_addCandidateToSession_run, loop_guard by done.
  destruct (nonempty name) eqn:Hn; simpl.
  - destruct (candidateCount (session_at s sid) <? max_uint256); simpl.
    + intros Hrun. apply IH in Hrun as [Hf Hw].
      * split; [done|]. intros Hfe.
        destruct (Hw Hfe) as (good & rest' & -> & Hg & ->).
        exists (name :: good), rest'. simpl. by rewrite Hn, Hg.
      * done.
      * by apply session_exists_add_candidate.
      * by rewrite session_at_add_candidate.
    + intros [= <- <-]. split; [by right | done].
  - intros [= <- <-]. split; [by left|]. intros _.
    exists [], rest. by rewrite (nonempty_false _ Hn).
Qed.

(** The loop of [createSession] stops at the first empty name, with the
    candidates before it written. *)
Lemma traced_add_candidates_stops sid good rest env s :
  msg_sender env = owner s → session_exists s sid = true →
  isActive (session_at s sid) = false →
  forallb nonempty good = true →
  candidateCount (session_at s sid) + N.of_nat (length good) ≤ max_uint256 →
  Traced.add_candidates sid (good ++ ""%string :: rest) env s
  = (Err EmptyCandidateName, add_names sid good s).
Proof.
  revert s. induction good as [|name good IH]; intros s Ho He Hact Hg Hlen;
    simpl; cbv beta iota delta [mbind Traced.T_bind];
    rewrite traced_addCandidateToSession_run, loop_guard by done.
  - done.
  - simpl in Hg, Hlen. apply andb_true_iff in Hg as [Hn Hg]. rewrite Hn.
    replace (candidateCount (session_at s sid) <? max_uint256) with true
      by (symmetry; apply N.ltb_lt; lia).
    simpl. apply IH; try done.
    + by apply session_exists_add_candidate.
    + by rewrite session_at_add_candidate.
    + rewrite session_at_add_candidate. simpl. lia.
Qed.

Lemma traced_createSession_run name st et names env s :
  Traced.createSession name st et names env s =
    if negb (msg_sender env =? owner s) then (Err OnlyOwner, s)
    else if negb (st <? et) then (Err InvalidTimeRange, s)
    else if negb (0 <? N.of_nat (length names)) then (Err NoCandidates, s)
    else if negb (nonempty name) then (Err EmptySessionName, s)
    else if negb (sessionCount s <? max_uint256) then (Err ArithmeticPanic, s)
    else
      match Traced.add_candidates (sessionCount s + 1) names env
              (create_base name st et s) with
      | (Ok _, s2) =>
          (Ok (sessionCount s + 1),
           log_event (SessionCreated (sessionCount s + 1) name st et) s2)
      | (Err f, w) => (Err f, w)
      end.
Proof.
  unfold Traced.createSession, nonempty.
  cbv beta iota delta [mbind Traced.T_bind Traced.onlyOwner Traced.sender
    Traced.gets Traced.require Traced.throw mret Traced.T_ret].
  destruct (msg_sender env =? owner s); simpl; [|done].
  destruct (st <? et); simpl; [|done].
  destruct (0 <? N.of_nat (length names)); simpl; [|done].
  destruct (0 <? N.of_nat (String.length name)); simpl; [|done].
  unfold Traced.checked_incr.
  destruct (sessionCount s <? max_uint256); simpl; [|done].
  cbv beta iota delta [mret Traced.T_ret Traced.modify Traced.upd_session].
  change (put_session (sessionCount s + 1) _ _)
    with (create_base name st et s).
  by destruct (Traced.add_candidates _ _ _ _) as [[[]|g] w'].
Qed.

Lemma add_names_events_exact sid names s :
  events (add_names sid names s)
  = events s ++ added_events sid (candidateCount (session_at s sid)) names.
Proof.
  revert s. induction names as [|name rest IH]; intros s.
  - simpl. by rewrite app_nil_r.
  - change (add_names sid (name :: rest) s)
      with (add_names sid rest (add_candidate_state sid name s)).
    rewrite IH, session_at_add_candidate. simpl.
    rewrite <- app_assoc. f_equal. unfold added_events. simpl.
    rewrite N.add_0_r. f_equal. apply imap_ext. intros i nm _. simpl.
    f_equal. lia.
Qed.

Lemma traced_checks_first c env s f w :
  Traced.dispatch c env s = (Err f, w) →
  fails_after_write c f = false → w = s.
Proof.
  destruct c; simpl.
  - cbv beta iota delta [mbind Traced.T_bind].
    rewrite traced_createSession_run.
    repeat (match goal with
            | |- context [if negb ?b then _ else _] => destruct b eqn:?
            end; simpl); try (by intros [= <- <-]).
    destruct (Traced.add_candidates _ _ _ _) as [[[]|g] w'] eqn:Hloop;
      [done|].
    intros [= <- <-] Hf.
    apply traced_add_candidates_Err in Hloop as [[-> | ->] _]; try done.
    + by apply N.eqb_eq.
    + apply session_exists_create_base.
    + by rewrite session_at_create_base.
  - unfold Traced.addCandidateToSession. traced_cases.
  - unfold Traced.updateCandidate. traced_cases.
  - unfold Traced.removeCandidateFromSession. traced_cases.
  - unfold Traced.startSession. traced_cases.
  - unfold Traced.endSession. traced_cases.
  - unfold Traced.registerVoter. traced_cases.
  - unfold Traced.registerMultipleVoters. traced_unfold.
    destruct (msg_sender env =? owner s); cbv beta iota.
    + destruct (traced_register_each_Ok voters env s) as [w' ->]. done.
    + by intros [= <- <-].
  - unfold Traced.registerSelf. traced_cases.
  - unfold Traced.vote. traced_cases.
Qed.

(** C3: every failure of a mutating call is a revert, and a reverted call
    changes nothing.  The traced execution, which keeps what a call has
    written when it stops, returns and fails exactly as the call monad
    does.  When it fails, the transaction leaves the state, event log
    included, exactly as it was; in particular [sessionCount] and the slot
    of the next session id are untouched.  For every failure other than
    those of [fails_after_write] the call had not written anything when it
    stopped.  A [createSession] that stops at an empty candidate name had
    by then raised [sessionCount], created the session and added the
    candidates before the empty name, each with its event; the revert
    removes all of it.  Such a call does fail: by the owner, with valid
    window and name, at the first empty name of its list. *)
Theorem failed_call_changes_nothing env s :
  (∀ c, dispatch c env s = erase (Traced.dispatch c) env s)
  ∧ (∀ c f, outcome env c s = Some f
            ↔ ∃ w, Traced.dispatch c env s = (Err f, w))
  ∧ (∀ c f w,
       Traced.dispatch c env s = (Err f, w) →
       Traced.transact env c s = s
       ∧ transact env c s = s
       ∧ events (transact env c s) = events s
       ∧ sessionCount (transact env c s) = sessionCount s
       ∧ votingSessions (transact env c s) !! (sessionCount s + 1)
         = votingSessions s !! (sessionCount s + 1)
       ∧ (fails_after_write c f = false → w = s))
  ∧ (∀ name st et names w,
       Traced.dispatch (CreateSession name st et names) env s
       = (Err EmptyCandidateName, w) →
       ∃ good rest,
         names = good ++ ""%string :: rest
         ∧ forallb nonempty good = true
         ∧ sessionCount w = sessionCount s + 1
         ∧ isCreated (session_at w (sessionCount s + 1)) = true
         ∧ sessionName (session_at w (sessionCount s + 1)) = name
         ∧ candidateCount (session_at w (sessionCount s + 1))
           = N.of_nat (length good)
         ∧ (∀ i nm, good !! i = Some nm →
              candidate_at (session_at w (sessionCount s + 1))
                (N.of_nat i + 1)
              = mkCandidate (N.of_nat i + 1) nm 0 true)
         ∧ events w = events s ++ added_events (sessionCount s + 1) 0 good
         ∧ transact env (CreateSession name st et names) s = s)
  ∧ (∀ name st et good rest,
       msg_sender env = owner s → st < et → nonempty name = true →
       forallb nonempty good = true →
       sessionCount s < max_uint256 →
       N.of_nat (length good) ≤ max_uint256 →
       ∃ w, Traced.dispatch
              (CreateSession name st et (good ++ ""%string :: rest)) env s
            = (Err EmptyCandidateName, w)
            ∧ sessionCount w = sessionCount s + 1
            ∧ outcome env (CreateSession name st et (good ++ ""%string :: rest))
                s = Some EmptyCandidateName).
Proof.
  assert (Hagree : ∀ c, dispatch c env s = erase (Traced.dispatch c) env s).
  { intros c. symmetry. apply agrees_dispatch. }
  assert (Hfail : ∀ c f, outcome env c s = Some f
                         ↔ ∃ w, Traced.dispatch c env s = (Err f, w)).
  { intros c f. unfold outcome. rewrite Hagree. unfold erase.
    destruct (Traced.dispatch c env s) as [[[]|g] w]; split.
    - done.
    - by intros [w' ?].
    - intros [= <-]. by exists w.
    - by intros [w' [= <- _]]. }
  assert (Hback : ∀ c f, outcome env c s = Some f → transact env c s = s).
  { intros c f. unfold outcome, transact.
    by destruct (dispatch c env s) as [[u s']|g]. }
  assert (Hstop : ∀ name st et names w,
    Traced.dispatch (CreateSession name st et names) env s
    = (Err EmptyCandidateName, w) →
    ∃ good rest, names = good ++ ""%string :: rest
      ∧ forallb nonempty good = true
      ∧ w = add_names (sessionCount s + 1) good (create_base name st et s)).
  { intros name st et names w. simpl.
    cbv beta iota delta [mbind Traced.T_bind].
    rewrite traced_createSession_run.
    repeat (match goal with
            | |- context [if negb ?b then _ else _] => destruct b eqn:?
            end; simpl); try (by intros [= ]).
    destruct (Traced.add_candidates _ _ _ _) as [[[]|g] w'] eqn:Hloop;
      [done|].
    intros [= -> ->].
    apply traced_add_candidates_Err in Hloop as [_ Hw].
    - by apply Hw.
    - by apply N.eqb_eq.
    - apply session_exists_create_base.
    - by rewrite session_at_create_base. }
  split; [done|]. split; [done|]. split; [|split].
  - intros c f w Hrun.
    assert (Hout : outcome env c s = Some f) by (apply Hfail; by exists w).
    split; [unfold Traced.transact; by rewrite Hrun|].
    rewrite (Hback _ _ Hout). do 4 (split; [done|]).
    apply (traced_checks_first _ _ _ _ _ Hrun).
  - intros name st et names w Hrun.
    destruct (Hstop _ _ _ _ _ Hrun) as (good & rest & -> & Hg & ->).
    exists good, rest. do 2 (split; [done|]).
    destruct (add_names_spec (sessionCount s + 1) good
                (create_base name st et s))
      as (Hcc & Hid & Hfl & Hsc & _ & _ & Hnew).
    rewrite session_at_create_base in Hcc, Hid, Hfl, Hnew.
    simpl in Hcc, Hid, Hfl, Hnew.
    split; [by rewrite Hsc|].
    split; [by injection Hfl as _ -> _|].
    split; [by injection Hid as _ -> _ _|].
    split; [by rewrite Hcc|].
    split; [intros i nm Hi; by apply Hnew|].
    split.
    + rewrite add_names_events_exact, session_at_create_base. done.
    + apply (Hback _ EmptyCandidateName), Hfail. by eexists.
  - intros name st et good rest Ho Ht Hn Hg Hsc Hlen.
    assert (Hrun : Traced.dispatch
              (CreateSession name st et (good ++ ""%string :: rest)) env s
            = (Err EmptyCandidateName,
               add_names (sessionCount s + 1) good
                 (create_base name st et s))).
    { simpl. cbv beta iota delta [mbind Traced.T_bind].
      rewrite traced_createSession_run, Ho, N.eqb_refl, Hn. simpl.
      replace (st <? et) with true by (symmetry; by apply N.ltb_lt).
      replace (sessionCount s <? max_uint256) with true
        by (symmetry; by apply N.ltb_lt).
      replace (0 <? N.of_nat (length (good ++ ""%string :: rest))) with true
        by (symmetry; apply N.ltb_lt; rewrite length_app; simpl; lia).
      simpl. rewrite traced_add_candidates_stops; try done.
      - apply session_exists_create_base.
      - by rewrite session_at_create_base.
      - rewrite session_at_create_base. simpl. lia. }
    eexists. split; [exact Hrun|]. split.
    + by destruct (add_names_spec (sessionCount s + 1) good
                     (create_base name st et s)) as (_ & _ & _ & -> & _).
    + apply Hfail. by eexists.
Qed.

Lemma failed_call_changes_nothing_witness :
  ∃ w, Traced.dispatch (CreateSession "Second" 400 500 ["Ann"; "Ben"; ""])
         (mkEnv 1 300) after_vote
       = (Err EmptyCandidateName, w)
       ∧ sessionCount after_vote = 1
       ∧ sessionCount w = 2
       ∧ candidateCount (session_at w 2) = 2
       ∧ transact (mkEnv 1 300)
           (CreateSession "Second" 400 500 ["Ann"; "Ben"; ""]) after_vote
         = after_vote.
Proof.
  destruct (failed_call_changes_nothing (mkEnv 1 300) after_vote)
    as (_ & _ & Hroll & Hpart & Hstop).
  destruct (Hstop "Second" 400 500 ["Ann"; "Ben"]%string [])
    as (w & Hrun & Hsc & _);
    [vm_compute; reflexivity | reflexivity | reflexivity | reflexivity
    | vm_compute; reflexivity | vm_compute; discriminate |].
  exists w. split; [exact Hrun|].
  assert (Hone : sessionCount after_vote = 1) by (vm_compute; reflexivity).
  split; [exact Hone|]. rewrite Hone in Hsc. split; [exact Hsc|].
  destruct (Hroll _ _ _ Hrun) as (_ & Hback & _).
  split; [|exact Hback].
  destruct (Hpart _ _ _ _ _ Hrun)
    as (good & rest & Hnames & _ & _ & _ & _ & Hcc & _).
  rewrite Hone in Hcc. change (1 + 1) with 2 in Hcc. rewrite Hcc.
  clear - Hnames.
  destruct good as [|a [|b [|c good]]]; simpl in Hnames; try done.
  injection Hnames as _ _ _ Hnil. by destruct good.
Defined.

(** ** Voting needs an active session *)

(** C5 as stated fails: for an unregistered caller the vote on a session
    that is not active is rejected for the missing registration, an
    [AuthError], before the activity of the session is looked at. *)
Lemma vote_inactive_unregistered_counterexample :
  ¬ (session_exists after_create 1 = true →
     session_active stranger_env after_create 1 = false →
     ∃ f, vote 1 1 stranger_env after_create = Err f
          ∧ error_kind f = Some StateError).
Proof.
  intros H. destruct H as (f & Hf & Hk); [done | done |].
  vm_compute in Hf. injection Hf as <-. discriminate Hk.
Qed.

(** C5, amended: on an existing session for which [isSessionActive]
    answers false (also when its stored flag is set and only the time
    window has lapsed) a vote by a registered caller fails with the
    [StateError] "Session not active", and a vote by an unregistered caller
    fails with the [AuthError] "Not registered to vote"; the state is
    unchanged either way.  In every state and for every id,
    [isSessionActive] returns without failing and without changing the
    state: false for id 0 and for ids above [sessionCount], and otherwise
    true iff the session is created, its flag is set and
    [startTime <= now <= endTime]. *)
Theorem vote_needs_active_session env s :
  (∀ sid cid,
     session_exists s sid = true →
     isSessionActive sid env s = Ok (false, s) →
     vote sid cid env s
     = Err (if registered s (msg_sender env) then SessionNotActive_vote
            else NotRegistered)
     ∧ transact env (Vote sid cid) s = s)
  ∧ error_kind SessionNotActive_vote = Some StateError
  ∧ error_kind NotRegistered = Some AuthError
  ∧ ∀ sid, ∃ b,
      isSessionActive sid env s = Ok (b, s)
      ∧ (sid = 0 ∨ sessionCount s < sid → b = false)
      ∧ (0 < sid → sid ≤ sessionCount s →
         b = isCreated (session_at s sid) && isActive (session_at s sid)
             && (startTime (session_at s sid) <=? block_timestamp env)
             && (block_timestamp env <=? endTime (session_at s sid))).
Proof.
  split_and!; try done.
  - intros sid cid He Hact. rewrite isSessionActive_run in Hact.
    injection Hact as Hact.
    destruct (session_exists_range _ _ He) as (Hpos & Hle & Hcr).
    assert (Hrun : vote sid cid env s
      = Err (if registered s (msg_sender env) then SessionNotActive_vote
             else NotRegistered)).
    { rewrite vote_run. cbv zeta.
      replace ((0 <? sid) && (sid <=? sessionCount s)) with true
        by (symmetry; apply andb_true_iff;
            split; [by apply N.ltb_lt | by apply N.leb_le]).
      rewrite Hcr, Hact. simpl. by destruct (registered s (msg_sender env)). }
    split; [done|]. unfold transact. simpl. by rewrite Hrun.
  - intros sid. exists (session_active env s sid).
    split; [apply isSessionActive_run|]. split.
    + unfold session_active. intros [->|Hgt]; [done|].
      replace (sid <=? sessionCount s) with false
        by (symmetry; apply N.leb_gt; lia).
      by rewrite andb_false_r.
    + intros Hp Hl. unfold session_active.
      replace (sid =? 0) with false by (symmetry; apply N.eqb_neq; lia).
      replace (sid <=? sessionCount s) with true
        by (symmetry; by apply N.leb_le).
      done.
Qed.

Lemma vote_needs_active_session_witness :
  session_exists after_vote 1 = true
  ∧ isActive (session_at after_vote 1) = true
  ∧ isSessionActive 1 lapsed_env after_vote = Ok (false, after_vote)
  ∧ vote 1 1 lapsed_env after_vote = Err SessionNotActive_vote.
Proof.
  split; [vm_compute; reflexivity|].
  split; [vm_compute; reflexivity|].
  split; [vm_compute; reflexivity|].
  destruct (vote_needs_active_session lapsed_env after_vote) as [Hvote _].
  destruct (Hvote 1 1) as [Hrun _];
    [vm_compute; reflexivity | vm_compute; reflexivity |].
  rewrite Hrun. vm_compute; reflexivity.
Defined.

(** ** Ending a session *)

(** C7: called by the owner on an existing session, [endSession] succeeds
    at any block timestamp when the stored active flag is set.  In the
    resulting state the flag of that session is clear; every other field of
    the session, its candidates and vote records, every other session, the
    registrations, [sessionCount] and the owner are as before, and the log
    has grown by one [SessionEnded].  It fails with the [StateError]
    "Session not active", changing nothing, when the flag is clear. *)
Theorem endSession_spec env s sid :
  msg_sender env = owner s → session_exists s sid = true →
  (isActive (session_at s sid) = true →
   ∃ s', endSession sid env s = Ok (tt, s')
     ∧ isActive (session_at s' sid) = false
     ∧ (sessionId (session_at s' sid), sessionName (session_at s' sid),
        startTime (session_at s' sid), endTime (session_at s' sid))
       = (sessionId (session_at s sid), sessionName (session_at s sid),
          startTime (session_at s sid), endTime (session_at s sid))
     ∧ (isCreated (session_at s' sid), candidateCount (session_at s' sid),
        totalVotes (session_at s' sid))
       = (isCreated (session_at s sid), candidateCount (session_at s sid),
          totalVotes (session_at s sid))
     ∧ candidates (session_at s' sid) = candidates (session_at s sid)
     ∧ hasVoted (session_at s' sid) = hasVoted (session_at s sid)
     ∧ voterChoice (session_at s' sid) = voterChoice (session_at s sid)
     ∧ (∀ sid', sid' ≠ sid →
          votingSessions s' !! sid' = votingSessions s !! sid')
     ∧ registeredVoters s' = registeredVoters s
     ∧ sessionCount s' = sessionCount s
     ∧ owner s' = owner s
     ∧ events s' = events s ++ [SessionEnded sid])
  ∧ (isActive (session_at s sid) = false →
     endSession sid env s = Err SessionNotActive_end
     ∧ error_kind SessionNotActive_end = Some StateError
     ∧ transact env (EndSession sid) s = s).
Proof.
  intros Ho He. destruct (session_exists_range _ _ He) as (Hpos & Hle & Hcr).
  assert (Hrun : endSession sid env s
    = if isActive (session_at s sid)
      then Ok (tt, log_event (SessionEnded sid)
                     (put_session sid
                        (set_isActive false (session_at s sid)) s))
      else Err SessionNotActive_end).
  { rewrite endSession_run. cbv zeta. rewrite Ho, N.eqb_refl.
    replace ((0 <? sid) && (sid <=? sessionCount s)) with true
      by (symmetry; apply andb_true_iff;
          split; [by apply N.ltb_lt | by apply N.leb_le]).
    rewrite Hcr. simpl. by destruct (isActive (session_at s sid)). }
  split; intros Hact; rewrite Hact in Hrun.
  - eexists. split; [exact Hrun|].
    change (session_at (log_event ?e ?t) sid) with (session_at t sid).
    rewrite session_at_put. split_and!; try done.
    intros sid' Hne. simpl. by rewrite lookup_insert_ne.
  - split_and!; try done. unfold transact. simpl. by rewrite Hrun.
Qed.

Lemma endSession_spec_witness :
  msg_sender (mkEnv 1 5000) = owner after_vote
  ∧ session_exists after_vote 1 = true
  ∧ isActive (session_at after_vote 1) = true
  ∧ isSessionActive 1 (mkEnv 1 5000) after_vote = Ok (false, after_vote)
  ∧ ∃ s', endSession 1 (mkEnv 1 5000) after_vote = Ok (tt, s')
          ∧ isActive (session_at s' 1) = false
          ∧ totalVotes (session_at s' 1) = 1.
Proof.
  split; [reflexivity|].
  split; [vm_compute; reflexivity|].
  split; [vm_compute; reflexivity|].
  split; [vm_compute; reflexivity|].
  destruct (endSession_spec (mkEnv 1 5000) after_vote 1) as [Hok _];
    [reflexivity | vm_compute; reflexivity |].
  destruct Hok as (s' & Hrun & Hflag & _ & Hcounts & _);
    [vm_compute; reflexivity|].
  exists s'. split; [exact Hrun|]. split; [exact Hflag|].
  injection Hcounts as _ _ Htv. rewrite Htv. vm_compute; reflexivity.
Defined.

(** ** Editing candidates *)

Lemma edit_guard_active env s sid :
  session_active env s sid = true →
  edit_guard env s sid
  = Some (if msg_sender env =? owner s then CannotModifyActiveSession
          else OnlyOwner).
Proof.
  intros Hact. unfold edit_guard. rewrite Hact.
  unfold session_active in Hact. rewrite !andb_true_iff in Hact.
  destruct Hact as [[[[[Hz Hle] Hcr] _] _] _].
  apply negb_true_iff, N.eqb_neq in Hz.
  replace (0 <? sid) with true by (symmetry; apply N.ltb_lt; lia).
  rewrite Hle, Hcr. simpl. by destruct (msg_sender env =? owner s).
Qed.

Lemma edit_outcome env s c sid :
  edit_target c = Some sid →
  match edit_guard env s sid with
  | Some f => outcome env c s = Some f
  | None => True
  end.
Proof.
  intros Hc. unfold outcome.
  destruct c; simpl in Hc; try done; injection Hc as ->; simpl.
  - rewrite addCandidateToSession_run. by destruct (edit_guard env s sid).
  - rewrite updateCandidate_run. by destruct (edit_guard env s sid).
  - rewrite removeCandidateFromSession_run.
    by destruct (edit_guard env s sid).
Qed.

(** C9 as stated fails: on an active session the three editing calls fail
    with a [StateError] only for the owner; any other caller is rejected by
    the owner check first, an [AuthError]. *)
Lemma edit_active_not_owner_counterexample :
  ¬ (session_active intruder_env after_vote 1 = true →
     ∃ f, outcome intruder_env (AddCandidateToSession 1 "Carol") after_vote
          = Some f
          ∧ error_kind f = Some StateError).
Proof.
  intros H. destruct H as (f & Hf & Hk); [done|].
  vm_compute in Hf. injection Hf as <-. discriminate Hk.
Qed.

(** C9, amended: while [isSessionActive] holds for the owning session,
    [addCandidateToSession], [updateCandidate] and
    [removeCandidateFromSession] fail: with the [StateError] "Cannot modify
    active session" when called by the owner, and with the [AuthError]
    "Only owner can perform this action" otherwise; they succeed only when
    called by the owner on a session that is not active. *)
Theorem edits_need_inactive_session env s c sid :
  edit_target c = Some sid →
  (session_active env s sid = true →
   outcome env c s
   = Some (if msg_sender env =? owner s then CannotModifyActiveSession
           else OnlyOwner))
  ∧ error_kind CannotModifyActiveSession = Some StateError
  ∧ error_kind OnlyOwner = Some AuthError
  ∧ (outcome env c s = None →
     msg_sender env = owner s ∧ session_active env s sid = false).
Proof.
  intros Hc. pose proof (edit_outcome env s c sid Hc) as Hout.
  repeat split; try done.
  - intros Hact. by rewrite (edit_guard_active _ _ _ Hact) in Hout.
  - destruct (edit_guard env s sid) eqn:Hg; [congruence|].
    by apply edit_guard_None in Hg as (? & _ & _).
  - destruct (edit_guard env s sid) eqn:Hg; [congruence|].
    by apply edit_guard_None in Hg as (_ & _ & ?).
Qed.

Lemma edits_need_inactive_session_witness :
  edit_target (UpdateCandidate 1 2 "Robert") = Some 1
  ∧ session_active (mkEnv 1 150) after_vote 1 = true
  ∧ outcome (mkEnv 1 150) (UpdateCandidate 1 2 "Robert") after_vote
    = Some CannotModifyActiveSession.
Proof.
  split; [reflexivity|]. split; [vm_compute; reflexivity|].
  destruct (edits_need_inactive_session (mkEnv 1 150) after_vote
              (UpdateCandidate 1 2 "Robert") 1) as (Hact & _);
    [reflexivity|].
  rewrite Hact by (vm_compute; reflexivity). reflexivity.
Defined.

(** ** Removing a candidate *)

(** C8 as stated fails: a vote naming the removed candidate fails, but not
    always with a [ValidationError]; right after the removal the session is
    not active, and the vote of a registered voter is rejected with the
    [StateError] "Session not active". *)
Lemma vote_removed_candidate_counterexample :
  ¬ (∃ f, outcome (mkEnv 8 230) (Vote 1 1) (run late_voter after_removal)
          = Some f
          ∧ error_kind f = Some ValidationError).
Proof.
  intros (f & Hf & Hk). vm_compute in Hf. injection Hf as <-.
  discriminate Hk.
Qed.

(** C8, amended: a successful [removeCandidateFromSession] clears the
    active flag of the targeted candidate, which was set, and logs
    [CandidateRemoved]; the candidate's id, name and vote count, every
    other candidate, every other field of the session, its vote records,
    every other session, the registrations, [sessionCount] and the owner
    are as before.  After any further transactions the candidate still has
    the same vote count, and every vote naming it fails: with the
    [AuthError] "Not registered to vote" for an unregistered caller, else
    with the [StateError] "Session not active" when [isSessionActive]
    answers false, else with the [StateError] "Already voted in this
    session" when the caller has voted, and otherwise with the
    [ValidationError] "Candidate not active". *)
Theorem removeCandidate_spec env s sid cid s1 :
  removeCandidateFromSession sid cid env s = Ok (tt, s1) →
  cand_isActive (candidate_at (session_at s sid) cid) = true
  ∧ cand_isActive (candidate_at (session_at s1 sid) cid) = false
  ∧ cand_id (candidate_at (session_at s1 sid) cid)
    = cand_id (candidate_at (session_at s sid) cid)
  ∧ cand_name (candidate_at (session_at s1 sid) cid)
    = cand_name (candidate_at (session_at s sid) cid)
  ∧ voteCount (candidate_at (session_at s1 sid) cid)
    = voteCount (candidate_at (session_at s sid) cid)
  ∧ (∀ j, j ≠ cid →
       candidate_at (session_at s1 sid) j = candidate_at (session_at s sid) j)
  ∧ (sessionId (session_at s1 sid), sessionName (session_at s1 sid),
     startTime (session_at s1 sid), endTime (session_at s1 sid))
    = (sessionId (session_at s sid), sessionName (session_at s sid),
       startTime (session_at s sid), endTime (session_at s sid))
  ∧ (isActive (session_at s1 sid), isCreated (session_at s1 sid),
     candidateCount (session_at s1 sid), totalVotes (session_at s1 sid))
    = (isActive (session_at s sid), isCreated (session_at s sid),
       candidateCount (session_at s sid), totalVotes (session_at s sid))
  ∧ hasVoted (session_at s1 sid) = hasVoted (session_at s sid)
  ∧ voterChoice (session_at s1 sid) = voterChoice (session_at s sid)
  ∧ (∀ sid', sid' ≠ sid →
       votingSessions s1 !! sid' = votingSessions s !! sid')
  ∧ registeredVoters s1 = registeredVoters s
  ∧ sessionCount s1 = sessionCount s
  ∧ owner s1 = owner s
  ∧ events s1 = events s ++ [CandidateRemoved sid cid]
  ∧ ∀ txs env',
      voteCount (candidate_at (session_at (run txs s1) sid) cid)
      = voteCount (candidate_at (session_at s sid) cid)
      ∧ cand_isActive (candidate_at (session_at (run txs s1) sid) cid) = false
      ∧ ∃ b f,
          isSessionActive sid env' (run txs s1) = Ok (b, run txs s1)
          ∧ vote sid cid env' (run txs s1) = Err f
          ∧ transact env' (Vote sid cid) (run txs s1) = run txs s1
          ∧ (f, error_kind f)
            = if negb (registered (run txs s1) (msg_sender env')) then
                (NotRegistered, Some AuthError)
              else if negb b then
                (SessionNotActive_vote, Some StateError)
              else if voted (session_at (run txs s1) sid) (msg_sender env')
              then (AlreadyVoted, Some StateError)
              else (CandidateNotActive_vote, Some ValidationError).
Proof.
  intros Hrun. rewrite removeCandidateFromSession_run in Hrun.
  cbv zeta in Hrun.
  destruct (edit_guard env s sid) eqn:Hg; [done|].
  apply edit_guard_None in Hg as (_ & He & _).
  destruct ((0 <? cid) && (cid <=? candidateCount (session_at s sid)))
    eqn:Hrange; simpl in Hrun; [|done].
  destruct (cand_isActive (candidate_at (session_at s sid) cid)) eqn:Hact;
    simpl in Hrun; [|done].
  injection Hrun as <-.
  apply andb_true_iff in Hrange as [Hc1%N.ltb_lt Hc2%N.leb_le].
  destruct (session_exists_range _ _ He) as (Hpos & Hle & Hcr).
  assert (Hs1 : session_at (deactivate_state sid cid s) sid
    = set_candidate cid
        (set_cand_isActive false (candidate_at (session_at s sid) cid))
        (session_at s sid)) by apply session_at_put.
  assert (He1 : session_exists (deactivate_state sid cid s) sid = true).
  { unfold deactivate_state.
    change (session_exists (log_event ?e ?t) sid) with (session_exists t sid).
    by apply session_exists_put. }
  split; [done|]. rewrite Hs1, candidate_at_set_eq.
  do 4 (split; [done|]).
  split; [intros j Hj; by apply candidate_at_set_ne|].
  do 4 (split; [done|]).
  split; [intros sid' Hne; simpl; by rewrite lookup_insert_ne|].
  do 4 (split; [done|]).
  intros txs env'.
  pose proof (evolves_run txs (deactivate_state sid cid s)) as Hev.
  destruct (ev_exists _ _ Hev _ He1) as [He2 Hcc2].
  assert (Hfrozen : candidate_at (session_at (run txs
                      (deactivate_state sid cid s)) sid) cid
    = set_cand_isActive false (candidate_at (session_at s sid) cid)).
  { rewrite (ev_frozen _ _ Hev sid cid He1); rewrite Hs1.
    - apply candidate_at_set_eq.
    - done.
    - by rewrite candidate_at_set_eq. }
  rewrite Hfrozen. do 2 (split; [done|]).
  set (st := run txs (deactivate_state sid cid s)) in *.
  exists (session_active env' st sid).
  assert (Hvote : ∃ f, vote sid cid env' st = Err f
    ∧ (f, error_kind f)
      = if negb (registered st (msg_sender env')) then
          (NotRegistered, Some AuthError)
        else if negb (session_active env' st sid) then
          (SessionNotActive_vote, Some StateError)
        else if voted (session_at st sid) (msg_sender env')
        then (AlreadyVoted, Some StateError)
        else (CandidateNotActive_vote, Some ValidationError)).
  { rewrite vote_run. cbv zeta. rewrite Hfrozen.
    destruct (session_exists_range _ _ He2) as (Hpos2 & Hle2 & Hcr2).
    rewrite Hs1 in Hcc2. simpl in Hcc2.
    replace ((0 <? sid) && (sid <=? sessionCount st)) with true
      by (symmetry; apply andb_true_iff;
          split; [by apply N.ltb_lt | by apply N.leb_le]).
    fold st in Hcr2. rewrite Hcr2.
    replace ((0 <? cid) && (cid <=? candidateCount (session_at st sid)))
      with true
      by (symmetry; apply andb_true_iff;
          split; [by apply N.ltb_lt | apply N.leb_le; fold st in Hcc2; lia]).
    simpl.
    destruct (registered _ _); simpl; [|by eexists].
    destruct (session_active _ _ _); simpl; [|by eexists].
    destruct (voted _ _); by eexists. }
  destruct Hvote as (f & Hv & Hf). exists f.
  split; [apply isSessionActive_run|]. split; [done|]. split; [|done].
  unfold transact. simpl. by rewrite Hv.
Qed.

Lemma removeCandidate_spec_witness :
  removeCandidateFromSession 1 1 (mkEnv 1 210) before_removal
  = Ok (tt, after_removal)
  ∧ voteCount (candidate_at (session_at (run late_voter after_removal) 1) 1)
    = 1
  ∧ cand_isActive (candidate_at (session_at after_removal 1) 1) = false
  ∧ cand_name (candidate_at (session_at after_removal 1) 1)
    = cand_name (candidate_at (session_at before_removal 1) 1).
Proof.
  split; [vm_compute; reflexivity|].
  destruct (removeCandidate_spec (mkEnv 1 210) before_removal 1 1
              after_removal) as (_ & Hc & _ & Hn & _ & _ & _ & _ & _ & _
                                 & _ & _ & _ & _ & _ & Hlater).
  - vm_compute; reflexivity.
  - destruct (Hlater late_voter (mkEnv 8 230)) as [Hv _].
    split; [rewrite Hv; vm_compute; reflexivity|].
    split; [exact Hc | exact Hn].
Defined.

(** ** The winner *)

Lemma first_filtered_is_least (P : N → Prop) `{!∀ x, Decision (P x)} a k w :
  head (filter P (N.of_nat <$> seq a k)) = Some w →
  ∀ j, j ∈ filter P (N.of_nat <$> seq a k) → w ≤ j.
Proof.
  revert a. induction k as [|k IH]; intros a; csimpl; [done|].
  rewrite filter_cons. case_decide.
  - simpl. intros [= <-] j [->|Hj]%elem_of_cons; [lia|].
    apply list_elem_of_filter in Hj as [_ Hj].
    apply list_elem_of_fmap in Hj as (x & -> & Hx).
    apply elem_of_seq in Hx. lia.
  - apply IH.
Qed.

Lemma head_leaders_lowest v w :
  head (leaders v (ids_upto (candidateCount v))) = Some w →
  lowest_leader v w.
Proof.
  intros Hw. split; [by apply head_Some_elem_of|].
  revert Hw. unfold leaders, active_ids, ids_upto.
  rewrite list_filter_filter. apply first_filtered_is_least.
Qed.

Lemma max_votes_zero v l :
  (∀ i, i ∈ l → cand_isActive (candidate_at v i) = true → votes_of v i = 0) →
  max_votes v l = 0.
Proof.
  intros H. destruct (N.eq_0_gt_0_cases (max_votes v l)) as [?|Hpos]; [done|].
  destruct (maxl_attained _ _ Hpos) as (j & Hj & Hfj).
  apply list_elem_of_filter in Hj as [Hact Hj].
  rewrite (H j Hj Hact) in Hfj. unfold max_votes. by rewrite <- Hfj.
Qed.

Lemma Ok_fst_inj {A} (a b : A) (s t : State) :
  Ok (a, s) = Ok (b, t) → a = b.
Proof. by intros [= ->]. Qed.

(** C4 as stated fails: with votes cast and the only candidate that
    received votes deactivated, the active candidates all have zero votes;
    the lowest of them would be named with 0 votes, but the contract answers
    "No winner". *)
Lemma winner_without_positive_leader_counterexample :
  ¬ (totalVotes (session_at after_removal 1) ≠ 0 →
     ∃ r, getSessionWinner 1 (mkEnv 9 300) after_removal
          = Ok (r, after_removal)
          ∧ named_winner (session_at after_removal 1) r).
Proof.
  intros H.
  destruct H as (r & Hrun & w & [Hw _] & Hr); [vm_compute; discriminate|].
  rewrite getSessionWinner_run in Hrun by (vm_compute; reflexivity).
  apply Ok_fst_inj in Hrun. subst r.
  apply list_elem_of_filter in Hw as [_ Hw].
  apply list_elem_of_filter in Hw as [Hact Hw].
  apply elem_of_ids_upto in Hw.
  assert (Hcc : candidateCount (session_at after_removal 1) = 2)
    by (vm_compute; reflexivity).
  rewrite Hcc in Hw.
  assert (w = 1 ∨ w = 2) as [->| ->] by lia.
  - vm_compute in Hact. discriminate Hact.
  - vm_compute in Hr. discriminate Hr.
Qed.

(** C4, amended: for an existing session with fewer than [2^256 - 1]
    candidates, [getSessionWinner] returns ("No votes cast", 0, false) when
    [totalVotes] is 0; when [totalVotes] is positive and some active
    candidate has a positive vote count, it returns the name of the
    lowest-id active candidate whose vote count is the maximum among the
    active candidates, that maximum, and the tie flag, which is set iff at
    least two active candidates share the maximum. *)
Theorem getSessionWinner_spec env s sid :
  session_exists s sid = true →
  candidateCount (session_at s sid) < max_uint256 →
  (totalVotes (session_at s sid) = 0 →
   getSessionWinner sid env s = Ok (("No votes cast"%string, 0, false), s))
  ∧ (totalVotes (session_at s sid) ≠ 0 →
     0 < max_votes (session_at s sid)
           (ids_upto (candidateCount (session_at s sid))) →
     ∃ r, getSessionWinner sid env s = Ok (r, s)
          ∧ named_winner (session_at s sid) r).
Proof.
  intros He Hcc. rewrite getSessionWinner_run by done.
  unfold winner_of. split.
  - intros ->. done.
  - intros Hne Hpos. apply N.eqb_neq in Hne. rewrite Hne.
    unfold scan_result.
    replace (max_votes (session_at s sid)
               (ids_upto (candidateCount (session_at s sid))) =? 0)
      with false by (symmetry; apply N.eqb_neq; lia).
    pose proof (leaders_nonempty _ _ Hpos) as Hnil.
    destruct (leaders (session_at s sid)
                (ids_upto (candidateCount (session_at s sid))))
      as [|w rest] eqn:HL; [done|].
    assert (Hlow : lowest_leader (session_at s sid) w)
      by (apply head_leaders_lowest; by rewrite HL).
    assert (Hw : 0 < w).
    { destruct Hlow as [Hin _].
      apply list_elem_of_filter in Hin as [_ Hin].
      apply list_elem_of_filter in Hin as [_ Hin].
      apply elem_of_ids_upto in Hin. lia. }
    simpl. replace (0 <? w) with true by (symmetry; by apply N.ltb_lt).
    eexists. split; [done|]. exists w. split; [done|].
    do 2 f_equal. unfold tied. rewrite HL. simpl.
    destruct rest as [|w' rest'].
    + rewrite bool_decide_eq_false_2; [done|]. simpl. lia.
    + rewrite bool_decide_eq_true_2; [|simpl; lia].
      apply N.ltb_lt. simpl. lia.
Qed.

Lemma getSessionWinner_spec_witness :
  session_exists after_vote 1 = true
  ∧ candidateCount (session_at after_vote 1) < max_uint256
  ∧ ∃ r, getSessionWinner 1 (mkEnv 9 200) after_vote = Ok (r, after_vote)
         ∧ named_winner (session_at after_vote 1) r.
Proof.
  split; [vm_compute; reflexivity|].
  split; [vm_compute; reflexivity|].
  destruct (getSessionWinner_spec (mkEnv 9 200) after_vote 1) as [_ Hpos];
    [vm_compute; reflexivity | vm_compute; reflexivity |].
  apply Hpos; [vm_compute; discriminate | vm_compute; reflexivity].
Defined.

(** C10: for an existing session (with fewer than [2^256 - 1] candidates)
    whose [totalVotes] is positive while no active candidate has a positive
    vote count, [getSessionWinner] returns ("No winner", 0, false). *)
Theorem getSessionWinner_no_winner env s sid :
  session_exists s sid = true →
  candidateCount (session_at s sid) < max_uint256 →
  0 < totalVotes (session_at s sid) →
  (∀ i, 1 ≤ i → i ≤ candidateCount (session_at s sid) →
        cand_isActive (candidate_at (session_at s sid) i) = true →
        voteCount (candidate_at (session_at s sid) i) = 0) →
  getSessionWinner sid env s = Ok (("No winner"%string, 0, false), s).
Proof.
  intros He Hcc Htv Hzero. rewrite getSessionWinner_run by done.
  unfold winner_of, scan_result.
  replace (totalVotes (session_at s sid) =? 0) with false
    by (symmetry; apply N.eqb_neq; lia).
  rewrite max_votes_zero; [done|].
  intros i Hi%elem_of_ids_upto Hact. apply Hzero; [lia | lia | done].
Qed.

Lemma getSessionWinner_no_winner_witness :
  session_exists after_removal 1 = true
  ∧ totalVotes (session_at after_removal 1) = 1
  ∧ getSessionWinner 1 (mkEnv 9 300) after_removal
    = Ok (("No winner"%string, 0, false), after_removal).
Proof.
  split; [vm_compute; reflexivity|].
  split; [vm_compute; reflexivity|].
  apply (getSessionWinner_no_winner (mkEnv 9 300) after_removal 1).
  - vm_compute; reflexivity.
  - vm_compute; reflexivity.
  - vm_compute; reflexivity.
  - intros i H1 H2 Hact.
    assert (Hcc : candidateCount (session_at after_removal 1) = 2)
      by (vm_compute; reflexivity).
    rewrite Hcc in H2.
    assert (i = 1 ∨ i = 2) as [->| ->] by lia.
    + vm_compute in Hact. discriminate Hact.
    + vm_compute; reflexivity.
Defined.

(** * Further properties of the contract *)

(** ** Loops *)

Lemma for_ids_inv {A} (body : N → A → M A) (step : A → N → A)
    (Inv : list N → A → Prop) ids acc env s :
  (∀ i rest a, Inv (i :: rest) a →
     body i a env s = Ok (step a i, s) ∧ i < max_uint256
     ∧ Inv rest (step a i)) →
  Inv ids acc →
  for_ids ids body acc env s = Ok (foldl step acc ids, s).
Proof.
  intros Hstep. revert acc. induction ids as [|i rest IH]; intros acc Hinv.
  - done.
  - destruct (Hstep i rest acc Hinv) as (Hbody & Hi & Hnext).
    simpl. cbv beta iota delta [mbind M_bind]. rewrite Hbody.
    unfold checked_incr.
    replace (i <? max_uint256) with true by (symmetry; by apply N.ltb_lt).
    simpl. by apply IH.
Qed.

Lemma count_step_filter (P : N → bool) ids c :
  foldl (count_step P) c ids
  = c + N.of_nat (length (filter (λ i, P i = true) ids)).
Proof.
  revert c. induction ids as [|i rest IH]; intros c; simpl; [lia|].
  rewrite IH. unfold count_step. destruct (P i) eqn:Hi.
  - rewrite filter_cons_True by done. simpl. lia.
  - rewrite filter_cons_False by (by rewrite Hi). lia.
Qed.

Lemma fill_step_filter {A} (P : N → bool) (g : N → A) (z : A) ids pre k :
  (length (filter (λ i, P i = true) ids) ≤ k)%nat →
  foldl (fill_step P g) (pre ++ replicate k z, N.of_nat (length pre)) ids
  = (pre ++ (g <$> filter (λ i, P i = true) ids)
       ++ replicate (k - length (filter (λ i, P i = true) ids)) z,
     N.of_nat (length pre)
     + N.of_nat (length (filter (λ i, P i = true) ids))).
Proof.
  revert pre k. induction ids as [|i rest IH]; intros pre k Hk; simpl.
  - rewrite Nat.sub_0_r, N.add_0_r. done.
  - unfold fill_step at 2. simpl. destruct (P i) eqn:Hi.
    + rewrite filter_cons_True in * by done. simpl in *.
      destruct k as [|k]; [lia|].
      rewrite Nat2N.id. simpl.
      replace (<[length pre := g i]> (pre ++ z :: replicate k z))
        with ((pre ++ [g i]) ++ replicate k z).
      2:{ rewrite insert_app_r_alt by lia. rewrite Nat.sub_diag. simpl.
          by rewrite <- app_assoc. }
      replace (N.of_nat (length pre) + 1)
        with (N.of_nat (length (pre ++ [g i])))
        by (rewrite length_app; simpl; lia).
      rewrite IH by lia. rewrite <- app_assoc. simpl.
      f_equal. rewrite length_app. simpl. lia.
    + rewrite filter_cons_False in * by (by rewrite Hi). by apply IH.
Qed.

Lemma length_ids_upto n : length (ids_upto n) = N.to_nat n.
Proof. unfold ids_upto. by rewrite length_fmap, length_seq. Qed.

Lemma two_pass_listing {A} (P : N → bool) (g : N → A) (z : A)
    (cbody : N → N → M N) (fbody : N → list A * N → M (list A * N))
    n env s :
  n < max_uint256 →
  (∀ i c, c < max_uint256 → cbody i c env s = Ok (count_step P c i, s)) →
  (∀ i acc,
     (P i = true →
      acc.2 < N.of_nat (length acc.1)
      ∧ N.of_nat (length acc.1) ≤ max_uint256) →
     fbody i acc env s = Ok (fill_step P g acc i, s)) →
  (activeCount ← for_1_to n cbody 0;
   r ← for_1_to n fbody (replicate (N.to_nat activeCount) z, 0);
   mret r.1) env s
  = Ok (g <$> filter (λ i, P i = true) (ids_upto n), s).
Proof.
  intros Hn Hc Hf. cbv beta iota delta [mbind M_bind]. unfold for_1_to.
  assert (Hids : ∀ i, i ∈ ids_upto n → i < max_uint256)
    by (intros i Hi%elem_of_ids_upto; lia).
  pose proof (length_ids_upto n) as Hlen.
  rewrite (for_ids_inv cbody (count_step P)
             (λ rest c, (∀ i, i ∈ rest → i < max_uint256)
                        ∧ c + N.of_nat (length rest) ≤ max_uint256)).
  2:{ intros i rest c [Hr Hb]. simpl in Hb. split; [apply Hc; lia|].
      split; [apply Hr; left|]. split.
      - intros k Hk. apply Hr. by right.
      - unfold count_step. destruct (P i); lia. }
  2:{ split; [done|]. lia. }
  rewrite count_step_filter, N.add_0_l, Nat2N.id.
  set (m := length (filter (λ i, P i = true) (ids_upto n))).
  assert (Hm : (m ≤ length (ids_upto n))%nat) by apply length_filter.
  rewrite (for_ids_inv fbody (fill_step P g)
             (λ rest acc,
                (∀ i, i ∈ rest → i < max_uint256)
                ∧ acc.2 + N.of_nat (length (filter (λ i, P i = true) rest))
                  ≤ N.of_nat (length acc.1)
                ∧ N.of_nat (length acc.1) ≤ max_uint256)).
  - pose proof (fill_step_filter P g z (ids_upto n) [] m (Nat.le_refl _))
      as Hfill.
    change (foldl (fill_step P g) (replicate m z, 0) (ids_upto n)
            = ((g <$> filter (λ i, P i = true) (ids_upto n))
                 ++ replicate (m - m) z, 0 + N.of_nat m)) in Hfill.
    rewrite Hfill, Nat.sub_diag. simpl. by rewrite app_nil_r.
  - intros i rest [arr idx] (Hr & Hb & Hl). simpl in *.
    split; [|split; [apply Hr; left|]].
    + apply Hf. intros Hi. simpl.
      rewrite filter_cons_True in Hb by done. simpl in Hb. lia.
    + split; [intros k Hk; apply Hr; by right|].
      unfold fill_step. simpl. destruct (P i) eqn:Hi; simpl.
      * rewrite filter_cons_True in Hb by done. simpl in Hb.
        rewrite length_insert. lia.
      * rewrite filter_cons_False in Hb by (by rewrite Hi). lia.
  - simpl. rewrite length_replicate. fold m. split; [done|]. lia.
Qed.

Lemma array_store_run {A} (arr : list A) i x env s :
  i < N.of_nat (length arr) →
  array_store arr i x env s = Ok (<[N.to_nat i := x]> arr, s).
Proof.
  intros Hi. unfold array_store.
  by replace (i <? N.of_nat (length arr)) with true
    by (symmetry; by apply N.ltb_lt).
Qed.

Lemma checked_incr_run x env s :
  x < max_uint256 → checked_incr x env s = Ok (x + 1, s).
Proof.
  intros Hx. unfold checked_incr.
  by replace (x <? max_uint256) with true by (symmetry; by apply N.ltb_lt).
Qed.

Lemma bind_gets {A B} (h : State → A) (k : A → M B) env s :
  (x ← gets h; k x) env s = k (h s) env s.
Proof. done. Qed.

Lemma bind_run {A B} (m : M A) (k : A → M B) env s :
  (m ≫= k) env s
  = match m env s with
    | Ok (a, s') => k a env s'
    | Err f => Err f
    end.
Proof. done. Qed.

Lemma getAllActiveSessions_run env s :
  sessionCount s < max_uint256 →
  getAllActiveSessions env s
  = Ok (filter (λ i, session_active env s i = true)
          (ids_upto (sessionCount s)), s).
Proof.
  intros Hn. unfold getAllActiveSessions. rewrite bind_gets.
  rewrite <- (list_fmap_id (filter _ _)).
  apply (two_pass_listing (session_active env s) id 0); [done|..].
  - intros i c Hc. cbv beta iota delta [mbind M_bind].
    rewrite isSessionActive_run. unfold count_step.
    destruct (session_active env s i); [by apply checked_incr_run | done].
  - intros i [arr idx] Hb. cbv beta iota delta [mbind M_bind].
    rewrite isSessionActive_run. unfold fill_step. simpl in *.
    destruct (session_active env s i); [|done].
    destruct Hb as [Hi Hl]; [done|].
    rewrite array_store_run by done. by rewrite checked_incr_run by lia.
Qed.

Lemma getSessionCandidates_run sid env s :
  session_exists s sid = true →
  candidateCount (session_at s sid) < max_uint256 →
  getSessionCandidates sid env s
  = Ok (candidate_at (session_at s sid)
          <$> active_ids (session_at s sid)
                (ids_upto (candidateCount (session_at s sid))), s).
Proof.
  intros He Hn. destruct (session_exists_range _ _ He) as (Hpos & Hle & Hcr).
  unfold getSessionCandidates. rewrite bind_run, sessionExists_run.
  replace ((0 <? sid) && (sid <=? sessionCount s)) with true
    by (symmetry; apply andb_true_iff;
        split; [by apply N.ltb_lt | by apply N.leb_le]).
  rewrite Hcr, bind_gets. unfold active_ids.
  apply (two_pass_listing
           (λ i, cand_isActive (candidate_at (session_at s sid) i))
           (candidate_at (session_at s sid)) zeroCandidate); [done|..].
  - intros i c Hc. unfold count_step.
    destruct (cand_isActive _); [by apply checked_incr_run | done].
  - intros i [arr idx] Hb. unfold fill_step. simpl in *.
    destruct (cand_isActive _); [|done].
    destruct Hb as [Hi Hl]; [done|].
    cbv beta iota delta [mbind M_bind].
    rewrite array_store_run by done. by rewrite checked_incr_run by lia.
Qed.

Lemma store_ids_fold pre k :
  foldl (λ arr i, <[N.to_nat (i - 1) := i]> arr) (pre ++ replicate k 0)
    (N.of_nat <$> seq (S (length pre)) k)
  = pre ++ (N.of_nat <$> seq (S (length pre)) k).
Proof.
  revert pre. induction k as [|k IH]; intros pre; csimpl.
  - done.
  - rewrite insert_app_r_alt by lia.
    replace (N.to_nat (N.of_nat (S (length pre)) - 1) - length pre)%nat
      with 0%nat by lia.
    simpl insert.
    replace (pre ++ N.of_nat (S (length pre)) :: replicate k 0)
      with ((pre ++ [N.of_nat (S (length pre))]) ++ replicate k 0)
      by (by rewrite <- app_assoc).
    specialize (IH (pre ++ [N.of_nat (S (length pre))])).
    rewrite length_app in IH. simpl in IH.
    rewrite Nat.add_1_r in IH. rewrite IH.
    by rewrite <- app_assoc.
Qed.

Lemma getAllSessions_run env s :
  sessionCount s < max_uint256 →
  getAllSessions env s = Ok (ids_upto (sessionCount s), s).
Proof.
  intros Hn. unfold getAllSessions. rewrite bind_gets. unfold for_1_to.
  rewrite (for_ids_inv _ (λ arr i, <[N.to_nat (i - 1) := i]> arr)
             (λ rest arr, length arr = N.to_nat (sessionCount s)
                          ∧ ∀ i, i ∈ rest → 1 ≤ i ∧ i ≤ sessionCount s)).
  - pose proof (store_ids_fold [] (N.to_nat (sessionCount s))) as Hfold.
    simpl in Hfold. unfold ids_upto. by rewrite Hfold.
  - intros i rest arr [Hl Hr]. destruct (Hr i ltac:(left)) as [Hi1 Hi2].
    split; [|split; [lia|]].
    + cbv beta iota delta [mbind M_bind]. unfold checked_decr.
      replace (0 <? i) with true by (symmetry; apply N.ltb_lt; lia).
      simpl. apply array_store_run. lia.
    + rewrite length_insert. split; [done|].
      intros k Hk. apply Hr. by right.
  - rewrite length_replicate. split; [done|].
    intros i. apply elem_of_ids_upto.
Qed.

(** ** Well-formedness is kept *)

Lemma wf_log_event e s :
  is_created_event e = false → wellformed s → wellformed (log_event e s).
Proof.
  intros He [H1 H2 H3]. split; try done.
  simpl. rewrite List.filter_app, length_app. simpl. rewrite He. simpl.
  rewrite Nat.add_0_r. done.
Qed.

Lemma wf_put s sid v' :
  wellformed s → 1 ≤ sid → sid ≤ sessionCount s → session_wf sid v' →
  wellformed (put_session sid v' s).
Proof.
  intros [H1 H2 H3] Hpos Hle Hv. split; try done.
  intros sid' Hp Hl. destruct (decide (sid = sid')) as [<-|Hne].
  - by rewrite session_at_put.
  - rewrite session_at_put_ne by done. by apply H1.
Qed.

Lemma wf_register a s : wellformed s → wellformed (register_state a s).
Proof.
  intros [H1 H2 H3]. apply wf_log_event; [done|]. split; try done.
  unfold registered, put_registered in *. simpl.
  destruct (decide (a = owner s)) as [->|Hne].
  - by rewrite lookup_insert_eq.
  - by rewrite lookup_insert_ne.
Qed.

Lemma wf_register_all voters s :
  wellformed s → wellformed (register_all voters s).
Proof.
  revert s. induction voters as [|a rest IH]; intros s Hs; [done|].
  simpl. apply IH.
  destruct (negb (registered s a) && negb (a =? 0)); [|done].
  by apply wf_register.
Qed.

Lemma session_wf_add_candidate sid name v :
  nonempty name = true → session_wf sid v →
  session_wf sid (add_candidate_session name v).
Proof.
  intros Hn (Hcr & Hid & Ht & Hnm & Hcc & Hcand & Hch).
  unfold session_wf. split_and!; try done; simpl.
  - lia.
  - intros cid Hc1 Hc2. unfold candidate_at. simpl.
    destruct (decide (cid = candidateCount v + 1)) as [->|Hne].
    + by rewrite lookup_insert_eq.
    + rewrite lookup_insert_ne by done. apply Hcand; [done | lia].
  - intros a Ha. change (voted v a = true) in Ha.
    change (choice (add_candidate_session name v) a) with (choice v a).
    destruct (Hch a Ha). split; [done | lia].
Qed.

Lemma session_wf_set_candidate sid cid c v :
  cand_id c = cand_id (candidate_at v cid) →
  nonempty (cand_name c) = true →
  session_wf sid v → session_wf sid (set_candidate cid c v).
Proof.
  intros Hid' Hn (Hcr & Hid & Ht & Hnm & Hcc & Hcand & Hch).
  unfold session_wf. split_and!; try done; simpl.
  intros k Hk1 Hk2. destruct (decide (k = cid)) as [->|Hne].
  - rewrite candidate_at_set_eq, Hid'. split; [by apply Hcand | done].
  - rewrite candidate_at_set_ne by done. by apply Hcand.
Qed.

Lemma session_wf_set_isActive sid b v :
  session_wf sid v → session_wf sid (set_isActive b v).
Proof. intros H. exact H. Qed.

Lemma session_wf_vote sid caller cid v :
  1 ≤ cid → cid ≤ candidateCount v → voted v caller = false →
  session_wf sid v → session_wf sid (vote_session caller cid v).
Proof.
  intros Hc1 Hc2 Hv (Hcr & Hid & Ht & Hnm & Hcc & Hcand & Hch).
  unfold session_wf. split_and!; try done; simpl.
  - intros k Hk1 Hk2.
    assert (Hk : candidate_at (vote_session caller cid v) k
                 = if decide (cid = k)
                   then set_voteCount (voteCount (candidate_at v cid) + 1)
                          (candidate_at v cid)
                   else candidate_at v k).
    { unfold candidate_at at 1. simpl. case_decide as Hd.
      - subst. by rewrite lookup_insert_eq.
      - by rewrite lookup_insert_ne. }
    rewrite Hk. case_decide as Hd; [subst; simpl|]; by apply Hcand.
  - intros a. rewrite voted_vote. unfold choice. simpl.
    destruct (decide (a = caller)) as [->|Hne].
    + rewrite lookup_insert_eq. simpl. done.
    + rewrite lookup_insert_ne by done. apply Hch.
Qed.

Lemma add_names_frame sid names s :
  hasVoted (session_at (add_names sid names s) sid)
  = hasVoted (session_at s sid)
  ∧ registeredVoters (add_names sid names s) = registeredVoters s
  ∧ List.filter is_created_event (events (add_names sid names s))
    = List.filter is_created_event (events s)
  ∧ ∀ sid', sid' ≠ sid →
      session_at (add_names sid names s) sid' = session_at s sid'.
Proof.
  revert s. induction names as [|name rest IH]; intros s; [done|].
  simpl. destruct (IH (add_candidate_state sid name s)) as (H1 & H2 & H3 & H4).
  rewrite H1, H2, H3, session_at_add_candidate. simpl.
  repeat split; try done.
  - rewrite List.filter_app. simpl. by rewrite app_nil_r.
  - intros sid' Hne. rewrite H4 by done. unfold add_candidate_state.
    change (session_at (log_event ?e ?t) sid') with (session_at t sid').
    by rewrite session_at_put_ne.
Qed.

Lemma wf_create name st et names s :
  invariant s → wellformed s →
  st < et → nonempty name = true → names ≠ [] →
  forallb nonempty names = true →
  wellformed
    (log_event (SessionCreated (sessionCount s + 1) name st et)
       (add_names (sessionCount s + 1) names (create_base name st et s))).
Proof.
  intros Hinv [H1 H2 H3] Ht Hn Hne Hall.
  set (n := sessionCount s + 1).
  destruct (add_names_spec n names (create_base name st et s))
    as (Hcc & Hid & Hfl & Hsc & Hown & _ & Hnew).
  destruct (add_names_frame n names (create_base name st et s))
    as (Hhv & Hreg & Hev & Hother).
  unfold n in *. rewrite session_at_create_base in *. simpl in *.
  injection Hid as Hid1 Hid2 Hid3 Hid4. injection Hfl as Hfl1 Hfl2 Hfl3.
  assert (Hz : session_at s (sessionCount s + 1) = zeroSession)
    by (apply session_at_fresh; [done | lia]).
  split.
  - intros sid Hp Hl.
    change (session_at (log_event ?e ?t) sid) with (session_at t sid).
    change (sessionCount (log_event ?e ?t)) with (sessionCount t) in Hl.
    rewrite Hsc in Hl.
    destruct (decide (sid = sessionCount s + 1)) as [->|Hne'].
    + unfold session_wf. split_and!; try congruence.
      * rewrite Hcc. destruct names; [done | simpl; lia].
      * intros cid Hc1 Hc2. rewrite Hcc in Hc2.
        assert (Hi : (N.to_nat (cid - 1) < length names)%nat) by lia.
        apply lookup_lt_is_Some_2 in Hi as [nm Hnm].
        specialize (Hnew _ _ Hnm).
        replace (0 + N.of_nat (N.to_nat (cid - 1)) + 1) with cid in Hnew
          by lia.
        rewrite Hnew. simpl. split; [done|].
        rewrite forallb_forall in Hall. apply Hall.
        apply list_elem_of_In. by eapply list_elem_of_lookup_2.
      * intros a Ha. unfold voted in Ha. rewrite Hhv, Hz in Ha. done.
    + rewrite Hother by done. unfold create_base.
      rewrite session_at_put_ne by done. apply H1; [done | lia].
  - change (registered (log_event ?e ?t) ?a) with (registered t a).
    change (owner (log_event ?e ?t)) with (owner t).
    rewrite Hown. unfold registered. rewrite Hreg. apply H2.
  - simpl. rewrite List.filter_app, length_app, Hev. simpl.
    rewrite Hsc. rewrite <- H3. lia.
Qed.

Lemma wf_constructor deployer : wellformed (constructor deployer).
Proof.
  split; try done.
  - intros sid Hp Hl. simpl in Hl. lia.
  - unfold registered. simpl. by rewrite lookup_singleton_eq.
Qed.

Lemma wf_transact env c s :
  invariant s → wellformed s → wellformed (transact env c s).
Proof.
  intros Hinv Hs. unfold transact.
  destruct (dispatch c env s) as [[[] s']|f] eqn:Hrun; [|done].
  destruct c as [name st et names|sid name|sid cid newName|sid cid|sid|sid
                |a|voters| |sid cid]; simpl in Hrun.
  - cbv beta iota delta [mbind M_bind] in Hrun.
    rewrite createSession_run in Hrun.
    destruct (negb _); [done|].
    destruct (st <? et) eqn:Ht; [|done]. simpl in Hrun.
    destruct (0 <? N.of_nat (length names)) eqn:Hl; [|done]. simpl in Hrun.
    destruct (nonempty name) eqn:Hn; [|done]. simpl in Hrun.
    destruct (negb _); [done|].
    destruct (add_candidates _ _ _ _) as [[[] s2]|f] eqn:Hadd; [|done].
    apply add_candidates_Ok in Hadd as [Hall ->]. simpl in Hrun.
    injection Hrun as <-.
    apply wf_create; try done.
    + by apply N.ltb_lt.
    + intros ->. done.
  - rewrite addCandidateToSession_run in Hrun.
    destruct (edit_guard env s sid) eqn:Hg; [done|].
    apply edit_guard_None in Hg as (_ & He & _).
    destruct (session_exists_range _ _ He) as (Hpos & Hle & Hcr).
    destruct (nonempty name) eqn:Hn; [|done]. simpl in Hrun.
    destruct (negb _); [done|]. injection Hrun as <-.
    apply wf_log_event; [done|]. apply wf_put; [done | lia | done |].
    apply session_wf_add_candidate; [done|].
    apply (wf_sessions s Hs); [lia | done].
  - rewrite updateCandidate_run in Hrun. cbv zeta in Hrun.
    destruct (edit_guard env s sid) eqn:Hg; [done|].
    apply edit_guard_None in Hg as (_ & He & _).
    destruct (session_exists_range _ _ He) as (Hpos & Hle & Hcr).
    destruct (nonempty newName) eqn:Hn; [|done]. simpl in Hrun.
    destruct (negb _); [done|]. destruct (negb _); [done|].
    injection Hrun as <-.
    apply wf_log_event; [done|]. apply wf_put; [done | lia | done |].
    apply session_wf_set_candidate; [done | done |].
    apply (wf_sessions s Hs); [lia | done].
  - rewrite removeCandidateFromSession_run in Hrun. cbv zeta in Hrun.
    destruct (edit_guard env s sid) eqn:Hg; [done|].
    apply edit_guard_None in Hg as (_ & He & _).
    destruct (session_exists_range _ _ He) as (Hpos & Hle & Hcr).
    destruct ((0 <? cid) && (cid <=? candidateCount (session_at s sid)))
      eqn:Hrange; [|done]. simpl in Hrun.
    destruct (negb _); [done|]. injection Hrun as <-.
    apply andb_true_iff in Hrange as [Hc1%N.ltb_lt Hc2%N.leb_le].
    pose proof (wf_sessions s Hs sid ltac:(lia) Hle) as Hwf.
    apply wf_log_event; [done|]. apply wf_put; [done | lia | done |].
    apply session_wf_set_candidate; [done | | done]. simpl.
    destruct Hwf as (_ & _ & _ & _ & _ & Hcand & _).
    apply Hcand; [lia | done].
  - rewrite startSession_run in Hrun. cbv zeta in Hrun.
    destruct (negb _); [done|].
    destruct ((0 <? sid) && (sid <=? sessionCount s)) eqn:Hr; [|done].
    simpl in Hrun. repeat (destruct (negb _) in Hrun; [done|]).
    destruct (isActive (session_at s sid)); [done|].
    repeat (destruct (negb _) in Hrun; [done|]). injection Hrun as <-.
    apply andb_true_iff in Hr as [Hpos%N.ltb_lt Hle%N.leb_le].
    apply wf_log_event; [done|]. apply wf_put; [done | lia | done |].
    apply session_wf_set_isActive, (wf_sessions s Hs); [lia | done].
  - rewrite endSession_run in Hrun. cbv zeta in Hrun.
    destruct (negb _); [done|].
    destruct ((0 <? sid) && (sid <=? sessionCount s)) eqn:Hr; [|done].
    simpl in Hrun. repeat (destruct (negb _) in Hrun; [done|]).
    injection Hrun as <-.
    apply andb_true_iff in Hr as [Hpos%N.ltb_lt Hle%N.leb_le].
    apply wf_log_event; [done|]. apply wf_put; [done | lia | done |].
    apply session_wf_set_isActive, (wf_sessions s Hs); [lia | done].
  - rewrite registerVoter_run in Hrun.
    destruct (negb _); [done|]. destruct (a =? 0); [done|].
    destruct (registered s a); [done|]. injection Hrun as <-.
    by apply wf_register.
  - rewrite registerMultipleVoters_run in Hrun.
    destruct (negb _); [done|]. injection Hrun as <-.
    by apply wf_register_all.
  - rewrite registerSelf_run in Hrun.
    destruct (registered s (msg_sender env)); [done|]. injection Hrun as <-.
    by apply wf_register.
  - rewrite vote_run in Hrun. cbv zeta in Hrun.
    destruct ((0 <? sid) && (sid <=? sessionCount s)) eqn:Hr; [|done].
    simpl in Hrun. repeat (destruct (negb _) in Hrun; [done|]).
    destruct (voted (session_at s sid) (msg_sender env)) eqn:Hv; [done|].
    destruct ((0 <? cid) && (cid <=? candidateCount (session_at s sid)))
      eqn:Hrange; [|done]. simpl in Hrun.
    repeat (destruct (negb _) in Hrun; [done|]). injection Hrun as <-.
    apply andb_true_iff in Hr as [Hpos%N.ltb_lt Hle%N.leb_le].
    apply andb_true_iff in Hrange as [Hc1%N.ltb_lt Hc2%N.leb_le].
    apply wf_log_event; [done|]. apply wf_put; [done | lia | done |].
    apply session_wf_vote; [lia | done | done |].
    apply (wf_sessions s Hs); [lia | done].
Qed.

Lemma reachable_wellformed s : reachable s → wellformed s.
Proof.
  induction 1 as [deployer|env c s Hr IH].
  - apply wf_constructor.
  - apply wf_transact; [by apply reachable_invariant | done].
Qed.

(** ** Starting a session *)

Lemma exists_range_true s sid :
  session_exists s sid = true →
  (0 <? sid) && (sid <=? sessionCount s) = true
  ∧ isCreated (session_at s sid) = true.
Proof. unfold session_exists. by intros [? ?]%andb_true_iff. Qed.

Lemma startSession_owner env s sid :
  msg_sender env = owner s → session_exists s sid = true →
  startSession sid env s
  = if isActive (session_at s sid) then Err SessionAlreadyActive
    else if negb (startTime (session_at s sid) <=? block_timestamp env)
    then Err StartTimeNotReached
    else if negb (block_timestamp env <? endTime (session_at s sid))
    then Err EndTimePassed
    else Ok (tt, log_event (SessionStarted sid)
                   (put_session sid
                      (set_isActive true (session_at s sid)) s)).
Proof.
  intros Ho He. destruct (exists_range_true _ _ He) as [Hr Hcr].
  rewrite startSession_run. cbv zeta.
  by rewrite Ho, N.eqb_refl, Hr, Hcr.
Qed.

(** X1: called by the owner on an existing session, [startSession]
    succeeds exactly when the stored flag is clear and
    [startTime <= now < endTime]; the session is then active at that very
    timestamp, and one [SessionStarted] event is logged. *)
Theorem startSession_opens_session env s sid :
  msg_sender env = owner s → session_exists s sid = true →
  (outcome env (StartSession sid) s = None
   ↔ isActive (session_at s sid) = false
     ∧ startTime (session_at s sid) ≤ block_timestamp env
     ∧ block_timestamp env < endTime (session_at s sid))
  ∧ (outcome env (StartSession sid) s = None →
     session_active env (transact env (StartSession sid) s) sid = true
     ∧ events (transact env (StartSession sid) s)
       = events s ++ [SessionStarted sid]).
Proof.
  intros Ho He. destruct (session_exists_range _ _ He) as (Hpos & Hle & Hcr).
  unfold outcome, transact. simpl. rewrite startSession_owner by done.
  destruct (isActive (session_at s sid)) eqn:Hact; simpl.
  { split; [split; [done | by intros [? _]] | done]. }
  destruct (startTime (session_at s sid) <=? block_timestamp env) eqn:Hst;
    simpl.
  2:{ apply N.leb_gt in Hst. split; [split; [done | lia] | done]. }
  destruct (block_timestamp env <? endTime (session_at s sid)) eqn:Het;
    simpl.
  2:{ apply N.ltb_ge in Het. split; [split; [done | lia] | done]. }
  apply N.leb_le in Hst. apply N.ltb_lt in Het.
  split; [split; [done | done]|]. intros _. split; [|done].
  unfold session_active.
  change (session_at (log_event ?e ?t) sid) with (session_at t sid).
  change (sessionCount (log_event ?e (put_session ?i ?w ?t)))
    with (sessionCount t).
  rewrite session_at_put. simpl. rewrite Hcr.
  replace (sid =? 0) with false by (symmetry; apply N.eqb_neq; lia).
  replace (sid <=? sessionCount s) with true by (symmetry; by apply N.leb_le).
  replace (startTime (session_at s sid) <=? block_timestamp env) with true
    by (symmetry; by apply N.leb_le).
  replace (block_timestamp env <=? endTime (session_at s sid)) with true
    by (symmetry; apply N.leb_le; lia).
  done.
Qed.

Lemma startSession_opens_session_witness :
  msg_sender (mkEnv 1 100) = owner after_create
  ∧ session_exists after_create 1 = true
  ∧ session_active (mkEnv 1 100)
      (transact (mkEnv 1 100) (StartSession 1) after_create) 1 = true.
Proof.
  split; [reflexivity|]. split; [vm_compute; reflexivity|].
  destruct (startSession_opens_session (mkEnv 1 100) after_create 1)
    as [_ Hopen]; [reflexivity | vm_compute; reflexivity |].
  apply Hopen. vm_compute; reflexivity.
Defined.

(** X2: the two window tests differ at the upper end.  At
    [now = endTime] the owner can no longer start a session whose start time
    has come ("Session end time passed"), while a session started before is
    still active at that timestamp. *)
Theorem window_end_is_asymmetric env s sid :
  msg_sender env = owner s → session_exists s sid = true →
  block_timestamp env = endTime (session_at s sid) →
  startTime (session_at s sid) ≤ endTime (session_at s sid) →
  (isActive (session_at s sid) = false →
   outcome env (StartSession sid) s = Some EndTimePassed)
  ∧ (isActive (session_at s sid) = true →
     session_active env s sid = true).
Proof.
  intros Ho He Hnow Hwin.
  destruct (session_exists_range _ _ He) as (Hpos & Hle & Hcr). split.
  - intros Hact. unfold outcome. simpl.
    rewrite startSession_owner, Hact, Hnow by done.
    replace (startTime (session_at s sid) <=? endTime (session_at s sid))
      with true by (symmetry; by apply N.leb_le).
    by rewrite N.ltb_irrefl.
  - intros Hact. unfold session_active. rewrite Hcr, Hact, Hnow.
    replace (sid =? 0) with false by (symmetry; apply N.eqb_neq; lia).
    replace (sid <=? sessionCount s) with true
      by (symmetry; by apply N.leb_le).
    replace (startTime (session_at s sid) <=? endTime (session_at s sid))
      with true by (symmetry; by apply N.leb_le).
    by rewrite N.leb_refl.
Qed.

Lemma window_end_is_asymmetric_witness :
  outcome (mkEnv 1 3700) (StartSession 1) after_create = Some EndTimePassed
  ∧ session_active (mkEnv 7 3700) after_vote 1 = true.
Proof.
  split.
  - apply (window_end_is_asymmetric (mkEnv 1 3700) after_create 1).
    + reflexivity.
    + vm_compute; reflexivity.
    + vm_compute; reflexivity.
    + vm_compute; discriminate.
    + vm_compute; reflexivity.
  - change (session_active (mkEnv 7 3700) after_vote 1)
      with (session_active (mkEnv 1 3700) after_vote 1).
    apply (window_end_is_asymmetric (mkEnv 1 3700) after_vote 1).
    + reflexivity.
    + vm_compute; reflexivity.
    + vm_compute; reflexivity.
    + vm_compute; discriminate.
    + vm_compute; reflexivity.
Defined.

Lemma session_at_stored s sid :
  isCreated (session_at s sid) = true →
  votingSessions s !! sid = Some (session_at s sid).
Proof.
  unfold session_at. by destruct (votingSessions s !! sid).
Qed.

Lemma set_isActive_back v :
  isActive v = false → set_isActive false (set_isActive true v) = v.
Proof. destruct v. simpl. by intros ->. Qed.

(** X3: starting a session and ending it again, at any later time, puts
    the storage back as it was; only the log grows, by [SessionStarted] and
    [SessionEnded]. *)
Theorem start_then_end_restores_storage env1 env2 s sid s1 :
  startSession sid env1 s = Ok (tt, s1) →
  msg_sender env2 = owner s →
  ∃ s2, endSession sid env2 s1 = Ok (tt, s2)
        ∧ votingSessions s2 = votingSessions s
        ∧ registeredVoters s2 = registeredVoters s
        ∧ sessionCount s2 = sessionCount s
        ∧ owner s2 = owner s
        ∧ events s2 = events s ++ [SessionStarted sid; SessionEnded sid].
Proof.
  intros Hstart Ho2. rewrite startSession_run in Hstart. cbv zeta in Hstart.
  destruct (negb _); [done|].
  destruct ((0 <? sid) && (sid <=? sessionCount s)) eqn:Hr; [|done].
  simpl in Hstart.
  destruct (isCreated (session_at s sid)) eqn:Hcr; [|done].
  destruct (isActive (session_at s sid)) eqn:Hact; [done|].
  simpl in Hstart. repeat (destruct (negb _) in Hstart; [done|]).
  injection Hstart as <-.
  rewrite endSession_run. cbv zeta.
  change (owner (log_event ?e (put_session ?i ?w ?t))) with (owner t).
  change (sessionCount (log_event ?e (put_session ?i ?w ?t)))
    with (sessionCount t).
  change (session_at (log_event ?e ?t) sid) with (session_at t sid).
  rewrite session_at_put, Ho2, N.eqb_refl, Hr. simpl. rewrite Hcr. simpl.
  eexists. split; [done|].
  split_and!; try done.
  - simpl. rewrite insert_insert_eq, set_isActive_back by done.
    apply insert_id. by apply session_at_stored.
  - simpl. by rewrite <- app_assoc.
Qed.

Lemma start_then_end_restores_storage_witness :
  ∃ s2, endSession 1 (mkEnv 1 9000)
          (transact (mkEnv 1 100) (StartSession 1) after_create)
        = Ok (tt, s2)
        ∧ votingSessions s2 = votingSessions after_create.
Proof.
  destruct (start_then_end_restores_storage (mkEnv 1 100) (mkEnv 1 9000)
              after_create 1
              (transact (mkEnv 1 100) (StartSession 1) after_create))
    as (s2 & Hend & Hsame & _).
  - vm_compute; reflexivity.
  - reflexivity.
  - exists s2. split; [exact Hend | exact Hsame].
Defined.

(** ** Authorisation *)

(** X4: every call other than [registerSelf] and [vote] is rejected with
    "Only owner can perform this action" when the caller is not the owner,
    whatever its arguments, and changes nothing. *)
Theorem owner_calls_reject_others env c s :
  owner_call c = true → msg_sender env ≠ owner s →
  outcome env c s = Some OnlyOwner ∧ transact env c s = s.
Proof.
  intros Hc Hne.
  assert (Ho : (msg_sender env =? owner s) = false) by (by apply N.eqb_neq).
  assert (Hout : outcome env c s = Some OnlyOwner).
  { unfold outcome.
    destruct c; simpl in Hc; try done; simpl.
    - cbv beta iota delta [mbind M_bind].
      by rewrite createSession_run, Ho.
    - rewrite addCandidateToSession_run. unfold edit_guard. by rewrite Ho.
    - rewrite updateCandidate_run. unfold edit_guard. by rewrite Ho.
    - rewrite removeCandidateFromSession_run. unfold edit_guard.
      by rewrite Ho.
    - by rewrite startSession_run, Ho.
    - by rewrite endSession_run, Ho.
    - by rewrite registerVoter_run, Ho.
    - by rewrite registerMultipleVoters_run, Ho. }
  split; [done|]. unfold outcome, transact in *.
  by destruct (dispatch c env s) as [[u s']|f].
Qed.

Lemma owner_calls_reject_others_witness :
  owner_call (RegisterMultipleVoters [8; 9]) = true
  ∧ msg_sender (mkEnv 7 140) ≠ owner after_vote
  ∧ outcome (mkEnv 7 140) (RegisterMultipleVoters [8; 9]) after_vote
    = Some OnlyOwner.
Proof.
  split; [reflexivity|]. split; [vm_compute; discriminate|].
  apply (owner_calls_reject_others (mkEnv 7 140)
           (RegisterMultipleVoters [8; 9]) after_vote);
    [reflexivity | vm_compute; discriminate].
Defined.

(** ** Registration *)

Lemma registered_register_state a b s :
  registered (register_state a s) b
  = if decide (b = a) then true else registered s b.
Proof.
  unfold registered, register_state. simpl. case_decide as Hd.
  - subst. by rewrite lookup_insert_eq.
  - by rewrite lookup_insert_ne.
Qed.

(** X5: [registerVoter] by the owner rejects the null address ("Invalid
    voter address") and an address already registered ("Voter already
    registered"); otherwise it registers exactly that address, logs one
    [VoterRegistered], and a second call for the same address fails. *)
Theorem registerVoter_by_owner env s a :
  msg_sender env = owner s →
  outcome env (RegisterVoter a) s
  = (if a =? 0 then Some InvalidVoterAddress
     else if registered s a then Some VoterAlreadyRegistered else None)
  ∧ (outcome env (RegisterVoter a) s = None →
     let s' := transact env (RegisterVoter a) s in
     registered s' a = true
     ∧ (∀ b, b ≠ a → registered s' b = registered s b)
     ∧ votingSessions s' = votingSessions s
     ∧ events s' = events s ++ [VoterRegistered a]
     ∧ outcome env (RegisterVoter a) s' = Some VoterAlreadyRegistered).
Proof.
  intros Ho. unfold outcome, transact. simpl.
  rewrite registerVoter_run, Ho, N.eqb_refl. simpl.
  destruct (a =? 0) eqn:Ha; [done|].
  destruct (registered s a) eqn:Hr; [done|].
  split; [done|]. intros _. simpl.
  rewrite registerVoter_run. change (owner (register_state a s)) with (owner s).
  rewrite Ho, N.eqb_refl, Ha, !registered_register_state. simpl.
  rewrite decide_True by done. split_and!; try done.
  intros b Hb. rewrite registered_register_state. by rewrite decide_False.
Qed.

Lemma registerVoter_by_owner_witness :
  msg_sender (mkEnv 1 140) = owner after_vote
  ∧ registered (transact (mkEnv 1 140) (RegisterVoter 8) after_vote) 8 = true.
Proof.
  split; [reflexivity|].
  destruct (registerVoter_by_owner (mkEnv 1 140) after_vote 8) as [_ Hok];
    [reflexivity|].
  apply Hok. vm_compute; reflexivity.
Defined.

(** X6: [registerSelf] is open to every caller; it fails exactly when the
    caller is already registered ("Already registered") and otherwise
    registers the caller alone, so a repeated call fails.  Unlike
    [registerVoter] it has no test for the null address. *)
Theorem registerSelf_once env s :
  outcome env RegisterSelf s
  = (if registered s (msg_sender env) then Some AlreadyRegistered else None)
  ∧ (registered s (msg_sender env) = false →
     let s' := transact env RegisterSelf s in
     registered s' (msg_sender env) = true
     ∧ (∀ b, b ≠ msg_sender env → registered s' b = registered s b)
     ∧ outcome env RegisterSelf s' = Some AlreadyRegistered).
Proof.
  unfold outcome, transact. simpl. rewrite registerSelf_run.
  destruct (registered s (msg_sender env)) eqn:Hr; [done|].
  split; [done|]. intros _. simpl.
  rewrite registerSelf_run, !registered_register_state.
  rewrite decide_True by done. split_and!; try done.
  intros b Hb. rewrite registered_register_state. by rewrite decide_False.
Qed.

Lemma registerSelf_once_witness :
  registered after_vote 8 = false
  ∧ registered (transact (mkEnv 8 140) RegisterSelf after_vote) 8 = true.
Proof.
  split; [vm_compute; reflexivity|].
  destruct (registerSelf_once (mkEnv 8 140) after_vote) as [_ Hok].
  apply Hok. vm_compute; reflexivity.
Defined.

Lemma registered_register_all voters s a :
  registered (register_all voters s) a = true
  ↔ registered s a = true ∨ (a ∈ voters ∧ a ≠ 0).
Proof.
  revert s. induction voters as [|b rest IH]; intros s; simpl.
  - split; [by left|]. intros [?|[H _]]; [done|]. by apply elem_of_nil in H.
  - rewrite IH. destruct (registered s b) eqn:Hb; simpl.
    + split.
      * intros [?|[? ?]]; [by left|]. right. split; [by right | done].
      * intros [?|[[->|?]%elem_of_cons ?]]; [by left | by left |].
        right. done.
    + destruct (b =? 0) eqn:Hz; simpl.
      * apply N.eqb_eq in Hz. subst b. split.
        -- intros [?|[? ?]]; [by left|]. right. split; [by right | done].
        -- intros [?|[[->|?]%elem_of_cons ?]]; [by left | done |].
           right. done.
      * apply N.eqb_neq in Hz. rewrite registered_register_state. split.
        -- intros [Hd|[? ?]].
           ++ case_decide; [subst; right; split; [left | done] | by left].
           ++ right. split; [by right | done].
        -- intros [?|[[->|?]%elem_of_cons ?]].
           ++ left. case_decide; done.
           ++ left. by rewrite decide_True.
           ++ right. done.
Qed.

Lemma register_all_sessions voters s :
  votingSessions (register_all voters s) = votingSessions s
  ∧ sessionCount (register_all voters s) = sessionCount s
  ∧ owner (register_all voters s) = owner s.
Proof.
  revert s. induction voters as [|b rest IH]; intros s; [done|].
  simpl. destruct (IH (if negb (registered s b) && negb (b =? 0)
                       then register_state b s else s)) as (H1 & H2 & H3).
  rewrite H1, H2, H3. by destruct (negb _ && negb _).
Qed.

(** X7: [registerMultipleVoters] by the owner never fails, whatever the
    list holds (empty, repeated, already registered or null entries).
    Afterwards an address is registered iff it was before or it is a
    non-null entry of the list; sessions are untouched. *)
Theorem registerMultipleVoters_by_owner env s voters :
  msg_sender env = owner s →
  outcome env (RegisterMultipleVoters voters) s = None
  ∧ (∀ a, registered (transact env (RegisterMultipleVoters voters) s) a = true
          ↔ registered s a = true ∨ (a ∈ voters ∧ a ≠ 0))
  ∧ votingSessions (transact env (RegisterMultipleVoters voters) s)
    = votingSessions s.
Proof.
  intros Ho. unfold outcome, transact. simpl.
  rewrite registerMultipleVoters_run, Ho, N.eqb_refl. simpl.
  split_and!; [done | |].
  - intros a. apply registered_register_all.
  - apply register_all_sessions.
Qed.

Lemma registerMultipleVoters_by_owner_witness :
  msg_sender (mkEnv 1 140) = owner after_vote
  ∧ outcome (mkEnv 1 140) (RegisterMultipleVoters [8; 0; 7; 8]) after_vote
    = None.
Proof.
  split; [reflexivity|].
  apply (registerMultipleVoters_by_owner (mkEnv 1 140) after_vote
           [8; 0; 7; 8]).
  reflexivity.
Defined.

Lemma register_all_noop voters s :
  (∀ a, a ∈ voters → registered s a = true ∨ a = 0) →
  register_all voters s = s.
Proof.
  induction voters as [|b rest IH]; intros H; [done|]. simpl.
  destruct (H b ltac:(left)) as [Hb| ->].
  - rewrite Hb. simpl. apply IH. intros a Ha. apply H. by right.
  - rewrite andb_false_r. apply IH. intros a Ha. apply H. by right.
Qed.

(** X8: submitting the same batch twice is the same as submitting it
    once: the second [registerMultipleVoters] changes neither storage nor
    log. *)
Theorem registerMultipleVoters_idempotent env s voters :
  transact env (RegisterMultipleVoters voters)
    (transact env (RegisterMultipleVoters voters) s)
  = transact env (RegisterMultipleVoters voters) s.
Proof.
  unfold transact at 2 3. simpl. rewrite registerMultipleVoters_run.
  destruct (msg_sender env =? owner s) eqn:Ho; simpl.
  - unfold transact. simpl. rewrite registerMultipleVoters_run.
    destruct (register_all_sessions voters s) as (_ & _ & ->).
    rewrite Ho. simpl. apply register_all_noop. intros a Ha.
    destruct (decide (a = 0)) as [->|Hne]; [by right|]. left.
    apply registered_register_all. right. done.
  - unfold transact. simpl. by rewrite registerMultipleVoters_run, Ho.
Qed.

(** X9: for a single address that [registerVoter] accepts, the batch call
    with that one entry has the same effect as [registerVoter]. *)
Theorem single_entry_batch_is_registerVoter env s a :
  outcome env (RegisterVoter a) s = None →
  transact env (RegisterMultipleVoters [a]) s
  = transact env (RegisterVoter a) s.
Proof.
  unfold outcome, transact. simpl.
  rewrite registerVoter_run, registerMultipleVoters_run.
  destruct (msg_sender env =? owner s); simpl; [|done].
  destruct (a =? 0); [done|]. destruct (registered s a); [done|]. done.
Qed.

Lemma single_entry_batch_is_registerVoter_witness :
  transact (mkEnv 1 140) (RegisterMultipleVoters [8]) after_vote
  = transact (mkEnv 1 140) (RegisterVoter 8) after_vote.
Proof.
  apply (single_entry_batch_is_registerVoter (mkEnv 1 140) after_vote 8).
  vm_compute; reflexivity.
Defined.

Lemma registered_after_transact env c s a :
  registered (transact env c s) a = true →
  registered s a = true
  ∨ (c = RegisterSelf ∧ a = msg_sender env)
  ∨ (msg_sender env = owner s ∧ a ≠ 0
     ∧ (c = RegisterVoter a
        ∨ ∃ voters, c = RegisterMultipleVoters voters ∧ a ∈ voters)).
Proof.
  intros Hreg.
  destruct (registered s a) eqn:Hold; [by left|]. right.
  pose proof (evolves_transact env c s) as Hev.
  unfold transact in Hreg.
  destruct (dispatch c env s) as [[[] s']|f] eqn:Hrun; [|congruence].
  destruct c as [name st et names|sid name|sid cid newName|sid cid|sid|sid
                |b|voters| |sid cid]; simpl in Hrun.
  - exfalso. cbv beta iota delta [mbind M_bind] in Hrun.
    rewrite createSession_run in Hrun.
    repeat (destruct (negb _) in Hrun; [done|]).
    destruct (add_candidates _ _ _ _) as [[[] s2]|f] eqn:Hadd; [|done].
    apply add_candidates_Ok in Hadd as [_ ->]. injection Hrun as <-.
    destruct (add_names_frame (sessionCount s + 1) names
                (create_base name st et s)) as (_ & Hr & _).
    unfold registered in *. simpl in Hreg. rewrite Hr in Hreg.
    simpl in Hreg. congruence.
  - exfalso. rewrite addCandidateToSession_run in Hrun.
    destruct (edit_guard env s sid); [done|].
    repeat (destruct (negb _) in Hrun; [done|]). injection Hrun as <-.
    unfold registered in *. simpl in Hreg. congruence.
  - exfalso. rewrite updateCandidate_run in Hrun. cbv zeta in Hrun.
    destruct (edit_guard env s sid); [done|].
    repeat (destruct (negb _) in Hrun; [done|]). injection Hrun as <-.
    unfold registered in *. simpl in Hreg. congruence.
  - exfalso. rewrite removeCandidateFromSession_run in Hrun.
    cbv zeta in Hrun. destruct (edit_guard env s sid); [done|].
    repeat (destruct (negb _) in Hrun; [done|]). injection Hrun as <-.
    unfold registered in *. simpl in Hreg. congruence.
  - exfalso. rewrite startSession_run in Hrun. cbv zeta in Hrun.
    repeat (destruct (negb _) in Hrun; [done|]).
    destruct (isActive (session_at s sid)); [done|].
    repeat (destruct (negb _) in Hrun; [done|]). injection Hrun as <-.
    unfold registered in *. simpl in Hreg. congruence.
  - exfalso. rewrite endSession_run in Hrun. cbv zeta in Hrun.
    repeat (destruct (negb _) in Hrun; [done|]). injection Hrun as <-.
    unfold registered in *. simpl in Hreg. congruence.
  - right. rewrite registerVoter_run in Hrun.
    destruct (msg_sender env =? owner s) eqn:Ho; [|done]. simpl in Hrun.
    destruct (b =? 0) eqn:Hb; [done|]. destruct (registered s b); [done|].
    injection Hrun as <-. rewrite registered_register_state in Hreg.
    apply N.eqb_eq in Ho. apply N.eqb_neq in Hb.
    case_decide; [subst|congruence]. split_and!; try done. by left.
  - right. rewrite registerMultipleVoters_run in Hrun.
    destruct (msg_sender env =? owner s) eqn:Ho; [|done]. simpl in Hrun.
    injection Hrun as <-. apply N.eqb_eq in Ho.
    apply registered_register_all in Hreg as [?|[Hin Hnz]]; [congruence|].
    split_and!; try done. right. by exists voters.
  - left. rewrite registerSelf_run in Hrun.
    destruct (registered s (msg_sender env)); [done|]. injection Hrun as <-.
    rewrite registered_register_state in Hreg.
    case_decide; [done | congruence].
  - exfalso. rewrite vote_run in Hrun. cbv zeta in Hrun.
    repeat (destruct (negb _) in Hrun; [done|]).
    destruct (voted _ _); [done|].
    repeat (destruct (negb _) in Hrun; [done|]). injection Hrun as <-.
    unfold registered in *. simpl in Hreg. congruence.
Qed.

(** X10: an address registered after a transaction was registered before
    it, or is the caller of [registerSelf], or is a non-null address named
    by the owner in [registerVoter] or [registerMultipleVoters]; no other
    call registers anyone. *)
Theorem registration_sources env c s a :
  registered (transact env c s) a = true →
  registered s a = true
  ∨ (c = RegisterSelf ∧ a = msg_sender env)
  ∨ (msg_sender env = owner s ∧ a ≠ 0
     ∧ (c = RegisterVoter a
        ∨ ∃ voters, c = RegisterMultipleVoters voters ∧ a ∈ voters)).
Proof. apply registered_after_transact. Qed.

Lemma registration_sources_witness :
  registered (transact (mkEnv 8 140) RegisterSelf after_vote) 8 = true
  ∧ (registered after_vote 8 = true
     ∨ (RegisterSelf = RegisterSelf ∧ 8 = msg_sender (mkEnv 8 140))
     ∨ (msg_sender (mkEnv 8 140) = owner after_vote ∧ 8 ≠ 0
        ∧ (RegisterSelf = RegisterVoter 8
           ∨ ∃ voters, RegisterSelf = RegisterMultipleVoters voters
                       ∧ 8 ∈ voters))).
Proof.
  split; [vm_compute; reflexivity|].
  apply (registration_sources (mkEnv 8 140) RegisterSelf after_vote 8).
  vm_compute; reflexivity.
Defined.

(** X11: a registration is never taken back, by any sequence of
    transactions; and the null address gets registered only if it sends a
    transaction itself: when it is not registered and no transaction of the
    sequence comes from address 0, it is not registered afterwards. *)
Theorem registration_is_permanent txs s :
  (∀ a, registered s a = true → registered (run txs s) a = true)
  ∧ (registered s 0 = false →
     Forall (λ tx : Env * Call, msg_sender tx.1 ≠ 0) txs →
     registered (run txs s) 0 = false).
Proof.
  split.
  - intros a. apply (ev_registered _ _ (evolves_run txs s)).
  - revert s. induction txs as [|[env c] txs IH]; intros s Hz Hall; [done|].
    apply Forall_cons in Hall as [Hs Hall]. simpl in *.
    apply IH; [|done].
    destruct (registered (transact env c s) 0) eqn:Hr; [|done].
    apply registered_after_transact in Hr
      as [?|[[_ ?]|(_ & ? & _)]]; congruence.
Qed.

Lemma registration_is_permanent_witness :
  registered (constructor 1) 0 = false
  ∧ registered (run scenario (constructor 1)) 0 = false.
Proof.
  split; [vm_compute; reflexivity|].
  apply (registration_is_permanent scenario (constructor 1)).
  - vm_compute; reflexivity.
  - repeat constructor; vm_compute; discriminate.
Defined.

(** ** What every transaction keeps *)

Lemma add_names_events sid names s :
  ∃ es, events (add_names sid names s) = events s ++ es.
Proof.
  revert s. induction names as [|name rest IH]; intros s; simpl.
  - exists []. by rewrite app_nil_r.
  - destruct (IH (add_candidate_state sid name s)) as [es ->]. simpl.
    eexists. by rewrite <- app_assoc.
Qed.

Lemma register_all_events voters s :
  ∃ es, events (register_all voters s) = events s ++ es.
Proof.
  revert s. induction voters as [|a rest IH]; intros s; simpl.
  - exists []. by rewrite app_nil_r.
  - destruct (negb (registered s a) && negb (a =? 0)).
    + destruct (IH (register_state a s)) as [es ->]. simpl.
      eexists. by rewrite <- app_assoc.
    + apply IH.
Qed.

Lemma transact_globals env c s :
  owner (transact env c s) = owner s
  ∧ ∃ es, events (transact env c s) = events s ++ es.
Proof.
  assert (Hrefl : owner s = owner s ∧ ∃ es, events s = events s ++ es)
    by (split; [done | exists []; by rewrite app_nil_r]).
  unfold transact.
  destruct (dispatch c env s) as [[[] s']|f] eqn:Hrun; [|done].
  destruct c as [name st et names|sid name|sid cid newName|sid cid|sid|sid
                |b|voters| |sid cid]; simpl in Hrun.
  - cbv beta iota delta [mbind M_bind] in Hrun.
    rewrite createSession_run in Hrun.
    repeat (destruct (negb _) in Hrun; [done|]).
    destruct (add_candidates _ _ _ _) as [[[] s2]|f] eqn:Hadd; [|done].
    apply add_candidates_Ok in Hadd as [_ ->]. injection Hrun as <-.
    destruct (add_names_spec (sessionCount s + 1) names
                (create_base name st et s)) as (_ & _ & _ & _ & Hown & _).
    destruct (add_names_events (sessionCount s + 1) names
                (create_base name st et s)) as [es Hes].
    simpl. rewrite Hown, Hes. split; [done|]. simpl.
    eexists. by rewrite <- app_assoc.
  - rewrite addCandidateToSession_run in Hrun.
    destruct (edit_guard env s sid); [done|].
    repeat (destruct (negb _) in Hrun; [done|]). injection Hrun as <-.
    split; [done | by eexists].
  - rewrite updateCandidate_run in Hrun. cbv zeta in Hrun.
    destruct (edit_guard env s sid); [done|].
    repeat (destruct (negb _) in Hrun; [done|]). injection Hrun as <-.
    split; [done | by eexists].
  - rewrite removeCandidateFromSession_run in Hrun.
    cbv zeta in Hrun. destruct (edit_guard env s sid); [done|].
    repeat (destruct (negb _) in Hrun; [done|]). injection Hrun as <-.
    split; [done | by eexists].
  - rewrite startSession_run in Hrun. cbv zeta in Hrun.
    repeat (destruct (negb _) in Hrun; [done|]).
    destruct (isActive (session_at s sid)); [done|].
    repeat (destruct (negb _) in Hrun; [done|]). injection Hrun as <-.
    split; [done | by eexists].
  - rewrite endSession_run in Hrun. cbv zeta in Hrun.
    repeat (destruct (negb _) in Hrun; [done|]). injection Hrun as <-.
    split; [done | by eexists].
  - rewrite registerVoter_run in Hrun.
    destruct (negb _); [done|]. destruct (b =? 0); [done|].
    destruct (registered s b); [done|]. injection Hrun as <-.
    split; [done | by eexists].
  - rewrite registerMultipleVoters_run in Hrun.
    destruct (negb _); [done|]. injection Hrun as <-.
    split; [apply register_all_sessions | apply register_all_events].
  - rewrite registerSelf_run in Hrun.
    destruct (registered s (msg_sender env)); [done|]. injection Hrun as <-.
    split; [done | by eexists].
  - rewrite vote_run in Hrun. cbv zeta in Hrun.
    repeat (destruct (negb _) in Hrun; [done|]).
    destruct (voted _ _); [done|].
    repeat (destruct (negb _) in Hrun; [done|]). injection Hrun as <-.
    split; [done | by eexists].
Qed.

Lemma run_globals txs s :
  owner (run txs s) = owner s
  ∧ ∃ es, events (run txs s) = events s ++ es.
Proof.
  revert s. induction txs as [|[env c] txs IH]; intros s; simpl.
  - split; [done | exists []; by rewrite app_nil_r].
  - destruct (IH (transact env c s)) as [Ho [es2 He2]].
    destruct (transact_globals env c s) as [Ho1 [es1 He1]].
    rewrite Ho, He2, Ho1, He1. split; [done|].
    eexists. by rewrite <- app_assoc.
Qed.

(** X12: the owner is fixed at deployment and is a registered voter from
    then on: after any transactions the owner is the same address, it is
    registered, and its [registerSelf] fails with "Already registered". *)
Theorem owner_is_fixed_and_registered s txs now :
  reachable s →
  owner (run txs s) = owner s
  ∧ registered (run txs s) (owner s) = true
  ∧ outcome (mkEnv (owner s) now) RegisterSelf (run txs s)
    = Some AlreadyRegistered.
Proof.
  intros Hs. destruct (run_globals txs s) as [Ho _].
  pose proof (wf_owner _ (reachable_wellformed _ (reachable_run txs _ Hs)))
    as Hreg.
  rewrite Ho in Hreg. split_and!; try done.
  unfold outcome. simpl. rewrite registerSelf_run. simpl. by rewrite Hreg.
Qed.

Lemma owner_is_fixed_and_registered_witness :
  owner (run scenario (constructor 1)) = 1
  ∧ registered (run scenario (constructor 1)) 1 = true.
Proof.
  destruct (owner_is_fixed_and_registered (constructor 1) scenario 0)
    as (Ho & Hr & _); [apply reachable_deploy|].
  split; [exact Ho | exact Hr].
Defined.

(** X13: the event log is append-only: a transaction leaves every event
    logged so far in place and in order, and so does any sequence of
    transactions. *)
Theorem log_is_append_only txs s :
  ∃ es, events (run txs s) = events s ++ es.
Proof. apply run_globals. Qed.

(** X14: in a reachable state [sessionCount] is the number of
    [SessionCreated] events logged: one session id is allotted per
    successful [createSession], and none otherwise. *)
Theorem sessionCount_counts_creations s :
  reachable s →
  N.of_nat (length (List.filter is_created_event (events s)))
  = sessionCount s.
Proof. intros Hs. apply (wf_log _ (reachable_wellformed _ Hs)). Qed.

Lemma sessionCount_counts_creations_witness :
  N.of_nat (length (List.filter is_created_event (events after_removal)))
  = sessionCount after_removal.
Proof.
  apply (sessionCount_counts_creations after_removal).
  do 2 apply reachable_run. apply reachable_deploy.
Defined.

(** ** Queries on sessions *)

Lemma sessionExists_missing sid env s :
  sid = 0 ∨ sessionCount s < sid →
  sessionExists sid env s = Err SessionDoesNotExist.
Proof.
  intros H. rewrite sessionExists_run.
  replace ((0 <? sid) && (sid <=? sessionCount s)) with false; [done|].
  symmetry. apply andb_false_iff. destruct H as [->|H]; [by left|].
  right. apply N.leb_gt. lia.
Qed.

(** X15: for an id that names no session (0, or above [sessionCount])
    every query guarded by [sessionExists] fails with "Session does not
    exist", and so does [vote] whoever calls it, while [isSessionActive]
    answers false instead of failing. *)
Theorem queries_on_missing_session env s sid :
  sid = 0 ∨ sessionCount s < sid →
  getSession sid env s = Err SessionDoesNotExist
  ∧ getSessionCandidates sid env s = Err SessionDoesNotExist
  ∧ getSessionWinner sid env s = Err SessionDoesNotExist
  ∧ (∀ a, hasVotedInSession a sid env s = Err SessionDoesNotExist)
  ∧ (∀ a, getVoterChoice a sid env s = Err SessionDoesNotExist)
  ∧ (∀ cid, vote sid cid env s = Err SessionDoesNotExist)
  ∧ isSessionActive sid env s = Ok (false, s).
Proof.
  intros H. pose proof (sessionExists_missing sid env s H) as Hex.
  split_and!.
  - unfold getSession. by rewrite bind_run, Hex.
  - unfold getSessionCandidates. by rewrite bind_run, Hex.
  - unfold getSessionWinner. by rewrite bind_run, Hex.
  - intros a. unfold hasVotedInSession. by rewrite bind_run, Hex.
  - intros a. unfold getVoterChoice. by rewrite bind_run, Hex.
  - intros cid. unfold vote. by rewrite bind_run, Hex.
  - rewrite isSessionActive_run. f_equal. f_equal. unfold session_active.
    destruct H as [->|H]; [done|].
    replace (sid <=? sessionCount s) with false
      by (symmetry; apply N.leb_gt; lia).
    by rewrite andb_false_r.
Qed.

Lemma queries_on_missing_session_witness :
  getSession 2 (mkEnv 9 200) after_vote = Err SessionDoesNotExist
  ∧ isSessionActive 0 (mkEnv 9 200) after_vote = Ok (false, after_vote).
Proof.
  split.
  - apply (queries_on_missing_session (mkEnv 9 200) after_vote 2).
    right. vm_compute; reflexivity.
  - apply (queries_on_missing_session (mkEnv 9 200) after_vote 0).
    by left.
Defined.

(** ** Listings *)

Lemma session_active_range env s i :
  session_active env s i = true → 1 ≤ i ∧ i ≤ sessionCount s.
Proof.
  unfold session_active. rewrite !andb_true_iff.
  intros [[[[[Hz Hle] _] _] _] _].
  apply negb_true_iff, N.eqb_neq in Hz. apply N.leb_le in Hle. lia.
Qed.

(** X16: [getAllSessions] returns the ids 1, 2, ..., [sessionCount] in
    ascending order, and in a reachable state these are exactly the ids of
    the existing sessions: no id is skipped and none is ever dropped.
    (Stated for [sessionCount < 2^256 - 1], where the loop counter cannot
    overflow.) *)
Theorem getAllSessions_lists_every_session env s :
  reachable s → sessionCount s < max_uint256 →
  getAllSessions env s = Ok (ids_upto (sessionCount s), s)
  ∧ length (ids_upto (sessionCount s)) = N.to_nat (sessionCount s)
  ∧ ∀ i, i ∈ ids_upto (sessionCount s) ↔ session_exists s i = true.
Proof.
  intros Hs Hn. split; [by apply getAllSessions_run|].
  split; [apply length_ids_upto|].
  intros i. rewrite elem_of_ids_upto. split.
  - intros [H1 H2].
    destruct (wf_sessions _ (reachable_wellformed _ Hs) i H1 H2) as [Hcr _].
    unfold session_exists. rewrite Hcr, andb_true_r.
    apply andb_true_iff. split; [apply N.ltb_lt; lia | by apply N.leb_le].
  - intros He. destruct (session_exists_range _ _ He) as (? & ? & _). lia.
Qed.

Lemma getAllSessions_lists_every_session_witness :
  getAllSessions (mkEnv 9 200) after_vote = Ok ([1], after_vote).
Proof.
  destruct (getAllSessions_lists_every_session (mkEnv 9 200) after_vote)
    as [Hrun _].
  - apply reachable_run, reachable_deploy.
  - vm_compute; reflexivity.
  - rewrite Hrun. vm_compute; reflexivity.
Defined.

(** X17: [getAllActiveSessions] returns, in ascending order and without
    repetition, exactly the ids for which [isSessionActive] answers true
    at the time of the call; its counting pass and its filling pass agree,
    so the result array is filled completely and never indexed out of
    range.  (Stated for [sessionCount < 2^256 - 1].) *)
Theorem getAllActiveSessions_lists_active env s :
  sessionCount s < max_uint256 →
  getAllActiveSessions env s
  = Ok (filter (λ i, session_active env s i = true)
          (ids_upto (sessionCount s)), s)
  ∧ NoDup (filter (λ i, session_active env s i = true)
             (ids_upto (sessionCount s)))
  ∧ ∀ i, i ∈ filter (λ i, session_active env s i = true)
               (ids_upto (sessionCount s))
         ↔ isSessionActive i env s = Ok (true, s).
Proof.
  intros Hn. split; [by apply getAllActiveSessions_run|].
  split; [apply NoDup_filter, NoDup_ids_upto|].
  intros i. rewrite list_elem_of_filter, elem_of_ids_upto.
  rewrite isSessionActive_run. split.
  - intros [-> _]. done.
  - intros [= Hact]. split; [done|]. by apply session_active_range in Hact.
Qed.

Lemma getAllActiveSessions_lists_active_witness :
  getAllActiveSessions (mkEnv 9 200) after_vote = Ok ([1], after_vote)
  ∧ getAllActiveSessions (mkEnv 9 5000) after_vote = Ok ([], after_vote).
Proof.
  split.
  - destruct (getAllActiveSessions_lists_active (mkEnv 9 200) after_vote)
      as [Hrun _]; [vm_compute; reflexivity|].
    rewrite Hrun. vm_compute; reflexivity.
  - destruct (getAllActiveSessions_lists_active (mkEnv 9 5000) after_vote)
      as [Hrun _]; [vm_compute; reflexivity|].
    rewrite Hrun. vm_compute; reflexivity.
Defined.

(** X18: [getSessionCandidates] returns the stored records of the active
    candidates of the session, in ascending id order; deactivated
    candidates are left out, and in a reachable state the ids of the
    returned records are exactly the active ids.  (Stated for sessions with
    fewer than [2^256 - 1] candidates.) *)
Theorem getSessionCandidates_lists_active env s sid :
  reachable s → session_exists s sid = true →
  candidateCount (session_at s sid) < max_uint256 →
  let v := session_at s sid in
  let l := candidate_at v <$> active_ids v (ids_upto (candidateCount v)) in
  getSessionCandidates sid env s = Ok (l, s)
  ∧ Forall (λ c, cand_isActive c = true) l
  ∧ cand_id <$> l = active_ids v (ids_upto (candidateCount v)).
Proof.
  intros Hs He Hcc v l. subst v l.
  split; [by apply getSessionCandidates_run|].
  destruct (session_exists_range _ _ He) as (Hpos & Hle & _).
  destruct (wf_sessions _ (reachable_wellformed _ Hs) sid ltac:(lia) Hle)
    as (_ & _ & _ & _ & _ & Hcand & _).
  split.
  - apply Forall_fmap, Forall_forall. intros i Hi.
    by apply list_elem_of_filter in Hi as [Hact _].
  - rewrite <- list_fmap_compose.
    rewrite <- (list_fmap_id (active_ids _ _)) at 2.
    apply list_fmap_ext. intros k i Hk. simpl.
    apply list_elem_of_lookup_2 in Hk.
    apply list_elem_of_filter in Hk as [_ Hi%elem_of_ids_upto].
    destruct (Hcand i) as [Hid _]; [lia | lia | exact Hid].
Qed.

Lemma getSessionCandidates_lists_active_witness :
  getSessionCandidates 1 (mkEnv 9 300) after_removal
  = Ok ([mkCandidate 2 "Bob" 0 true], after_removal).
Proof.
  destruct (getSessionCandidates_lists_active (mkEnv 9 300) after_removal 1)
    as [Hrun _].
  - do 2 apply reachable_run. apply reachable_deploy.
  - vm_compute; reflexivity.
  - vm_compute; reflexivity.
  - rewrite Hrun. vm_compute; reflexivity.
Defined.

Lemma filter_all {A} (P : A → Prop) `{!∀ x, Decision (P x)} (l : list A) :
  (∀ x, x ∈ l → P x) → filter P l = l.
Proof.
  induction l as [|x l IH]; intros Hall; [done|].
  rewrite filter_cons_True by (apply Hall; left).
  f_equal. apply IH. intros y Hy. apply Hall. by right.
Qed.

Lemma createSession_stored name st et names env s id s' :
  createSession name st et names env s = Ok (id, s') →
  let v := session_at s' id in
  session_exists s' id = true
  ∧ (sessionName v, startTime v, endTime v) = (name, st, et)
  ∧ (isActive v, totalVotes v) = (false, 0)
  ∧ candidateCount v = N.of_nat (length names)
  ∧ ∀ i nm, names !! i = Some nm →
      candidate_at v (N.of_nat i + 1) = mkCandidate (N.of_nat i + 1) nm 0 true.
Proof.
  intros Hrun. rewrite createSession_run in Hrun.
  repeat (destruct (negb _) in Hrun; [done|]).
  destruct (add_candidates _ _ _ _) as [[[] s2]|f] eqn:Hadd; [|done].
  apply add_candidates_Ok in Hadd as [_ ->]. injection Hrun as <- <-.
  change (session_at (log_event ?e ?t) ?i) with (session_at t i).
  change (session_exists (log_event ?e ?t) ?i) with (session_exists t i).
  destruct (add_names_spec (sessionCount s + 1) names
              (create_base name st et s))
    as (Hcc & Hid & Hfl & _ & _ & _ & Hnew).
  rewrite session_at_create_base in *. simpl in *.
  injection Hid as _ -> -> ->. injection Hfl as -> _ ->.
  rewrite Hcc. split_and!; try done.
  apply (ev_exists _ _ (evolves_add_names (sessionCount s + 1) names
                          (create_base name st et s))).
  apply session_exists_create_base.
Qed.

(** X19: what [createSession] stores can be read back: after a successful
    call, [getSession] on the returned id yields the supplied name and
    window, flag clear, the number of supplied candidates and no votes; and
    [getSessionCandidates] yields the supplied names in input order under
    the ids 1, 2, ..., each active with no votes. *)
Theorem createSession_read_back name st et names env env' s id s' :
  createSession name st et names env s = Ok (id, s') →
  getSession id env' s'
  = Ok ((name, st, et, false, N.of_nat (length names), 0), s')
  ∧ (N.of_nat (length names) < max_uint256 →
     getSessionCandidates id env' s'
     = Ok (imap (λ i nm, mkCandidate (N.of_nat i + 1) nm 0 true) names, s')).
Proof.
  intros Hrun.
  destruct (createSession_stored _ _ _ _ _ _ _ _ Hrun)
    as (He & Hnm & Hfl & Hcc & Hnew).
  destruct (exists_range_true _ _ He) as [Hr Hcr].
  injection Hnm as Hn1 Hn2 Hn3. injection Hfl as Hf1 Hf2. split.
  - unfold getSession. rewrite bind_run, sessionExists_run, Hr, Hcr.
    rewrite bind_gets. by rewrite Hn1, Hn2, Hn3, Hf1, Hf2, Hcc.
  - intros Hlen. rewrite getSessionCandidates_run by (by rewrite ?Hcc).
    f_equal. f_equal. rewrite Hcc. unfold active_ids.
    rewrite filter_all.
    + apply list_eq. intros i. unfold ids_upto.
      rewrite !list_lookup_fmap, list_lookup_imap, Nat2N.id.
      destruct (names !! i) as [nm|] eqn:Hi; simpl.
      * rewrite lookup_seq_lt by (by eapply lookup_lt_Some). simpl.
        rewrite <- (Hnew _ _ Hi). do 2 f_equal. lia.
      * rewrite lookup_seq_ge; [done|]. by apply lookup_ge_None.
    + intros k Hk%elem_of_ids_upto.
      assert (Hi : (N.to_nat (k - 1) < length names)%nat) by lia.
      apply lookup_lt_is_Some_2 in Hi as [nm Hnm].
      specialize (Hnew _ _ Hnm).
      replace (N.of_nat (N.to_nat (k - 1)) + 1) with k in Hnew by lia.
      by rewrite Hnew.
Qed.

Lemma createSession_read_back_witness :
  ∃ s', createSession "Election" 100 3700 ["Alice"; "Bob"] (mkEnv 1 10)
          (constructor 1) = Ok (1, s')
        ∧ getSession 1 (mkEnv 9 20) s'
          = Ok (("Election"%string, 100, 3700, false, 2, 0), s').
Proof.
  eexists. split; [vm_compute; reflexivity|].
  apply (createSession_read_back "Election" 100 3700 ["Alice"; "Bob"]
           (mkEnv 1 10) (mkEnv 9 20) (constructor 1) 1).
  vm_compute; reflexivity.
Defined.

(** ** Casting a vote *)




Lemma sum_over_ge f l i : i ∈ l → f i ≤ sum_over f l.
Proof.
  unfold sum_over. induction l as [|k l IH]; simpl.
  - intros H. by apply elem_of_nil in H.
  - intros [->|H]%elem_of_cons; [lia|]. specialize (IH H). lia.
Qed.

Lemma voteCount_le_total s sid cid :
  invariant s → 1 ≤ cid → cid ≤ candidateCount (session_at s sid) →
  voteCount (candidate_at (session_at s sid) cid)
  ≤ totalVotes (session_at s sid).
Proof.
  intros Hinv H1 H2. rewrite (inv_sum s Hinv sid). unfold sum_votes.
  apply (sum_over_ge (λ i, voteCount (candidate_at (session_at s sid) i))).
  by apply elem_of_ids_upto.
Qed.

(** X21: in a reachable state a [vote] succeeds exactly when the caller is
    registered, the session is active at the time of the call, the caller
    has not voted in it, the id names an active candidate of the session,
    and the session total is below [2^256 - 1] (a candidate's count is
    never above the total, so its own increment cannot overflow first). *)
Theorem vote_succeeds_iff env s sid cid :
  reachable s →
  outcome env (Vote sid cid) s = None
  ↔ registered s (msg_sender env) = true
    ∧ session_active env s sid = true
    ∧ voted (session_at s sid) (msg_sender env) = false
    ∧ 1 ≤ cid ∧ cid ≤ candidateCount (session_at s sid)
    ∧ cand_isActive (candidate_at (session_at s sid) cid) = true
    ∧ totalVotes (session_at s sid) < max_uint256.
Proof.
  intros Hs. apply reachable_invariant in Hs.
  unfold outcome. simpl. rewrite vote_run. cbv zeta. split.
  - destruct ((0 <? sid) && (sid <=? sessionCount s)); [|done]. simpl.
    destruct (isCreated (session_at s sid)); [|done]. simpl.
    destruct (registered s (msg_sender env)); [|done]. simpl.
    destruct (session_active env s sid); [|done]. simpl.
    destruct (voted (session_at s sid) (msg_sender env)); [done|].
    destruct ((0 <? cid) && (cid <=? candidateCount (session_at s sid)))
      eqn:Hc; [|done]. simpl.
    destruct (cand_isActive (candidate_at (session_at s sid) cid)); [|done].
    simpl. destruct (negb _); [done|].
    destruct (totalVotes (session_at s sid) <? max_uint256) eqn:Ht; [|done].
    intros _. apply andb_true_iff in Hc as [Hc1%N.ltb_lt Hc2%N.leb_le].
    apply N.ltb_lt in Ht. split_and!; try done. lia.
  - intros (Hreg & Hact & Hv & Hc1 & Hc2 & Hca & Ht).
    pose proof (voteCount_le_total s sid cid Hs Hc1 Hc2) as Hle.
    destruct (session_active_range _ _ _ Hact) as [Hp Hl].
    assert (Hcr : isCreated (session_at s sid) = true).
    { unfold session_active in Hact. rewrite !andb_true_iff in Hact.
      by destruct Hact as [[[[_ ?] _] _] _]. }
    replace ((0 <? sid) && (sid <=? sessionCount s)) with true
      by (symmetry; apply andb_true_iff;
          split; [apply N.ltb_lt; lia | by apply N.leb_le]).
    rewrite Hcr, Hreg, Hact, Hv, Hca. simpl.
    replace ((0 <? cid) && (cid <=? candidateCount (session_at s sid)))
      with true
      by (symmetry; apply andb_true_iff;
          split; [apply N.ltb_lt; lia | by apply N.leb_le]).
    simpl.
    replace (voteCount (candidate_at (session_at s sid) cid) <? max_uint256)
      with true by (symmetry; apply N.ltb_lt; lia).
    replace (totalVotes (session_at s sid) <? max_uint256)
      with true by (symmetry; by apply N.ltb_lt).
    done.
Qed.

Lemma vote_succeeds_iff_witness :
  outcome (mkEnv 7 130) (Vote 1 2) (run (take 3 scenario) (constructor 1))
  = None.
Proof.
  apply (vote_succeeds_iff (mkEnv 7 130)
           (run (take 3 scenario) (constructor 1)) 1 2).
  - apply reachable_run, reachable_deploy.
  - split_and!; try (vm_compute; reflexivity); vm_compute; discriminate.
Defined.

(** X22: [getVoterChoice] on an existing session fails with "Voter has
    not voted in this session" for a voter without a vote there, and
    otherwise returns the recorded choice; in a reachable state that choice
    is the id of a candidate of the session, between 1 and
    [candidateCount], under which a record with that id is stored. *)
Theorem getVoterChoice_is_a_candidate env s sid a :
  reachable s → session_exists s sid = true →
  let v := session_at s sid in
  getVoterChoice a sid env s
  = (if voted v a then Ok (choice v a, s) else Err VoterHasNotVoted)
  ∧ (voted v a = true →
     1 ≤ choice v a ∧ choice v a ≤ candidateCount v
     ∧ cand_id (candidate_at v (choice v a)) = choice v a).
Proof.
  intros Hs He. cbv zeta.
  destruct (exists_range_true _ _ He) as [Hr Hcr].
  destruct (session_exists_range _ _ He) as (Hpos & Hle & _).
  split.
  - unfold getVoterChoice.
    rewrite bind_run, sessionExists_run, Hr, Hcr, bind_gets.
    by destruct (voted (session_at s sid) a).
  - intros Hv.
    destruct (wf_sessions _ (reachable_wellformed _ Hs) sid ltac:(lia) Hle)
      as (_ & _ & _ & _ & _ & Hcand & Hch).
    destruct (Hch a Hv) as [H1 H2]. split_and!; try done.
    by apply Hcand.
Qed.

Lemma getVoterChoice_is_a_candidate_witness :
  getVoterChoice 7 1 (mkEnv 9 200) after_vote = Ok (2, after_vote)
  ∧ getVoterChoice 8 1 (mkEnv 9 200) after_vote = Err VoterHasNotVoted.
Proof.
  split.
  - destruct (getVoterChoice_is_a_candidate (mkEnv 9 200) after_vote 1 7)
      as [Hrun _].
    + apply reachable_run, reachable_deploy.
    + vm_compute; reflexivity.
    + rewrite Hrun. vm_compute; reflexivity.
  - destruct (getVoterChoice_is_a_candidate (mkEnv 9 200) after_vote 1 8)
      as [Hrun _].
    + apply reachable_run, reachable_deploy.
    + vm_compute; reflexivity.
    + rewrite Hrun. vm_compute; reflexivity.
Defined.

(** ** Sessions of a reachable state *)

Lemma created_in_range s sid :
  wellformed s → (0 <? sid) && (sid <=? sessionCount s) = true →
  isCreated (session_at s sid) = true.
Proof.
  intros Hwf [Hp%N.ltb_lt Hl%N.leb_le]%andb_true_iff.
  by destruct (wf_sessions s Hwf sid ltac:(lia) Hl) as [Hcr _].
Qed.

Lemma edit_guard_not_found env s sid :
  wellformed s → edit_guard env s sid ≠ Some SessionNotFound.
Proof.
  intros Hwf. unfold edit_guard.
  destruct (negb (msg_sender env =? owner s)); [done|].
  destruct ((0 <? sid) && (sid <=? sessionCount s)) eqn:Hr; [|done].
  rewrite (created_in_range s sid Hwf Hr). simpl.
  by destruct (session_active env s sid).
Qed.

Lemma add_candidates_not_found sid names env s f :
  session_exists s sid = true →
  add_candidates sid names env s = Err f → f ≠ SessionNotFound.
Proof.
  revert s. induction names as [|name rest IH]; intros s He; [done|].
  destruct (exists_range_true _ _ He) as [Hr Hcr].
  simpl. cbv beta iota delta [mbind M_bind].
  rewrite addCandidateToSession_run. unfold edit_guard.
  rewrite Hr, Hcr. simpl.
  destruct (negb (msg_sender env =? owner s)); [by intros [= <-]|].
  destruct (session_active env s sid); [by intros [= <-]|].
  destruct (negb (nonempty name)); [by intros [= <-]|].
  destruct (negb _); [by intros [= <-]|].
  apply IH. by apply session_exists_add_candidate.
Qed.

(** X23: the second test of the [sessionExists] modifier never fires in a
    reachable state: every id from 1 to [sessionCount] holds a created
    session, so no transaction fails with "Session not found" and the
    modifier rejects an id only as "Session does not exist". *)
Theorem session_not_found_is_unreachable s :
  reachable s →
  (∀ sid env,
     sessionExists sid env s
     = if (0 <? sid) && (sid <=? sessionCount s) then Ok (tt, s)
       else Err SessionDoesNotExist)
  ∧ (∀ env c, outcome env c s ≠ Some SessionNotFound).
Proof.
  intros Hs. pose proof (reachable_wellformed _ Hs) as Hwf. split.
  - intros sid env. rewrite sessionExists_run.
    destruct ((0 <? sid) && (sid <=? sessionCount s)) eqn:Hr; [|done].
    by rewrite (created_in_range s sid Hwf Hr).
  - intros env c. unfold outcome.
    destruct c as [name st et names|sid name|sid cid newName|sid cid|sid|sid
                  |b|voters| |sid cid]; simpl.
    + cbv beta iota delta [mbind M_bind]. rewrite createSession_run.
      repeat (destruct (negb _); [done|]).
      destruct (add_candidates _ _ _ _) as [[[] s2]|f] eqn:Hadd; [done|].
      apply add_candidates_not_found in Hadd.
      * congruence.
      * apply session_exists_create_base.
    + rewrite addCandidateToSession_run.
      pose proof (edit_guard_not_found env s sid Hwf).
      destruct (edit_guard env s sid); [congruence|].
      repeat (destruct (negb _); [done|]). done.
    + rewrite updateCandidate_run. cbv zeta.
      pose proof (edit_guard_not_found env s sid Hwf).
      destruct (edit_guard env s sid); [congruence|].
      repeat (destruct (negb _); [done|]). done.
    + rewrite removeCandidateFromSession_run. cbv zeta.
      pose proof (edit_guard_not_found env s sid Hwf).
      destruct (edit_guard env s sid); [congruence|].
      repeat (destruct (negb _); [done|]). done.
    + rewrite startSession_run. cbv zeta.
      destruct (negb (msg_sender env =? owner s)); [done|].
      destruct ((0 <? sid) && (sid <=? sessionCount s)) eqn:Hr; [|done].
      rewrite (created_in_range s sid Hwf Hr). simpl.
      destruct (isActive (session_at s sid)); [done|].
      repeat (destruct (negb _); [done|]). done.
    + rewrite endSession_run. cbv zeta.
      destruct (negb (msg_sender env =? owner s)); [done|].
      destruct ((0 <? sid) && (sid <=? sessionCount s)) eqn:Hr; [|done].
      rewrite (created_in_range s sid Hwf Hr). simpl.
      by destruct (negb _).
    + rewrite registerVoter_run.
      destruct (negb _); [done|]. destruct (b =? 0); [done|].
      by destruct (registered s b).
    + rewrite registerMultipleVoters_run. by destruct (negb _).
    + rewrite registerSelf_run. by destruct (registered _ _).
    + rewrite vote_run. cbv zeta.
      destruct ((0 <? sid) && (sid <=? sessionCount s)) eqn:Hr; [|done].
      rewrite (created_in_range s sid Hwf Hr). simpl.
      repeat (destruct (negb _); [done|]).
      destruct (voted _ _); [done|].
      repeat (destruct (negb _); [done|]). done.
Qed.

Lemma session_not_found_is_unreachable_witness :
  sessionExists 1 (mkEnv 9 200) after_vote = Ok (tt, after_vote)
  ∧ sessionExists 2 (mkEnv 9 200) after_vote = Err SessionDoesNotExist.
Proof.
  destruct (session_not_found_is_unreachable after_vote) as [Hex _];
    [apply reachable_run, reachable_deploy|].
  split; rewrite Hex; vm_compute; reflexivity.
Defined.

(** X24: every session of a reachable state is well formed: its stored
    [sessionId] is the id it is filed under, its window is non-empty
    ([startTime < endTime]), its name is non-empty and it has at least one
    candidate; each candidate slot from 1 to [candidateCount] holds a record
    whose id is its slot and whose name is non-empty. *)
Theorem sessions_are_well_formed s sid :
  reachable s → session_exists s sid = true →
  let v := session_at s sid in
  sessionId v = sid ∧ startTime v < endTime v
  ∧ nonempty (sessionName v) = true ∧ 1 ≤ candidateCount v
  ∧ ∀ cid, 1 ≤ cid → cid ≤ candidateCount v →
      cand_id (candidate_at v cid) = cid
      ∧ nonempty (cand_name (candidate_at v cid)) = true.
Proof.
  intros Hs He. destruct (session_exists_range _ _ He) as (Hpos & Hle & _).
  destruct (wf_sessions _ (reachable_wellformed _ Hs) sid ltac:(lia) Hle)
    as (_ & Hid & Ht & Hnm & Hcc & Hcand & _).
  cbv zeta. split_and!; done.
Qed.

Lemma sessions_are_well_formed_witness :
  session_exists after_removal 1 = true
  ∧ startTime (session_at after_removal 1)
    < endTime (session_at after_removal 1).
Proof.
  split; [vm_compute; reflexivity|].
  destruct (sessions_are_well_formed after_removal 1) as (_ & Ht & _).
  - do 2 apply reachable_run. apply reachable_deploy.
  - vm_compute; reflexivity.
  - exact Ht.
Defined.

Lemma maxl_le f a b : (∀ j, j ∈ a → f j ≤ b) → maxl f a ≤ b.
Proof.
  unfold maxl. induction a as [|k a IH]; csimpl; intros H; [lia|].
  specialize (H k ltac:(left)) as Hk.
  assert (foldr N.max 0 (f <$> a) ≤ b)
    by (apply IH; intros j Hj; apply H; by right).
  lia.
Qed.

(** X25: in a reachable state no candidate of an existing session holds
    more votes than the session's [totalVotes], and the vote count that
    [getSessionWinner] reports is at most [totalVotes].  (The second part
    for sessions with fewer than [2^256 - 1] candidates.) *)
Theorem counts_are_bounded_by_total env s sid :
  reachable s → session_exists s sid = true →
  (∀ cid, 1 ≤ cid → cid ≤ candidateCount (session_at s sid) →
     voteCount (candidate_at (session_at s sid) cid)
     ≤ totalVotes (session_at s sid))
  ∧ (candidateCount (session_at s sid) < max_uint256 →
     ∃ name votes tie,
       getSessionWinner sid env s = Ok ((name, votes, tie), s)
       ∧ votes ≤ totalVotes (session_at s sid)).
Proof.
  intros Hs He. pose proof (reachable_invariant _ Hs) as Hinv.
  assert (Hle : ∀ cid, 1 ≤ cid → cid ≤ candidateCount (session_at s sid) →
     voteCount (candidate_at (session_at s sid) cid)
     ≤ totalVotes (session_at s sid))
    by (intros; by apply voteCount_le_total).
  split; [done|]. intros Hcc. rewrite getSessionWinner_run by done.
  unfold winner_of, scan_result.
  destruct (totalVotes (session_at s sid) =? 0); [do 3 eexists; split; [done|lia]|].
  assert (Hmax : max_votes (session_at s sid)
                   (ids_upto (candidateCount (session_at s sid)))
                 ≤ totalVotes (session_at s sid)).
  { apply maxl_le. intros j Hj.
    apply list_elem_of_filter in Hj as [_ Hj%elem_of_ids_upto].
    apply Hle; lia. }
  destruct (max_votes _ _ =? 0); simpl; [do 3 eexists; split; [done|lia]|].
  destruct (0 <? _); do 3 eexists; (split; [done|lia]).
Qed.

Lemma counts_are_bounded_by_total_witness :
  voteCount (candidate_at (session_at after_removal 1) 1)
  ≤ totalVotes (session_at after_removal 1).
Proof.
  destruct (counts_are_bounded_by_total (mkEnv 9 300) after_removal 1)
    as [Hle _].
  - do 2 apply reachable_run. apply reachable_deploy.
  - vm_compute; reflexivity.
  - apply Hle; vm_compute; discriminate.
Defined.

(** ** Renaming and removing candidates *)

Lemma scan_step_ext v v' acc i :
  votes_of v' i = votes_of v i →
  cand_isActive (candidate_at v' i) = cand_isActive (candidate_at v i) →
  scan_step v' acc i = scan_step v acc i.
Proof.
  intros Hv Ha. destruct acc as [[m w] t]. unfold scan_step.
  by rewrite Hv, Ha.
Qed.

Lemma scan_result_ext v v' l :
  (∀ i, votes_of v' i = votes_of v i) →
  (∀ i, cand_isActive (candidate_at v' i)
        = cand_isActive (candidate_at v i)) →
  scan_result v' l = scan_result v l.
Proof.
  intros Hv Ha. rewrite <- (scan_closed v l), <- (scan_closed v' l).
  generalize (0, 0, 0).
  induction l as [|i l IH]; intros acc; [done|]. simpl.
  rewrite (scan_step_ext v v') by done. apply IH.
Qed.

Lemma updateCandidate_Ok sid cid nm env s s' :
  updateCandidate sid cid nm env s = Ok (tt, s') →
  session_exists s sid = true ∧ nonempty nm = true
  ∧ cand_isActive (candidate_at (session_at s sid) cid) = true
  ∧ s' = rename_state sid cid nm s.
Proof.
  rewrite updateCandidate_run. cbv zeta.
  destruct (edit_guard env s sid) eqn:Hg; [done|].
  apply edit_guard_None in Hg as (_ & He & _).
  destruct (nonempty nm); [|done]. simpl.
  destruct (negb _); [done|].
  destruct (cand_isActive (candidate_at (session_at s sid) cid)); [|done].
  simpl. by intros [= <-].
Qed.

Lemma triple_eq_mid {A B C} (a a' : A) (b b' : B) (c c' : C) :
  (a, b, c) = (a', b', c') → b = b'.
Proof. by intros [= _ -> _]. Qed.

(** X26: a successful [updateCandidate] sets the name of one active
    candidate to the new name, logs [CandidateUpdated], and changes nothing
    else: the candidate's id, vote count and flag, every other candidate,
    every other field of the session, the vote records, every other
    session, the registrations, [sessionCount] and the owner are as before.
    The tally is therefore unaffected: [getSessionWinner] reports the same
    vote count and tie flag before and after; afterwards it reports the new
    name when the renamed candidate is the winner (votes were cast, the
    maximum among the active candidates is positive and the candidate is
    the lowest-id active candidate holding it), and the same name as before
    in every other case.  (The tally part for sessions with fewer than
    [2^256 - 1] candidates.) *)
Theorem updateCandidate_only_renames sid cid nm env env1 env2 s s' :
  updateCandidate sid cid nm env s = Ok (tt, s') →
  let v := session_at s sid in
  let v' := session_at s' sid in
  cand_name (candidate_at v' cid) = nm
  ∧ (cand_id (candidate_at v' cid), voteCount (candidate_at v' cid),
     cand_isActive (candidate_at v' cid))
    = (cand_id (candidate_at v cid), voteCount (candidate_at v cid), true)
  ∧ cand_isActive (candidate_at v cid) = true
  ∧ (∀ j, j ≠ cid → candidate_at v' j = candidate_at v j)
  ∧ (sessionId v', sessionName v', startTime v', endTime v')
    = (sessionId v, sessionName v, startTime v, endTime v)
  ∧ (isActive v', isCreated v', candidateCount v', totalVotes v')
    = (isActive v, isCreated v, candidateCount v, totalVotes v)
  ∧ hasVoted v' = hasVoted v ∧ voterChoice v' = voterChoice v
  ∧ (∀ sid', sid' ≠ sid →
       votingSessions s' !! sid' = votingSessions s !! sid')
  ∧ (registeredVoters s', sessionCount s', owner s')
    = (registeredVoters s, sessionCount s, owner s)
  ∧ events s' = events s ++ [CandidateUpdated sid cid nm]
  ∧ (candidateCount v < max_uint256 →
     ∃ n1 n2 votes tie,
       getSessionWinner sid env1 s = Ok ((n1, votes, tie), s)
       ∧ getSessionWinner sid env2 s' = Ok ((n2, votes, tie), s')
       ∧ (totalVotes v ≠ 0 →
          0 < max_votes v (ids_upto (candidateCount v)) →
          lowest_leader v cid → n2 = nm)
       ∧ (¬ (totalVotes v ≠ 0
             ∧ 0 < max_votes v (ids_upto (candidateCount v))
             ∧ lowest_leader v cid) → n2 = n1)).
Proof.
  intros Hrun. apply updateCandidate_Ok in Hrun as (He & Hn & Hact & ->).
  destruct (session_exists_range _ _ He) as (Hpos & Hle & Hcr).
  cbv zeta. unfold rename_state.
  change (session_at (log_event ?e ?t) sid) with (session_at t sid).
  rewrite session_at_put.
  set (v := session_at s sid) in *.
  set (v' := set_candidate cid (set_cand_name nm (candidate_at v cid)) v).
  assert (Hc : candidate_at v' cid = set_cand_name nm (candidate_at v cid))
    by apply candidate_at_set_eq.
  rewrite Hc. split; [done|]. split; [simpl; by rewrite Hact|].
  split; [done|].
  split; [intros j Hj; by apply candidate_at_set_ne|].
  do 4 (split; [done|]).
  split; [intros sid' Hne; simpl; by rewrite lookup_insert_ne|].
  do 2 (split; [done|]).
  intros Hcc. rewrite getSessionWinner_run by done.
  rewrite getSessionWinner_run.
  2:{ change (session_exists (log_event ?e ?t) sid)
        with (session_exists t sid). by apply session_exists_put. }
  2:{ change (session_at (log_event ?e ?t) sid) with (session_at t sid).
      by rewrite session_at_put. }
  change (session_at (log_event ?e ?t) sid) with (session_at t sid).
  rewrite session_at_put. fold v v'.
  unfold winner_of.
  change (totalVotes v') with (totalVotes v).
  change (candidateCount v') with (candidateCount v).
  rewrite (scan_result_ext v v').
  2:{ intros i. unfold votes_of, v'.
      destruct (decide (i = cid)) as [->|Hne].
      - by rewrite candidate_at_set_eq.
      - by rewrite candidate_at_set_ne. }
  2:{ intros i. unfold v'. destruct (decide (i = cid)) as [->|Hne].
      - by rewrite candidate_at_set_eq.
      - by rewrite candidate_at_set_ne. }
  destruct (totalVotes v =? 0) eqn:Htv.
  { apply N.eqb_eq in Htv. do 4 eexists.
    split; [done|]. split; [done|]. split; [|done].
    intros Hne. by destruct Hne. }
  unfold scan_result. set (ids := ids_upto (candidateCount v)).
  destruct (max_votes v ids =? 0) eqn:Hm.
  { apply N.eqb_eq in Hm. simpl. do 4 eexists.
    split; [done|]. split; [done|]. split; [|done].
    intros _ Hp. rewrite Hm in Hp. by apply N.lt_irrefl in Hp. }
  apply N.eqb_neq in Hm.
  assert (Hmax : 0 < max_votes v ids) by (by apply N.neq_0_lt_0).
  pose proof (leaders_nonempty _ _ Hmax) as Hnil.
  destruct (leaders v ids) as [|w rest] eqn:HL; [done|].
  assert (Hlow : lowest_leader v w).
  { apply head_leaders_lowest. fold ids. by rewrite HL. }
  assert (Hw : 0 < w).
  { destruct Hlow as [Hin _].
    apply list_elem_of_filter in Hin as [_ Hin].
    apply list_elem_of_filter in Hin as [_ Hin].
    apply elem_of_ids_upto in Hin. lia. }
  simpl. replace (0 <? w) with true by (symmetry; by apply N.ltb_lt).
  do 4 eexists. split; [done|]. split; [done|]. split.
  - intros _ _ Hcid. assert (w = cid) as ->.
    { destruct Hlow as [H1 H2], Hcid as [H3 H4].
      specialize (H2 _ H3). specialize (H4 _ H1). lia. }
    by rewrite Hc.
  - intros Hnot. destruct (decide (w = cid)) as [->|Hne].
    + exfalso. apply Hnot. split; [by apply N.eqb_neq|]. by split.
    + unfold v'. by rewrite candidate_at_set_ne.
Qed.

Lemma updateCandidate_only_renames_witness :
  ∃ s', updateCandidate 1 1 "Alicia" (mkEnv 1 300) before_removal
        = Ok (tt, s')
        ∧ cand_name (candidate_at (session_at s' 1) 1) = "Alicia"%string
        ∧ voteCount (candidate_at (session_at s' 1) 1) = 1
        ∧ getSessionWinner 1 (mkEnv 9 300) before_removal
          = Ok (("Alice"%string, 1, false), before_removal)
        ∧ getSessionWinner 1 (mkEnv 9 300) s'
          = Ok (("Alicia"%string, 1, false), s').
Proof.
  eexists. split; [vm_compute; reflexivity|].
  destruct (updateCandidate_only_renames 1 1 "Alicia" (mkEnv 1 300)
              (mkEnv 9 300) (mkEnv 9 300) before_removal
              (rename_state 1 1 "Alicia" before_removal))
    as (Hn & Hc & _).
  - vm_compute; reflexivity.
  - split; [etransitivity; [|etransitivity; [exact Hn|]]; reflexivity|].
    apply triple_eq_mid in Hc.
    split; [etransitivity; [|etransitivity; [exact Hc|]];
            vm_compute; reflexivity|].
    split; vm_compute; reflexivity.
Defined.

Lemma removal_is_frozen sid cid env s s1 txs :
  removeCandidateFromSession sid cid env s = Ok (tt, s1) →
  session_exists (run txs s1) sid = true
  ∧ 1 ≤ cid ∧ cid ≤ candidateCount (session_at (run txs s1) sid)
  ∧ cand_isActive (candidate_at (session_at (run txs s1) sid) cid) = false.
Proof.
  intros Hrun. rewrite removeCandidateFromSession_run in Hrun.
  cbv zeta in Hrun.
  destruct (edit_guard env s sid) eqn:Hg; [done|].
  apply edit_guard_None in Hg as (_ & He & _).
  destruct ((0 <? cid) && (cid <=? candidateCount (session_at s sid)))
    eqn:Hrange; simpl in Hrun; [|done].
  destruct (cand_isActive (candidate_at (session_at s sid) cid)) eqn:Hact;
    simpl in Hrun; [|done].
  injection Hrun as <-.
  apply andb_true_iff in Hrange as [Hc1%N.ltb_lt Hc2%N.leb_le].
  destruct (session_exists_range _ _ He) as (Hpos & Hle & Hcr).
  assert (Hs1 : session_at (deactivate_state sid cid s) sid
    = set_candidate cid
        (set_cand_isActive false (candidate_at (session_at s sid) cid))
        (session_at s sid)) by apply session_at_put.
  assert (He1 : session_exists (deactivate_state sid cid s) sid = true).
  { unfold deactivate_state.
    change (session_exists (log_event ?e ?t) sid) with (session_exists t sid).
    by apply session_exists_put. }
  pose proof (evolves_run txs (deactivate_state sid cid s)) as Hev.
  destruct (ev_exists _ _ Hev _ He1) as [He2 Hcc2].
  rewrite Hs1 in Hcc2. simpl in Hcc2.
  split_and!; [done | lia | lia |].
  rewrite (ev_frozen _ _ Hev sid cid He1); rewrite Hs1.
  - by rewrite candidate_at_set_eq.
  - done.
  - by rewrite candidate_at_set_eq.
Qed.

(** X27: removal is final.  After a successful
    [removeCandidateFromSession], and after any further transactions, the
    candidate is still inactive; removing it again or renaming it fails
    for every caller at every time, and when the owner tries on the
    inactive session the failures are "Candidate already inactive" and
    "Candidate not active". *)
Theorem removal_is_final sid cid env s s1 txs env' nm :
  removeCandidateFromSession sid cid env s = Ok (tt, s1) →
  cand_isActive (candidate_at (session_at (run txs s1) sid) cid) = false
  ∧ outcome env' (RemoveCandidateFromSession sid cid) (run txs s1) ≠ None
  ∧ outcome env' (UpdateCandidate sid cid nm) (run txs s1) ≠ None
  ∧ (msg_sender env' = owner (run txs s1) →
     session_active env' (run txs s1) sid = false →
     outcome env' (RemoveCandidateFromSession sid cid) (run txs s1)
     = Some CandidateAlreadyInactive
     ∧ (nonempty nm = true →
        outcome env' (UpdateCandidate sid cid nm) (run txs s1)
        = Some CandidateNotActive_update)).
Proof.
  intros Hrun.
  destruct (removal_is_frozen _ _ _ _ _ txs Hrun) as (He & Hc1 & Hc2 & Hoff).
  set (s2 := run txs s1) in *.
  assert (Hrange : (0 <? cid) && (cid <=? candidateCount (session_at s2 sid))
                   = true)
    by (apply andb_true_iff;
        split; [apply N.ltb_lt; lia | by apply N.leb_le]).
  unfold outcome. simpl.
  rewrite removeCandidateFromSession_run, updateCandidate_run. cbv zeta.
  rewrite Hrange, Hoff. simpl.
  split_and!; try done.
  - by destruct (edit_guard env' s2 sid).
  - destruct (edit_guard env' s2 sid); [done|]. by destruct (negb _).
  - intros Ho Hna.
    assert (Hg : edit_guard env' s2 sid = None).
    { destruct (exists_range_true _ _ He) as [Hr Hcr].
      unfold edit_guard. by rewrite Ho, N.eqb_refl, Hr, Hcr, Hna. }
    rewrite Hg. split; [done|]. by intros ->.
Qed.

Lemma removal_is_final_witness :
  removeCandidateFromSession 1 1 (mkEnv 1 210) before_removal
  = Ok (tt, after_removal)
  ∧ outcome (mkEnv 1 300) (RemoveCandidateFromSession 1 1)
      (run late_voter after_removal)
    = Some CandidateAlreadyInactive.
Proof.
  split; [vm_compute; reflexivity|].
  destruct (removal_is_final 1 1 (mkEnv 1 210) before_removal after_removal
              late_voter (mkEnv 1 300) "Alicia")
    as (_ & _ & _ & Hown); [vm_compute; reflexivity|].
  apply Hown; vm_compute; reflexivity.
Defined.

(** ** Adding a candidate *)

Lemma filter_ext_in {A} (P Q : A → Prop) `{!∀ x, Decision (P x)}
    `{!∀ x, Decision (Q x)} (l : list A) :
  (∀ x, x ∈ l → P x ↔ Q x) → filter P l = filter Q l.
Proof.
  induction l as [|x l IH]; intros Hall; [done|].
  assert (Hl : filter P l = filter Q l)
    by (apply IH; intros y Hy; apply Hall; by right).
  destruct (decide (P x)) as [Hp|Hp].
  - rewrite !filter_cons_True by (done || by apply (Hall x); [left|]).
    by rewrite Hl.
  - rewrite !filter_cons_False; [done | | done].
    intros Hq. apply Hp. apply (Hall x); [left | done].
Qed.

Lemma listing_add_candidate name v :
  candidate_at (add_candidate_session name v)
    <$> active_ids (add_candidate_session name v)
          (ids_upto (candidateCount v + 1))
  = (candidate_at v <$> active_ids v (ids_upto (candidateCount v)))
    ++ [mkCandidate (candidateCount v + 1) name 0 true].
Proof.
  assert (Hold : ∀ i, i ∈ ids_upto (candidateCount v) →
            candidate_at (add_candidate_session name v) i = candidate_at v i).
  { intros i Hi%elem_of_ids_upto. unfold candidate_at. simpl.
    by rewrite lookup_insert_ne by lia. }
  assert (Hnew : candidate_at (add_candidate_session name v)
                   (candidateCount v + 1)
                 = mkCandidate (candidateCount v + 1) name 0 true).
  { unfold candidate_at. simpl. by rewrite lookup_insert_eq. }
  rewrite ids_upto_succ. unfold active_ids.
  rewrite filter_app, fmap_app. f_equal.
  - rewrite (filter_ext_in _
               (λ i, cand_isActive (candidate_at v i) = true)).
    + apply list_fmap_ext. intros k i Hk.
      apply list_elem_of_lookup_2 in Hk.
      apply list_elem_of_filter in Hk as [_ Hi]. by apply Hold.
    + intros i Hi. by rewrite Hold.
  - rewrite filter_cons_True by (by rewrite Hnew). simpl. by rewrite Hnew.
Qed.

(** X28: [addCandidateToSession] succeeds exactly when the caller is the
    owner, the session exists and is not active at the time of the call
    (whether never started, ended, or past its window), the name is
    non-empty and the candidate counter has room.  The new candidate gets
    the next id, no votes and the active flag, and then appears last in
    [getSessionCandidates], after the unchanged earlier entries. *)
Theorem addCandidate_appends env env' s sid name :
  (outcome env (AddCandidateToSession sid name) s = None
   ↔ msg_sender env = owner s ∧ session_exists s sid = true
     ∧ session_active env s sid = false ∧ nonempty name = true
     ∧ candidateCount (session_at s sid) < max_uint256)
  ∧ (outcome env (AddCandidateToSession sid name) s = None →
     candidateCount (session_at s sid) + 1 < max_uint256 →
     ∃ l, getSessionCandidates sid env' s = Ok (l, s)
          ∧ getSessionCandidates sid env'
              (transact env (AddCandidateToSession sid name) s)
            = Ok (l ++ [mkCandidate (candidateCount (session_at s sid) + 1)
                          name 0 true],
                  transact env (AddCandidateToSession sid name) s)).
Proof.
  unfold outcome, transact. simpl. rewrite addCandidateToSession_run.
  destruct (edit_guard env s sid) eqn:Hg.
  { split; [split; [done|] | done].
    intros (Ho & He & Hna & _). exfalso.
    destruct (exists_range_true _ _ He) as [Hr Hcr].
    unfold edit_guard in Hg.
    by rewrite Ho, N.eqb_refl, Hr, Hcr, Hna in Hg. }
  apply edit_guard_None in Hg as (Ho & He & Hna).
  destruct (nonempty name) eqn:Hn; simpl.
  2:{ split; [split; [done | by intros (_ & _ & _ & ? & _)] | done]. }
  destruct (candidateCount (session_at s sid) <? max_uint256) eqn:Hcc; simpl.
  2:{ apply N.ltb_ge in Hcc.
      split; [split; [done | intros (_ & _ & _ & _ & ?); lia] | done]. }
  apply N.ltb_lt in Hcc. split; [done|]. intros _ Hroom.
  eexists. split; [by apply getSessionCandidates_run|].
  rewrite getSessionCandidates_run.
  - rewrite session_at_add_candidate. simpl.
    by rewrite listing_add_candidate.
  - by apply session_exists_add_candidate.
  - by rewrite session_at_add_candidate.
Qed.

Lemma addCandidate_appends_witness :
  outcome (mkEnv 1 300) (AddCandidateToSession 1 "Carol") after_removal
  = None
  ∧ getSessionCandidates 1 (mkEnv 9 310)
      (transact (mkEnv 1 300) (AddCandidateToSession 1 "Carol")
         after_removal)
    = Ok ([mkCandidate 2 "Bob" 0 true; mkCandidate 3 "Carol" 0 true],
          transact (mkEnv 1 300) (AddCandidateToSession 1 "Carol")
            after_removal).
Proof.
  split; [vm_compute; reflexivity|].
  destruct (addCandidate_appends (mkEnv 1 300) (mkEnv 9 310) after_removal
              1 "Carol") as [_ Happ].
  destruct Happ as (l & Hl & Hl');
    [vm_compute; reflexivity | vm_compute; reflexivity |].
  rewrite Hl'. f_equal. f_equal.
  assert (Hl0 : getSessionCandidates 1 (mkEnv 9 310) after_removal
                = Ok ([mkCandidate 2 "Bob" 0 true], after_removal))
    by (vm_compute; reflexivity).
  rewrite Hl0 in Hl. apply Ok_fst_inj in Hl. by subst l.
Defined.
